(** * ChatCode: presence and signaling hub, join and peer orchestration

    A shallow embedding of the real-time coordination code of ChatCode:

    - [server/socket.js] in its two revisions (the revision with the
      signaling relay and the debounced writer is [Hub], the shorter one
      is [ServerSocket]);
    - [server/routes/room.js] in its two revisions ([HubRoutes] is the one
      kept with [Hub], [ServerRoutes] the one under [server/routes]);
    - the client services [WebSocketService], [useRoomAccess] and the
      [VideoChat] peer-connection handlers.

    Conventions.  Identifiers (room ids, user ids, socket ids) are strings
    and are compared by value, as the code does through [toString()].
    A JavaScript [Map] whose iteration order is observable is an
    insertion-ordered association list ([JsMap]); the others are [gmap]s.
    Every handler is a function from the state before the event to the
    state after it and the list of effects it performed, in order.  The
    models of [Room] and [User] are known through the fields the handlers
    read and write. *)

From Stdlib Require Import String Ascii List ZArith Lia Bool.
From stdpp Require Import gmap strings.
Import ListNotations.

Local Open Scope string_scope.
Local Open Scope list_scope.

(** ** JavaScript values *)

Module Js.

(** [!!s] for a string: every string but the empty one is truthy. *)
Definition truthy (s : string) : bool := negb (String.eqb s EmptyString).

(** [!!x] for a value that is [null]/[undefined] or a string. *)
Definition truthy_opt (o : option string) : bool :=
  match o with
  | Some s => truthy s
  | None => false
  end.

(** [a < b] on strings (socket ids are ASCII, so comparing bytes and
    comparing UTF-16 code units agree). *)
Definition lt (a b : string) : bool := String.ltb a b.

End Js.

(** ** Insertion-ordered maps (JavaScript [Map]) *)

Module JsMap.
Section Defs.
Context {V : Type}.

Definition t : Type := list (string * V).

Fixpoint get (k : string) (m : t) : option V :=
  match m with
  | [] => None
  | (k', v) :: m' => if String.eqb k' k then Some v else get k m'
  end.

Definition has (k : string) (m : t) : bool :=
  match get k m with
  | Some _ => true
  | None => false
  end.

(** [m.set(k, v)]: an existing key keeps its place, a new one goes last. *)
Fixpoint set (k : string) (v : V) (m : t) : t :=
  match m with
  | [] => [(k, v)]
  | (k', v') :: m' =>
      if String.eqb k' k then (k, v) :: m' else (k', v') :: set k v m'
  end.

Definition delete (k : string) (m : t) : t :=
  List.filter (fun kv => negb (String.eqb (fst kv) k)) m.

Definition keys (m : t) : list string := map fst m.
Definition values (m : t) : list V := map snd m.

(** The representation invariant of a [Map]: no key occurs twice. *)
Definition wf (m : t) : Prop := List.NoDup (keys m).

End Defs.
Arguments t : clear implicits.
End JsMap.

(** ** Data model *)

(** A reference to a user inside a room document: [share.user] or [p.user].
    It may be missing ([null]); otherwise it is an id, held either as an
    ObjectId (compared through [toString()]) or as a plain string. *)
Definition UserRef : Type := option string.

(** [ref && (ref._id.toString() === userId || ref === userId)], and the
    shorter [ref && ref.toString() === userId]. *)
Definition ref_is (ref : UserRef) (userId : string) : bool :=
  match ref with
  | Some u => String.eqb u userId
  | None => false
  end.

Record Participant : Type := mkParticipant {
  p_user : UserRef;
  p_joinedAt : Z
}.

Record Share : Type := mkShare {
  s_user : UserRef;
  s_sharedAt : Z
}.

(** The fields of the [Room] model that the coordination code touches. *)
Record Room : Type := mkRoom {
  room_id : string;
  owner : string;
  isPrivate : bool;
  password : option string;
  participants : list Participant;
  sharedWith : list Share;
  code : string;
  language : string;
  lastActivity : Z
}.

Record User : Type := mkUser {
  user_id : string;
  username : string;
  avatar : string;
  displayName : option string;
  firstName : option string
}.

(** The persistent store, as the two collections the handlers query. *)
Record Db : Type := mkDb {
  rooms : list Room;
  users : list User
}.

Definition Room_findById (roomId : string) (d : Db) : option Room :=
  List.find (fun r => String.eqb (room_id r) roomId) (rooms d).

Definition User_findById (userId : string) (d : Db) : option User :=
  List.find (fun u => String.eqb (user_id u) userId) (users d).

(** [room.save()] and [Room.findByIdAndUpdate]: rewrite the stored
    document that has the same id; a missing document stays missing. *)
Definition Room_update (roomId : string) (f : Room -> Room) (d : Db) : Db :=
  mkDb (map (fun r => if String.eqb (room_id r) roomId then f r else r) (rooms d))
       (users d).

Definition with_participants (ps : list Participant) (r : Room) : Room :=
  mkRoom (room_id r) (owner r) (isPrivate r) (password r) ps (sharedWith r)
         (code r) (language r) (lastActivity r).

Definition with_lastActivity (now : Z) (r : Room) : Room :=
  mkRoom (room_id r) (owner r) (isPrivate r) (password r) (participants r)
         (sharedWith r) (code r) (language r) now.

Definition with_code (c l : string) (now : Z) (r : Room) : Room :=
  mkRoom (room_id r) (owner r) (isPrivate r) (password r) (participants r)
         (sharedWith r) c l now.

(** The three membership tests of the access checks. *)
Definition isOwner (room : Room) (userId : string) : bool :=
  String.eqb (owner room) userId.

Definition isSharedWith (room : Room) (userId : string) : bool :=
  existsb (fun share => ref_is (s_user share) userId) (sharedWith room).

Definition isParticipant (room : Room) (userId : string) : bool :=
  existsb (fun p => ref_is (p_user p) userId) (participants room).

(** An entry of the presence registry ([userData] in [joinRoom]). *)
Record UserData : Type := mkUserData {
  ud_id : string;
  ud_socketId : string;
  ud_username : string;
  ud_avatar : string;
  ud_displayName : string;
  ud_firstName : string;
  ud_isCreator : bool
}.

(** The payload of a relayed negotiation message: [data] of [offer],
    [answer] and [iceCandidate].  [sd_body] stands for the [sdp] or the
    [candidate]; [sd_sender] is whatever the client wrote there. *)
Record SignalData : Type := mkSignalData {
  sd_roomId : string;
  sd_target : string;
  sd_sender : option string;
  sd_body : string
}.

(** [{...data, sender: socket.id}] *)
Definition with_sender (sid : string) (data : SignalData) : SignalData :=
  mkSignalData (sd_roomId data) (sd_target data) (Some sid) (sd_body data).

(** ** Effects of a hub handler *)

(** Events the hub sends, with the payload fields the claims speak of. *)
Inductive Event : Type :=
| EvError (message : string)
| EvUserJoined (user : UserData) (users : list UserData)
| EvParticipantCountUpdate (count : nat)
| EvActiveUsers (users : list UserData)
| EvNewPeer (peerId userId : string)
| EvRoomData (room : Room)
| EvPreviousMessages
| EvCodeUpdate (code language : string)
| EvCursorUpdate (position userId name : string)
| EvUserLeft (userId : string) (users : list UserData)
| EvOffer (data : SignalData)
| EvAnswer (data : SignalData)
| EvIceCandidate (data : SignalData)
| EvConnectionRetry (sender roomId : string).

(** Where an emission goes: [socket.emit], [io.to(room).emit] and
    [socket.to(room).emit] (the room without the emitting socket). *)
Inductive Dest : Type :=
| ToSocket
| IoTo (room : string)
| SocketTo (room : string).

(** Writes to the store. *)
Inductive DbWrite : Type :=
| SaveParticipants (roomId : string) (ps : list Participant)
| TouchRoom (roomId : string) (now : Z)
| SaveCode (roomId code language : string) (now : Z).

Inductive Effect : Type :=
| Emit (d : Dest) (e : Event)
| Write (w : DbWrite).

(** The socket.io adapter: for every room name, the sockets in it.  A
    socket is put in the room named by its own id when it connects. *)
Definition Adapter : Type := gmap string (gset string).

Definition members (room : string) (a : Adapter) : gset string :=
  default ∅ (a !! room).

Definition socket_join (sid room : string) (a : Adapter) : Adapter :=
  <[room := {[sid]} ∪ members room a]> a.

Definition socket_leave (sid room : string) (a : Adapter) : Adapter :=
  match a !! room with
  | Some s => <[room := s ∖ {[sid]}]> a
  | None => a
  end.

Definition socket_drop (sid : string) (a : Adapter) : Adapter :=
  (fun s => s ∖ {[sid]}) <$> a.

(** The sockets that receive an emission made while [sid] is handled. *)
Definition recipients (sid : string) (d : Dest) (a : Adapter) : gset string :=
  match d with
  | ToSocket => {[sid]}
  | IoTo room => members room a
  | SocketTo room => members room a ∖ {[sid]}
  end.

(** ** The presence registry, common to both revisions of [socket.js] *)

Module Presence.

(** [activeUsers]: room id to the array of entries, in registration order. *)
Definition ActiveUsers : Type := JsMap.t (list UserData).

Definition room_entries (roomId : string) (au : ActiveUsers) : list UserData :=
  match JsMap.get roomId au with
  | Some us => us
  | None => []
  end.

(** The body of the loop of [getUniqueActiveUsers]:
    [uniqueUsers.set(user.id, user)].  The key is the user id, taken by
    value. *)
Definition step (acc : JsMap.t UserData) (user : UserData) : JsMap.t UserData :=
  JsMap.set (ud_id user) user acc.

(** The loop, over the entries in array order. *)
Definition uniqueUsers_of (us : list UserData) : JsMap.t UserData :=
  fold_left step us [].

(** Every key of the scratch map is the id of the entry stored under it. *)
Definition keyed (m : JsMap.t UserData) : Prop :=
  forall k v, In (k, v) m -> ud_id v = k.

(** At most one entry per user in an array of entries. *)
Definition one_entry_per_user (us : list UserData) : Prop :=
  List.NoDup (map ud_id us).

Definition getUniqueActiveUsers (roomId : string) (au : ActiveUsers) : list UserData :=
  if negb (JsMap.has roomId au) then []
  else JsMap.values (uniqueUsers_of (room_entries roomId au)).

(** The [activeUsers] update of [joinRoom] (the same text in both
    revisions): a first entry creates the array, otherwise the caller's
    previous entries are filtered out; then the new entry is pushed. *)
Definition register (roomId userId : string) (userData : UserData)
    (au : ActiveUsers) : ActiveUsers :=
  let au1 :=
    if negb (JsMap.has roomId au) then JsMap.set roomId [] au
    else JsMap.set roomId
           (List.filter (fun u => negb (String.eqb (ud_id u) userId))
                        (room_entries roomId au)) au in
  JsMap.set roomId (room_entries roomId au1 ++ [userData]) au1.

(** [user => user.socketId === socket.id] and its negation, the tests of
    [find] and [filter] in [disconnect]. *)
Definition on_socket (sid : string) (user : UserData) : bool :=
  String.eqb (ud_socketId user) sid.

Definition stays (sid : string) (user : UserData) : bool :=
  negb (String.eqb (ud_socketId user) sid).

(** [arr.length] used as a condition. *)
Definition nonempty {A : Type} (l : list A) : bool :=
  match l with
  | [] => false
  | _ :: _ => true
  end.

End Presence.

(** ** The hub: [socket.js], revision with relay and debounced writer *)

Module Hub.
Import Presence.

(** A pending [setTimeout] callback of [saveCodeToDatabase], with the
    values its closure captured. *)
Record Timer : Type := mkTimer {
  t_id : nat;
  t_due : Z;
  t_roomId : string;
  t_code : string;
  t_language : string
}.

Record State : Type := mkState {
  activeUsers : ActiveUsers;
  saveTimeouts : gmap string nat;
  timers : list Timer;
  nextTimer : nat;
  sio : Adapter;
  db : Db
}.

Definition set_activeUsers (au : ActiveUsers) (st : State) : State :=
  mkState au (saveTimeouts st) (timers st) (nextTimer st) (sio st) (db st).

Definition set_sio (a : Adapter) (st : State) : State :=
  mkState (activeUsers st) (saveTimeouts st) (timers st) (nextTimer st) a (db st).

Definition set_db (d : Db) (st : State) : State :=
  mkState (activeUsers st) (saveTimeouts st) (timers st) (nextTimer st) (sio st) d.

(** [updateParticipantCount(io, roomId)] *)
Definition updateParticipantCount (roomId : string) (au : ActiveUsers) : list Effect :=
  if negb (Js.truthy roomId) then []
  else
    let uniqueUsers := getUniqueActiveUsers roomId au in
    [Emit (IoTo roomId) (EvParticipantCountUpdate (length uniqueUsers));
     Emit (IoTo roomId) (EvActiveUsers uniqueUsers)].

(** *** Debounced writer *)

(** The quiet window of [saveCodeToDatabase], in milliseconds. *)
Definition quietWindow : Z := 300.

Definition clearTimeout (tid : nat) (ts : list Timer) : list Timer :=
  List.filter (fun t => negb (Nat.eqb (t_id t) tid)) ts.

Definition saveCodeToDatabase (roomId code language : string) (now : Z)
    (st : State) : State :=
  let ts :=
    match saveTimeouts st !! roomId with
    | Some tid => clearTimeout tid (timers st)
    | None => timers st
    end in
  let timeoutId := nextTimer st in
  mkState (activeUsers st)
          (<[roomId := timeoutId]> (saveTimeouts st))
          (ts ++ [mkTimer timeoutId (now + quietWindow) roomId code language])
          (S timeoutId) (sio st) (db st).

(** The timer callback: the update of the room document, then
    [saveTimeouts.delete(roomId)].  The awaited update and the statement
    after it are one step here. *)
Definition fire (t : Timer) (st : State) : State * list Effect :=
  (mkState (activeUsers st)
           (delete (t_roomId t) (saveTimeouts st))
           (timers st) (nextTimer st) (sio st)
           (Room_update (t_roomId t) (with_code (t_code t) (t_language t) (t_due t)) (db st)),
   [Write (SaveCode (t_roomId t) (t_code t) (t_language t) (t_due t))]).

Fixpoint fire_all (ts : list Timer) (st : State) : State * list Effect :=
  match ts with
  | [] => (st, [])
  | t :: ts' =>
      let (st1, e1) := fire t st in
      let (st2, e2) := fire_all ts' st1 in
      (st2, e1 ++ e2)
  end.

Definition is_due (now : Z) (t : Timer) : bool := (t_due t <=? now)%Z.

(** Let the clock reach [now]: the callbacks that are due run, in the
    order in which they were scheduled. *)
Definition advance (now : Z) (st : State) : State * list Effect :=
  let due := List.filter (is_due now) (timers st) in
  let pending := List.filter (fun t => negb (is_due now t)) (timers st) in
  fire_all due
    (mkState (activeUsers st) (saveTimeouts st) pending (nextTimer st)
             (sio st) (db st)).

(** *** Handlers *)

(** What the client sends with [joinRoom].  The handler destructures
    [roomId] and [userId] only; a field that is absent reads as the empty
    string, which is as falsy as [undefined]. *)
Record JoinPayload : Type := mkJoinPayload {
  jp_roomId : string;
  jp_userId : string;
  jp_password : option string
}.

(** [room.password && room.isPrivate] and none of owner, share list,
    participant: the branch that answers with the password error. *)
Definition accessDenied (room : Room) (userId : string) : bool :=
  Js.truthy_opt (password room) && isPrivate room &&
  (negb (isOwner room userId) && negb (isSharedWith room userId)
   && negb (isParticipant room userId)).

Definition or_empty (o : option string) : string :=
  match o with
  | Some s => s
  | None => EmptyString
  end.

Definition mkEntry (user : User) (sid : string) (room : Room) (userId : string) : UserData :=
  mkUserData (user_id user) sid (username user) (avatar user)
             (or_empty (displayName user)) (or_empty (firstName user))
             (isOwner room userId).

(** The end of [joinRoom], after the [if (user)] block: the room is read
    again and sent with the last messages.  The statement that follows,
    [socket.emit('activeUsers', uniqueActiveUsers)], names a constant
    declared inside the [if (user)] block, so it throws and the [catch]
    clause reports the failure. *)
Definition joinRoom_tail (roomId : string) (st : State) (sofar : list Effect)
    : State * list Effect :=
  match Room_findById roomId (db st) with
  | None => (st, sofar ++ [Emit ToSocket (EvError "Room not found")])
  | Some room =>
      (st, sofar ++
           [Emit ToSocket (EvRoomData room);
            Emit ToSocket EvPreviousMessages;
            Emit ToSocket
              (EvError "Failed to join room: uniqueActiveUsers is not defined")])
  end.

Definition joinRoom (sid : string) (p : JoinPayload) (now : Z) (st : State)
    : State * list Effect :=
  let roomId := jp_roomId p in
  let userId := jp_userId p in
  if negb (Js.truthy roomId) || negb (Js.truthy userId) then
    (st, [Emit ToSocket (EvError "Invalid room or user data")])
  else
    let st1 := set_sio (socket_join sid roomId (sio st)) st in
    match User_findById userId (db st1) with
    | None => joinRoom_tail roomId st1 []
    | Some user =>
        match Room_findById roomId (db st1) with
        | None => (st1, [Emit ToSocket (EvError "Room not found")])
        | Some room =>
            if accessDenied room userId then
              (st1, [Emit ToSocket (EvError "This room requires a password to join")])
            else
              let isExistingParticipant := isParticipant room userId in
              let ps := participants room ++ [mkParticipant (Some userId) now] in
              let st2 :=
                if isExistingParticipant then st1
                else set_db (Room_update roomId (with_participants ps) (db st1)) st1 in
              let saved :=
                if isExistingParticipant then []
                else [Write (SaveParticipants roomId ps)] in
              let userData := mkEntry user sid room userId in
              let au := register roomId userId userData (activeUsers st2) in
              let st3 := set_activeUsers au st2 in
              let uniqueActiveUsers := getUniqueActiveUsers roomId au in
              let st4 := set_db (Room_update roomId (with_lastActivity now) (db st3)) st3 in
              joinRoom_tail roomId st4
                (saved ++
                 [Emit (IoTo roomId) (EvUserJoined userData uniqueActiveUsers);
                  Write (TouchRoom roomId now)] ++
                 updateParticipantCount roomId au ++
                 [Emit (SocketTo roomId) (EvNewPeer sid userId)])
        end
    end.

Definition codeChange (sid roomId code language : string) (now : Z) (st : State)
    : State * list Effect :=
  let sent := [Emit (SocketTo roomId) (EvCodeUpdate code language)] in
  if Js.truthy roomId && Js.truthy code then
    (saveCodeToDatabase roomId code language now st, sent)
  else (st, sent).

Definition cursorChange (sid roomId position userId name : string) (st : State)
    : State * list Effect :=
  if Js.truthy roomId && Js.truthy position && Js.truthy userId then
    (st, [Emit (SocketTo roomId) (EvCursorUpdate position userId name)])
  else (st, []).

Definition leaveRoom (sid roomId userId : string) (st : State)
    : State * list Effect :=
  let st1 := set_sio (socket_leave sid roomId (sio st)) st in
  if Js.truthy roomId && Js.truthy userId && JsMap.has roomId (activeUsers st1) then
    let roomUsers := room_entries roomId (activeUsers st1) in
    let updatedUsers :=
      List.filter (fun user => negb (String.eqb (ud_id user) userId
                                     && String.eqb (ud_socketId user) sid))
                  roomUsers in
    let au :=
      if nonempty updatedUsers then JsMap.set roomId updatedUsers (activeUsers st1)
      else JsMap.delete roomId (activeUsers st1) in
    let uniqueActiveUsers := getUniqueActiveUsers roomId au in
    (set_activeUsers au st1,
     Emit (IoTo roomId) (EvUserLeft userId uniqueActiveUsers)
     :: updateParticipantCount roomId au)
  else (st1, []).

(** The three forwarding handlers share their text but for the event name. *)
Definition forward (ev : SignalData -> Event) (sid : string) (data : SignalData)
    (st : State) : State * list Effect :=
  if Js.truthy (sd_roomId data) && Js.truthy (sd_target data) then
    (st, [Emit (IoTo (sd_target data)) (ev (with_sender sid data))])
  else (st, []).

Definition offer := forward EvOffer.
Definition answer := forward EvAnswer.
Definition iceCandidate := forward EvIceCandidate.

Definition retryConnection (sid targetId roomId : string) (st : State)
    : State * list Effect :=
  if Js.truthy targetId && Js.truthy roomId then
    (st, [Emit (IoTo targetId) (EvConnectionRetry sid roomId)])
  else (st, []).

(** The body of the loop of [disconnect], for one entry of [activeUsers]. *)
Definition disconnect_room (sid roomId : string) (users : list UserData)
    (au : ActiveUsers) : ActiveUsers * list Effect :=
  match List.find (on_socket sid) users with
  | None => (au, [])
  | Some disconnectedUser =>
      let updatedUsers := List.filter (stays sid) users in
      if nonempty updatedUsers then
        let au1 := JsMap.set roomId updatedUsers au in
        let uniqueActiveUsers := getUniqueActiveUsers roomId au1 in
        let userStillActive :=
          existsb (fun u => String.eqb (ud_id u) (ud_id disconnectedUser))
                  uniqueActiveUsers in
        (au1,
         (if negb userStillActive then
            [Emit (IoTo roomId) (EvUserLeft (ud_id disconnectedUser) uniqueActiveUsers)]
          else []) ++ updateParticipantCount roomId au1)
      else (JsMap.delete roomId au, [])
  end.

(** [for (const [roomId, users] of activeUsers.entries())]: every entry
    present when the loop starts is visited once, in insertion order; the
    body only rewrites or deletes the entry being visited. *)
Fixpoint disconnect_loop (sid : string) (entries : list (string * list UserData))
    (au : ActiveUsers) : ActiveUsers * list Effect :=
  match entries with
  | [] => (au, [])
  | (roomId, users) :: rest =>
      let (au1, e1) := disconnect_room sid roomId users au in
      let (au2, e2) := disconnect_loop sid rest au1 in
      (au2, e1 ++ e2)
  end.

(** By the time the [disconnect] event runs, socket.io has taken the
    socket out of every room. *)
Definition disconnect (sid : string) (st : State) : State * list Effect :=
  let st1 := set_sio (socket_drop sid (sio st)) st in
  let (au, effs) := disconnect_loop sid (activeUsers st1) (activeUsers st1) in
  (set_activeUsers au st1, effs).

(** [io.on('connection')]: the new socket is alone in the room named by
    its id. *)
Definition connect (sid : string) (st : State) : State :=
  set_sio (socket_join sid sid (sio st)) st.

(** *** The event loop *)

Inductive Input : Type :=
| InJoinRoom (p : JoinPayload)
| InCodeChange (roomId code language : string)
| InCursorChange (roomId position userId name : string)
| InLeaveRoom (roomId userId : string)
| InOffer (data : SignalData)
| InAnswer (data : SignalData)
| InIceCandidate (data : SignalData)
| InRetryConnection (targetId roomId : string)
| InDisconnect.

Definition handle (sid : string) (i : Input) (now : Z) (st : State)
    : State * list Effect :=
  match i with
  | InJoinRoom p => joinRoom sid p now st
  | InCodeChange roomId c l => codeChange sid roomId c l now st
  | InCursorChange roomId pos userId name => cursorChange sid roomId pos userId name st
  | InLeaveRoom roomId userId => leaveRoom sid roomId userId st
  | InOffer data => offer sid data st
  | InAnswer data => answer sid data st
  | InIceCandidate data => iceCandidate sid data st
  | InRetryConnection targetId roomId => retryConnection sid targetId roomId st
  | InDisconnect => disconnect sid st
  end.

(** An event received from socket [ev_sid] at time [ev_time]. *)
Record Arrival : Type := mkArrival {
  ev_time : Z;
  ev_sid : string;
  ev_input : Input
}.

(** The reactor: timers that are due run before the event that arrives. *)
Fixpoint run (evs : list Arrival) (st : State) : State * list Effect :=
  match evs with
  | [] => (st, [])
  | a :: rest =>
      let (st1, e1) := advance (ev_time a) st in
      let (st2, e2) := handle (ev_sid a) (ev_input a) (ev_time a) st1 in
      let (st3, e3) := run rest st2 in
      (st3, e1 ++ e2 ++ e3)
  end.

(** The writes of the document snapshot among the effects. *)
Definition codeWrites (effs : list Effect) : list (string * string * string) :=
  flat_map (fun e =>
              match e with
              | Write (SaveCode r c l _) => [(r, c, l)]
              | _ => []
              end) effs.

(** The [userLeft] events sent to a room among the effects. *)
Definition userLeftIn (roomId : string) (effs : list Effect) : list string :=
  flat_map (fun e =>
              match e with
              | Emit (IoTo r) (EvUserLeft u _) =>
                  if String.eqb r roomId then [u] else []
              | _ => []
              end) effs.

End Hub.

(** ** [server/socket.js]: the parts that differ from [Hub] *)

Module ServerSocket.
Import Presence.

(** The access check of this revision's [joinRoom]: [room.password] and
    neither owner nor on the share list.  Being a participant does not
    count here, and the room need not be private. *)
Definition accessDenied (room : Room) (userId : string) : bool :=
  Js.truthy_opt (password room)
  && (negb (isOwner room userId) && negb (isSharedWith room userId)).

(** This revision sends the count only. *)
Definition updateParticipantCount (roomId : string) (au : ActiveUsers) : list Effect :=
  if negb (Js.truthy roomId) then []
  else [Emit (IoTo roomId)
             (EvParticipantCountUpdate (length (getUniqueActiveUsers roomId au)))].

Definition disconnect_room (sid roomId : string) (users : list UserData)
    (au : ActiveUsers) : ActiveUsers * list Effect :=
  let disconnectedUser := List.find (on_socket sid) users in
  let updatedUsers := List.filter (stays sid) users in
  if nonempty updatedUsers then
    let au1 := JsMap.set roomId updatedUsers au in
    let uniqueActiveUsers := getUniqueActiveUsers roomId au1 in
    match disconnectedUser with
    | Some du =>
        (au1, Emit (IoTo roomId) (EvUserLeft (ud_id du) uniqueActiveUsers)
              :: updateParticipantCount roomId au1)
    | None => (au1, [])
    end
  else (JsMap.delete roomId au, []).

Fixpoint disconnect_loop (sid : string) (entries : list (string * list UserData))
    (au : ActiveUsers) : ActiveUsers * list Effect :=
  match entries with
  | [] => (au, [])
  | (roomId, users) :: rest =>
      let (au1, e1) := disconnect_room sid roomId users au in
      let (au2, e2) := disconnect_loop sid rest au1 in
      (au2, e1 ++ e2)
  end.

Definition disconnect (sid : string) (au : ActiveUsers) : ActiveUsers * list Effect :=
  disconnect_loop sid au au.

End ServerSocket.

(** ** REST join routes *)

Record Response : Type := mkResponse {
  status : nat;
  message : string
}.

(** [password !== room.password] for a supplied password that is truthy. *)
Definition differs (supplied : option string) (stored : option string) : bool :=
  match supplied, stored with
  | Some a, Some b => negb (String.eqb a b)
  | None, None => false
  | _, _ => true
  end.

(** [!password || password !== room.password] *)
Definition wrongPassword (supplied : option string) (room : Room) : bool :=
  negb (Js.truthy_opt supplied) || differs supplied (password room).

(** ** The other REST routes: results and helpers *)

Definition with_sharedWith (ss : list Share) (r : Room) : Room :=
  mkRoom (room_id r) (owner r) (isPrivate r) (password r) (participants r) ss
         (code r) (language r) (lastActivity r).

(** [populate(path)]: a reference to a user that is not in the store
    reads as [null] afterwards. *)
Definition populate (d : Db) (ref : UserRef) : UserRef :=
  match ref with
  | Some u =>
      match User_findById u d with
      | Some _ => Some u
      | None => None
      end
  | None => None
  end.

(** [response.ok]: the status is in the range 200-299. *)
Definition status_ok (st : nat) : bool := Nat.leb 200 st && Nat.leb st 299.

(** What [GET /:id] answers: the room document, or a refusal with its
    status, its message and the [passwordRequired] flag of the body. *)
Inductive RoomAnswer : Type :=
| SendRoom (room : Room)
| Refuse (st : nat) (msg : string) (passwordRequired : bool).

Definition answer_status (a : RoomAnswer) : nat :=
  match a with
  | SendRoom _ => 200
  | Refuse st _ _ => st
  end.

(** [checkResponse.status === 403] and [errorData.passwordRequired]. *)
Definition asks_password (a : RoomAnswer) : bool :=
  match a with
  | SendRoom _ => false
  | Refuse st _ flag => Nat.eqb st 403 && flag
  end.

(** What [POST /:id/share] answers: a refusal, the count of users that
    were added, or the failure reported by the [catch] clause. *)
Inductive ShareAnswer : Type :=
| ShareRefused (r : Response)
| Shared (newUsers : nat)
| ShareFailed.

(** [room.sharedWith.map(share => share.user.toString())]: a [null]
    reference makes [toString] throw ([None]). *)
Fixpoint sharedUserIds (refs : list UserRef) : option (list string) :=
  match refs with
  | [] => Some []
  | None :: _ => None
  | Some u :: rest =>
      match sharedUserIds rest with
      | Some ids => Some (u :: ids)
      | None => None
      end
  end.

(** [ids.includes(id)] *)
Definition includes (ids : list string) (id : string) : bool :=
  existsb (String.eqb id) ids.

(** The part of the share route that both revisions have: [userIds] is
    [req.body.userIds] when it is an array ([None] otherwise), [me] is
    [req.user.id]. *)
Definition share_room (me roomId : string) (userIds : option (list string))
    (now : Z) (d : Db) : ShareAnswer * Db :=
  match userIds with
  | None | Some [] =>
      (ShareRefused (mkResponse 400 "Please provide valid user IDs to share with"), d)
  | Some ids =>
      match Room_findById roomId d with
      | None => (ShareRefused (mkResponse 404 "Room not found"), d)
      | Some room =>
          if negb (String.eqb (owner room) me) then
            (ShareRefused (mkResponse 403 "Only the room owner can share this room"), d)
          else
            match sharedUserIds (map s_user (sharedWith room)) with
            | None => (ShareFailed, d)
            | Some existingSharedUserIds =>
                let newUserIds :=
                  List.filter (fun id => negb (includes existingSharedUserIds id)) ids in
                let shares :=
                  sharedWith room ++ map (fun u => mkShare (Some u) now) newUserIds in
                (Shared (length newUserIds),
                 Room_update roomId (with_sharedWith shares) d)
            end
      end
  end.

(** [POST /:id/join] of [server/routes/room.js]. *)
Module ServerRoutes.

(** [req_user] is [req.user.id] as the authentication middleware left it
    ([None] when there is no authenticated user); [supplied] is
    [req.body.password]. *)
Definition join (req_user : option string) (roomId : string)
    (supplied : option string) (now : Z) (d : Db) : Response * Db :=
  match req_user with
  | None => (mkResponse 401 "User not authenticated properly", d)
  | Some userId =>
      if negb (Js.truthy userId) then
        (mkResponse 401 "User not authenticated properly", d)
      else
        match Room_findById roomId d with
        | None => (mkResponse 404 "Room not found", d)
        | Some room =>
            if Js.truthy_opt (password room) && negb (Js.truthy_opt supplied) then
              (mkResponse 401 "Password is required", d)
            else if Js.truthy_opt (password room) && differs supplied (password room) then
              (mkResponse 401 "Invalid room password", d)
            else if isParticipant room userId then
              (mkResponse 200 "Joined room successfully", d)
            else
              (mkResponse 200 "Joined room successfully",
               Room_update roomId
                 (fun r => with_lastActivity now
                             (with_participants
                                (participants room ++ [mkParticipant (Some userId) now]) r))
                 d)
        end
  end.

(** [GET /:id] of [server/routes/room.js].  The owner and the users of
    the participants and of the share list are populated before the
    tests; [room.owner._id] of an owner that is not in the store throws,
    and the [catch] clause answers 500. *)
Definition get (req_user : option string) (roomId : string) (d : Db) : RoomAnswer :=
  match req_user with
  | None => Refuse 401 "User not authenticated properly" false
  | Some userId =>
      if negb (Js.truthy userId) then Refuse 401 "User not authenticated properly" false
      else
        match Room_findById roomId d with
        | None => Refuse 404 "Room not found" false
        | Some room =>
            if Js.truthy_opt (password room) then
              Refuse 403 "This room requires a password to join" true
            else if isPrivate room then
              match populate d (Some (owner room)) with
              | None => Refuse 500 "Server error" false
              | Some o =>
                  let isOwner := String.eqb o userId in
                  let isParticipant :=
                    existsb (fun p => ref_is (populate d (p_user p)) userId)
                            (participants room) in
                  let isSharedWith :=
                    existsb (fun share => ref_is (populate d (s_user share)) userId)
                            (sharedWith room) in
                  if negb isOwner && negb isSharedWith && negb isParticipant then
                    Refuse 403 "You do not have access to this room" false
                  else SendRoom room
              end
            else SendRoom room
        end
  end.

(** [POST /:id/share] of [server/routes/room.js]. *)
Definition share (req_user : option string) (roomId : string)
    (userIds : option (list string)) (now : Z) (d : Db) : ShareAnswer * Db :=
  match req_user with
  | None => (ShareRefused (mkResponse 401 "User not authenticated properly"), d)
  | Some me =>
      if negb (Js.truthy me) then
        (ShareRefused (mkResponse 401 "User not authenticated properly"), d)
      else share_room me roomId userIds now d
  end.

End ServerRoutes.

(** [POST /:id/join] of the revision of [routes/room.js] kept with [Hub]. *)
Module HubRoutes.

(** [refs.some(x => x.user.toString() === userId)]: a [null] reference
    met before a match makes [toString] throw ([None]). *)
Fixpoint some_is (refs : list UserRef) (userId : string) : option bool :=
  match refs with
  | [] => Some false
  | None :: _ => None
  | Some u :: rest => if String.eqb u userId then Some true else some_is rest userId
  end.

Definition serverError : Response := mkResponse 500 "Server error".

Definition join (userId roomId : string) (supplied : option string) (now : Z)
    (d : Db) : Response * Db :=
  match Room_findById roomId d with
  | None => (mkResponse 404 "Room not found", d)
  | Some room =>
      let private_gate : option bool :=
        if isPrivate room then
          match some_is (map s_user (sharedWith room)) userId with
          | None => None
          | Some shared =>
              Some (negb (isOwner room userId) && negb shared
                    && wrongPassword supplied room)
          end
        else Some false in
      match private_gate with
      | None => (serverError, d)
      | Some true => (mkResponse 401 "Invalid room password", d)
      | Some false =>
          if negb (isPrivate room) && Js.truthy_opt (password room)
             && wrongPassword supplied room then
            (mkResponse 401 "Invalid room password", d)
          else
            match some_is (map p_user (participants room)) userId with
            | None => (serverError, d)
            | Some true => (mkResponse 200 "Joined room successfully", d)
            | Some false =>
                (mkResponse 200 "Joined room successfully",
                 Room_update roomId
                   (fun r => with_lastActivity now
                               (with_participants
                                  (participants room ++ [mkParticipant (Some userId) now]) r))
                   d)
            end
      end
  end.

(** [POST /:id/share] of this revision: no test of [req.user]. *)
Definition share (userId roomId : string) (userIds : option (list string))
    (now : Z) (d : Db) : ShareAnswer * Db :=
  share_room userId roomId userIds now d.

End HubRoutes.

(** ** Client: [WebSocketService] *)

Module WebSocketService.

Inductive Sent : Type :=
| SentJoinRoom (roomId userId : string) (password : option string)
| SentLeaveRoom (roomId userId : string).

(** [socket] is [None] for [null], otherwise its [connected] flag. *)
Record t : Type := mk {
  socket : option bool;
  joinedRooms : gset string;
  sent : list Sent
}.

Definition joinRoom (roomId userId : string) (password : option string) (s : t) : t :=
  match socket s with
  | None => s
  | Some _ =>
      if negb (Js.truthy roomId) || negb (Js.truthy userId) then s
      else if bool_decide (roomId ∈ joinedRooms s) then s
      else mk (socket s) ({[roomId]} ∪ joinedRooms s)
              (sent s ++ [SentJoinRoom roomId userId password])
  end.

Definition leaveRoom (roomId userId : string) (s : t) : t :=
  match socket s with
  | Some true =>
      if negb (Js.truthy roomId) || negb (Js.truthy userId) then s
      else mk (socket s) (joinedRooms s ∖ {[roomId]})
              (sent s ++ [SentLeaveRoom roomId userId])
  | _ => mk (socket s) (joinedRooms s ∖ {[roomId]}) (sent s)
  end.

Definition hasJoinedRoom (roomId : string) (s : t) : bool :=
  bool_decide (roomId ∈ joinedRooms s).

(** The [joinRoom] messages sent for a room. *)
Definition joinsSent (roomId : string) (s : t) : list Sent :=
  List.filter (fun m =>
                 match m with
                 | SentJoinRoom r _ _ => String.eqb r roomId
                 | SentLeaveRoom _ _ => false
                 end) (sent s).

(** [cleanupSocket()].  [rooms] lists [joinedRooms] in the order in
    which [forEach] visits the set; the [leaveRoom] messages of the
    cleanup carry a room id and no user id. *)
Definition cleanupSocket (rooms : list string) (s : t) : t :=
  match socket s with
  | Some true =>
      mk None (joinedRooms s)
         (sent s ++ map (fun roomId => SentLeaveRoom roomId EmptyString) rooms)
  | Some false => mk None (joinedRooms s) (sent s)
  | None => s
  end.

(** [reconnect(token)]: after the cleanup, [connect] finds no socket and
    no connection in progress and makes a new socket, which is not
    connected yet.  [joinedRooms] is not cleared. *)
Definition reconnect (rooms : list string) (s : t) : t :=
  let s1 := cleanupSocket rooms s in
  mk (Some false) (joinedRooms s1) (sent s1).

(** [disconnect()] *)
Definition disconnect (rooms : list string) (s : t) : t :=
  let s1 := cleanupSocket rooms s in
  mk (socket s1) ∅ (sent s1).

(** The socket's [connect] event. *)
Definition onConnect (s : t) : t :=
  match socket s with
  | Some _ => mk (Some true) (joinedRooms s) (sent s)
  | None => s
  end.

(** The [roomData] listener: [room._id] is recorded when it is there. *)
Definition onRoomData (roomId : string) (s : t) : t :=
  if Js.truthy roomId then mk (socket s) ({[roomId]} ∪ joinedRooms s) (sent s)
  else s.

(** Calls of the two public methods, and a sequence of them. *)
Inductive Call : Type :=
| CallJoin (roomId userId : string) (password : option string)
| CallLeave (roomId userId : string).

Definition call (c : Call) (s : t) : t :=
  match c with
  | CallJoin roomId userId password => joinRoom roomId userId password s
  | CallLeave roomId userId => leaveRoom roomId userId s
  end.

Definition calls (cs : list Call) (s : t) : t :=
  fold_left (fun acc c => call c acc) cs s.

(** Reading a log of messages from the start: whether the hub has the
    socket in the room at the end, when [b] says whether it had it at
    the start. *)
Fixpoint joined_after (roomId : string) (b : bool) (log : list Sent) : bool :=
  match log with
  | [] => b
  | SentJoinRoom r _ _ :: rest =>
      joined_after roomId (if String.eqb r roomId then true else b) rest
  | SentLeaveRoom r _ :: rest =>
      joined_after roomId (if String.eqb r roomId then false else b) rest
  end.

(** No [joinRoom] for the room is in the log at a point where the room
    is joined already. *)
Fixpoint no_double_join (roomId : string) (b : bool) (log : list Sent) : bool :=
  match log with
  | [] => true
  | SentJoinRoom r _ _ :: rest =>
      if String.eqb r roomId then negb b && no_double_join roomId true rest
      else no_double_join roomId b rest
  | SentLeaveRoom r _ :: rest =>
      no_double_join roomId (if String.eqb r roomId then false else b) rest
  end.

End WebSocketService.

(** ** Client: the [useRoomAccess] hook

    [joinRoom] up to its first [await], and what it does with the answers
    to its two requests.  The hook's state variables are read as they are
    when the call is made.  The attempt timer and its retries are left
    out. *)

Module UseRoomAccess.

Inductive Request : Type :=
| CheckAccess (roomId : string)
| JoinWithPassword (roomId password : string).

Inductive Notice : Type :=
| AuthenticationRequired
| PasswordRequired
| RoomJoined (roomId : string)
| JoinFailed.

(** [controllers] counts the [AbortController]s made so far, so that the
    next one is new; [aborted] holds those whose [abort()] was called;
    [requests] logs every [fetch], with the controller whose signal it
    carries; [onceConnect] holds the joins that wait for the socket's
    [connect] event. *)
Record State : Type := mkState {
  loading : bool;
  joinInProgress : bool;
  lastJoinedRoom : option (string * option string);
  abortController : option nat;
  controllers : nat;
  aborted : gset nat;
  requests : list (nat * Request);
  notices : list Notice;
  onceConnect : list (string * string * option string);
  wsService : WebSocketService.t
}.

Definition initial (ws : WebSocketService.t) : State :=
  mkState false false None None 0 ∅ [] [] [] ws.

(** [joinRoom(roomId, password)], with [token] and [user?.id] from the
    authentication context. *)
Definition joinRoom (token userId : option string) (roomId : string)
    (password : option string) (st : State) : State :=
  if negb (Js.truthy_opt token) || negb (Js.truthy_opt userId) then
    mkState (loading st) (joinInProgress st) (lastJoinedRoom st)
            (abortController st) (controllers st) (aborted st) (requests st)
            (notices st ++ [AuthenticationRequired]) (onceConnect st) (wsService st)
  else if joinInProgress st then st
  else
    let stopped :=
      match abortController st with
      | Some c => {[c]} ∪ aborted st
      | None => aborted st
      end in
    let c := controllers st in
    mkState true true (Some (roomId, password)) (Some c) (S c) stopped
            (requests st ++ [(c, CheckAccess roomId)]) (notices st)
            (onceConnect st) (wsService st).

Definition finish (n : Notice) (ws : WebSocketService.t) (st : State) : State :=
  mkState false false (lastJoinedRoom st) (abortController st) (controllers st)
          (aborted st) (requests st) (notices st ++ [n]) (onceConnect st) ws.

(** [ensureConnection(token)] then either the join at once or the
    [once('connect')] listener.  [sentPassword] is what the branch passes
    to [wsInstance.joinRoom] when the socket is already connected. *)
Definition joinSocket (userId roomId : string) (sentPassword password : option string)
    (st : State) : State :=
  match WebSocketService.socket (wsService st) with
  | Some true =>
      finish (RoomJoined roomId)
             (WebSocketService.joinRoom roomId userId sentPassword (wsService st)) st
  | _ =>
      mkState (loading st) (joinInProgress st) (lastJoinedRoom st)
              (abortController st) (controllers st) (aborted st) (requests st)
              (notices st) (onceConnect st ++ [(roomId, userId, password)])
              (WebSocketService.mk (Some false)
                 (WebSocketService.joinedRooms (wsService st))
                 (WebSocketService.sent (wsService st)))
  end.

(** The answer to the access check made under controller [c].  [ok] is
    [checkResponse.ok]; [passwordRequired] says that the status is 403 and
    the body carries the flag. *)
Definition onCheckResponse (c : nat) (ok passwordRequired : bool)
    (userId roomId : string) (password : option string) (st : State) : State :=
  if bool_decide (c ∈ aborted st) then st
  else if ok then joinSocket userId roomId None password st
  else if passwordRequired && negb (Js.truthy_opt password) then
    finish PasswordRequired (wsService st) st
  else if Js.truthy_opt password then
    mkState (loading st) (joinInProgress st) (lastJoinedRoom st)
            (abortController st) (controllers st) (aborted st)
            (requests st ++ [(c, JoinWithPassword roomId (default EmptyString password))])
            (notices st) (onceConnect st) (wsService st)
  else finish JoinFailed (wsService st) st.

(** The answer to [POST rooms/:id/join]. *)
Definition onJoinResponse (c : nat) (ok : bool) (userId roomId : string)
    (password : option string) (st : State) : State :=
  if bool_decide (c ∈ aborted st) then st
  else if ok then joinSocket userId roomId password password st
  else finish JoinFailed (wsService st) st.

(** The socket's [connect] event: the waiting joins run. *)
Definition onConnect (st : State) : State :=
  fold_left
    (fun acc '(roomId, userId, password) =>
       finish (RoomJoined roomId)
              (WebSocketService.joinRoom roomId userId password (wsService acc)) acc)
    (onceConnect st)
    (mkState (loading st) (joinInProgress st) (lastJoinedRoom st)
             (abortController st) (controllers st) (aborted st) (requests st)
             (notices st) []
             (WebSocketService.mk (Some true)
                (WebSocketService.joinedRooms (wsService st))
                (WebSocketService.sent (wsService st)))).

Definition checksSent (roomId : string) (st : State) : list (nat * Request) :=
  List.filter (fun r =>
                 match snd r with
                 | CheckAccess x => String.eqb x roomId
                 | JoinWithPassword _ _ => false
                 end) (requests st).

End UseRoomAccess.

(** ** Client: the peer-connection handlers of [VideoChat]

    One [State] is one participant's component state.  The handlers run
    one after the other, each on the state the previous one left. *)

Module VideoChat.

(** What the handlers read and change of an [RTCPeerConnection].
    [remoteDescription] is [Some] once a description (which then has a
    type) was applied; [remoteCandidates] are the candidates that
    [addIceCandidate] accepted, in order. *)
Record PeerConnection : Type := mkPC {
  remoteDescription : option string;
  localDescription : option string;
  remoteCandidates : list string;
  closed : bool
}.

Definition newPC : PeerConnection := mkPC None None [] false.

(** A connection after [setLocalDescription]. *)
Definition with_local (l : option string) (pc : PeerConnection) : PeerConnection :=
  mkPC (remoteDescription pc) l (remoteCandidates pc) (closed pc).

Inductive Sent : Type :=
| SentOffer (target sdp : string)
| SentAnswer (target sdp : string)
| SentRetryConnection (targetId : string).

Record State : Type := mkState {
  socketId : string;
  userId : string;
  peerConnections : gmap string PeerConnection;
  iceCandidatesBuffer : gmap string (list string);
  connectionStatus : gmap string string;
  sent : list Sent
}.

Definition set_pcs (pcs : gmap string PeerConnection) (st : State) : State :=
  mkState (socketId st) (userId st) pcs (iceCandidatesBuffer st)
          (connectionStatus st) (sent st).

Definition set_buffer (b : gmap string (list string)) (st : State) : State :=
  mkState (socketId st) (userId st) (peerConnections st) b
          (connectionStatus st) (sent st).

Definition set_status (remote status : string) (st : State) : State :=
  mkState (socketId st) (userId st) (peerConnections st) (iceCandidatesBuffer st)
          (<[remote := status]> (connectionStatus st)) (sent st).

Definition emit (m : Sent) (st : State) : State :=
  mkState (socketId st) (userId st) (peerConnections st) (iceCandidatesBuffer st)
          (connectionStatus st) (sent st ++ [m]).

Section Browser.

(** The WebRTC implementation: which descriptions and candidates it
    accepts, the offer it creates, and the answer it creates to an offer. *)
Variable sdp_ok : string -> bool.
Variable candidate_ok : string -> bool.
Variable localOffer : string.
Variable createAnswer : string -> string.

(** [pc.setRemoteDescription(sdp)]; [None] when it throws. *)
Definition setRemoteDescription (sdp : string) (pc : PeerConnection)
    : option PeerConnection :=
  if sdp_ok sdp && negb (closed pc) then
    Some (mkPC (Some sdp) (localDescription pc) (remoteCandidates pc) (closed pc))
  else None.

(** [try { await pc.addIceCandidate(c) } catch { log }] *)
Definition addIceCandidate (c : string) (pc : PeerConnection) : PeerConnection :=
  match remoteDescription pc with
  | Some _ =>
      if candidate_ok c && negb (closed pc) then
        mkPC (remoteDescription pc) (localDescription pc)
             (remoteCandidates pc ++ [c]) (closed pc)
      else pc
  | None => pc
  end.

(** [createOffer().then(setLocalDescription).then(emit offer)] on the
    connection kept for [remote]; a closed connection rejects. *)
Definition sendOffer (remote : string) (st : State) : State :=
  match peerConnections st !! remote with
  | Some pc =>
      if closed pc then st
      else
        emit (SentOffer remote localOffer)
             (set_pcs (<[remote := mkPC (remoteDescription pc) (Some localOffer)
                                       (remoteCandidates pc) (closed pc)]>
                         (peerConnections st)) st)
  | None => st
  end.

(** [createPeerConnection(remoteUserId)], called where the component has
    its socket, its local stream and its user. *)
Definition createPeerConnection (remote : string) (st : State) : State :=
  match peerConnections st !! remote with
  | Some _ => st
  | None =>
      let st1 := set_pcs (<[remote := newPC]> (peerConnections st)) st in
      let st2 := if Js.lt (socketId st) remote then sendOffer remote st1 else st1 in
      set_status remote "new" st2
  end.

(** [pc.onnegotiationneeded] of the connection kept for [remote]. *)
Definition onnegotiationneeded (remote : string) (st : State) : State :=
  if Js.lt (socketId st) remote then sendOffer remote st else st.

Definition closePC (remote : string) (st : State) : State :=
  match peerConnections st !! remote with
  | Some pc =>
      set_pcs (<[remote := mkPC (remoteDescription pc) (localDescription pc)
                                (remoteCandidates pc) true]> (peerConnections st)) st
  | None => st
  end.

Definition handleReconnectPeers (fromSocketId : string) (st : State) : State :=
  if negb (String.eqb fromSocketId (socketId st)) then
    let st1 := createPeerConnection fromSocketId (closePC fromSocketId st) in
    if Js.lt (socketId st) fromSocketId then sendOffer fromSocketId st1 else st1
  else st.

Definition handleConnectionRetry (sender : string) (st : State) : State :=
  createPeerConnection sender
    (set_pcs (delete sender (peerConnections st)) (closePC sender st)).

(** The [streamReady] handler renegotiates without looking at the ids. *)
Definition handleStreamReady (remoteUser : string) (st : State) : State :=
  if negb (String.eqb remoteUser (userId st)) then
    match peerConnections st !! remoteUser with
    | Some _ => sendOffer remoteUser st
    | None => createPeerConnection remoteUser st
    end
  else st.

(** The replay loop of [handleOffer] and [handleAnswer]. *)
Definition replay (cs : list string) (pc : PeerConnection) : PeerConnection :=
  fold_left (fun acc c => addIceCandidate c acc) cs pc.

Definition buffered (sender : string) (st : State) : list string :=
  default [] (iceCandidatesBuffer st !! sender).

Definition handleIceCandidate (target sender candidate : string) (st : State) : State :=
  if String.eqb target (socketId st) then
    match peerConnections st !! sender with
    | Some pc =>
        match remoteDescription pc with
        | Some _ =>
            set_pcs (<[sender := addIceCandidate candidate pc]> (peerConnections st)) st
        | None =>
            set_buffer (<[sender := buffered sender st ++ [candidate]]>
                          (iceCandidatesBuffer st)) st
        end
    | None =>
        set_buffer (<[sender := buffered sender st ++ [candidate]]>
                      (iceCandidatesBuffer st)) st
    end
  else st.

Definition handleOffer (target sender sdp : string) (st : State) : State :=
  if String.eqb target (socketId st) then
    let st1 := createPeerConnection sender st in
    match peerConnections st1 !! sender with
    | None => st1
    | Some pc =>
        match setRemoteDescription sdp pc with
        | None => set_status sender "failed" st1
        | Some pc1 =>
            let pc2 := replay (buffered sender st1) pc1 in
            let answer := createAnswer sdp in
            let pc3 := mkPC (remoteDescription pc2) (Some answer)
                            (remoteCandidates pc2) (closed pc2) in
            set_status sender "connecting"
              (emit (SentAnswer sender answer)
                 (set_buffer (delete sender (iceCandidatesBuffer st1))
                    (set_pcs (<[sender := pc3]> (peerConnections st1)) st1)))
        end
    end
  else st.

Definition handleAnswer (target sender sdp : string) (st : State) : State :=
  if String.eqb target (socketId st) then
    match peerConnections st !! sender with
    | None => st
    | Some pc =>
        match setRemoteDescription sdp pc with
        | None => set_status sender "failed" st
        | Some pc1 =>
            let pc2 := replay (buffered sender st) pc1 in
            set_status sender "connected"
              (set_buffer (delete sender (iceCandidatesBuffer st))
                 (set_pcs (<[sender := pc2]> (peerConnections st)) st))
        end
    end
  else st.

(** Candidates from one sender, handled in arrival order. *)
Definition handleIceCandidates (target sender : string) (cs : list string)
    (st : State) : State :=
  fold_left (fun acc c => handleIceCandidate target sender c acc) cs st.

(** The occasions on which negotiation becomes needed. *)
Inductive Trigger : Type :=
| InitialCreation
| NegotiationNeeded
| ReconnectRequest
| RetryRequest.

Definition negotiate (t : Trigger) (remote : string) (st : State) : State :=
  match t with
  | InitialCreation => createPeerConnection remote st
  | NegotiationNeeded => onnegotiationneeded remote st
  | ReconnectRequest => handleReconnectPeers remote st
  | RetryRequest => handleConnectionRetry remote st
  end.

(** [handleUserJoined]: [user] is [data.user.id], when [data.user] is
    there. *)
Definition handleUserJoined (user : option string) (st : State) : State :=
  match user with
  | Some u =>
      if negb (String.eqb u (userId st)) && negb (String.eqb u (socketId st)) then
        createPeerConnection u st
      else st
  | None => st
  end.

(** [handleUserLeft]: the connection is closed and the user's entries
    are deleted, when there is a connection. *)
Definition handleUserLeft (user : option string) (st : State) : State :=
  match user with
  | Some u =>
      if Js.truthy u then
        match peerConnections st !! u with
        | Some _ =>
            mkState (socketId st) (userId st) (delete u (peerConnections st))
                    (delete u (iceCandidatesBuffer st))
                    (delete u (connectionStatus st)) (sent st)
        | None => st
        end
      else st
  | None => st
  end.

End Browser.

(** The state in which a trigger can occur and lead to an offer: a
    connection is created where there is none, and negotiation is needed
    on a connection that exists and is open. *)
Definition can_negotiate (t : Trigger) (remote : string) (st : State) : Prop :=
  match t with
  | InitialCreation | ReconnectRequest => peerConnections st !! remote = None
  | NegotiationNeeded =>
      exists pc, peerConnections st !! remote = Some pc /\ closed pc = false
  | RetryRequest => True
  end.

(** No connection to [sender], or one that has no remote description
    yet and is open. *)
Definition awaits_description (sender : string) (st : State) : Prop :=
  match peerConnections st !! sender with
  | Some pc => remoteDescription pc = None /\ closed pc = false
  | None => True
  end.

(** The candidates already added on the connection to [sender]. *)
Definition prior (sender : string) (st : State) : list string :=
  match peerConnections st !! sender with
  | Some pc => remoteCandidates pc
  | None => []
  end.

(** The offers among the messages sent to [target]. *)
Definition offersTo (target : string) (st : State) : list Sent :=
  List.filter (fun m =>
                 match m with
                 | SentOffer t _ => String.eqb t target
                 | _ => false
                 end) (sent st).

End VideoChat.

(** ** A small deployment used in the examples

    Room [r1] is private, has password [p1] and owner [u1] (who is its
    first participant, as [POST /] creates it); [r2] is an open room. *)

Module Scenario.

Definition alice : User := mkUser "u1" "alice" "alice.png" None None.
Definition bob : User := mkUser "u2" "bob" "bob.png" None None.

Definition r1 : Room :=
  mkRoom "r1" "u1" true (Some "p1") [mkParticipant (Some "u1") 0] []
         EmptyString "javascript" 0.

Definition r2 : Room :=
  mkRoom "r2" "u1" false None [mkParticipant (Some "u1") 0] []
         EmptyString "javascript" 0.

Definition store : Db := mkDb [r1; r2] [alice; bob].

Definition idle : Hub.State := Hub.mkState [] ∅ [] 0 ∅ store.

Definition join (roomId userId : string) (password : option string) : Hub.JoinPayload :=
  Hub.mkJoinPayload roomId userId password.

(** The entry the hub keeps for a user of the scenario on socket [sid]. *)
Definition entry (u : User) (sid : string) (creator : bool) : UserData :=
  mkUserData (user_id u) sid (username u) (avatar u) EmptyString EmptyString creator.

End Scenario.

(** A room with three entries: one of [u1] and two, on different
    sockets, of [u2]. *)
Module TwoTabs.

Definition users : list UserData :=
  [Scenario.entry Scenario.alice "s0" true;
   Scenario.entry Scenario.bob "s1" false;
   Scenario.entry Scenario.bob "s2" false].

Definition state : Hub.State :=
  Hub.mkState [("r2", users)] ∅ [] 0 ∅ Scenario.store.

End TwoTabs.

(** ** Vocabulary of the claims on the relay and on the debounced writer *)

Module Relay.
Import Hub.

(** The four relayed negotiation messages. *)
Inductive Relayed : Type :=
| Offer (data : SignalData)
| Answer (data : SignalData)
| IceCandidate (data : SignalData)
| RetryRequest (targetId roomId : string).

Definition to_input (m : Relayed) : Input :=
  match m with
  | Offer d => InOffer d
  | Answer d => InAnswer d
  | IceCandidate d => InIceCandidate d
  | RetryRequest targetId roomId => InRetryConnection targetId roomId
  end.

Definition target (m : Relayed) : string :=
  match m with
  | Offer d | Answer d | IceCandidate d => sd_target d
  | RetryRequest targetId _ => targetId
  end.

Definition room (m : Relayed) : string :=
  match m with
  | Offer d | Answer d | IceCandidate d => sd_roomId d
  | RetryRequest _ roomId => roomId
  end.

(** The [sender] field of a forwarded event. *)
Definition sender_of (e : Event) : option string :=
  match e with
  | EvOffer d | EvAnswer d | EvIceCandidate d => sd_sender d
  | EvConnectionRetry sender _ => Some sender
  | _ => None
  end.

(** What the event carries besides its sender. *)
Definition content_of (e : Event) : option (string * string * string) :=
  match e with
  | EvOffer d | EvAnswer d | EvIceCandidate d =>
      Some (sd_roomId d, sd_target d, sd_body d)
  | EvConnectionRetry _ roomId => Some (roomId, EmptyString, EmptyString)
  | _ => None
  end.

(** The events that connection [c] receives from the effects of a handler
    run for socket [sid]. *)
Definition delivered (c sid : string) (a : Adapter) (effs : list Effect) : list Event :=
  flat_map (fun e =>
              match e with
              | Emit d ev => if bool_decide (c ∈ recipients sid d a) then [ev] else []
              | Write _ => []
              end) effs.

End Relay.

Module Debounce.
Import Hub.

(** One [codeChange] event on the room under study. *)
Record Change : Type := mkChange {
  ch_time : Z;
  ch_sid : string;
  ch_code : string;
  ch_language : string
}.

Definition arrivals (roomId : string) (cs : list Change) : list Arrival :=
  map (fun c => mkArrival (ch_time c) (ch_sid c)
                          (InCodeChange roomId (ch_code c) (ch_language c))) cs.

(** Every change comes less than the quiet window after the one before
    it (the first of [cs] after time [t]). *)
Fixpoint within_window (t : Z) (cs : list Change) : Prop :=
  match cs with
  | [] => True
  | c :: rest =>
      (t <= ch_time c < t + quietWindow)%Z /\ within_window (ch_time c) rest
  end.

(** A write is pending for the room, scheduled by a change made at [t]. *)
Definition armed (roomId : string) (c : Change) (st : State) : Prop :=
  exists tid,
    timers st = [mkTimer tid (ch_time c + quietWindow) roomId (ch_code c) (ch_language c)]
    /\ saveTimeouts st !! roomId = Some tid.

End Debounce.

(** ** Vocabulary of the further properties *)

Module Registry.
Import Presence.

(** What the presence registry looks like in the states the handlers
    produce: a [Map] with no key twice, no room with an empty array, and
    one entry per user in every array. *)
Definition inv (au : ActiveUsers) : Prop :=
  JsMap.wf au
  /\ forall r us, JsMap.get r au = Some us -> us <> [] /\ one_entry_per_user us.

(** The test of the [filter] in [leaveRoom]. *)
Definition leaving (sid userId : string) (user : UserData) : bool :=
  String.eqb (ud_id user) userId && String.eqb (ud_socketId user) sid.

End Registry.

Module Pending.
Import Hub.

(** The pending writes of a room. *)
Definition pendingFor (roomId : string) (st : State) : list Timer :=
  List.filter (fun t => String.eqb (t_roomId t) roomId) (timers st).

(** What the timer table looks like in the states the handlers produce:
    timer ids are distinct and below the next id to hand out, every
    pending write is the one [saveTimeouts] keeps for its room, and the
    id kept for a room is not the id of another room's write. *)
Definition timers_wf (st : State) : Prop :=
  (forall t, In t (timers st) -> t_id t < nextTimer st)
  /\ (forall r tid, saveTimeouts st !! r = Some tid -> tid < nextTimer st)
  /\ List.NoDup (map t_id (timers st))
  /\ (forall t, In t (timers st) -> saveTimeouts st !! t_roomId t = Some (t_id t))
  /\ (forall r tid t,
        saveTimeouts st !! r = Some tid -> In t (timers st) ->
        t_id t = tid -> t_roomId t = r).

(** The timer callback of [saveCodeToDatabase] in its two steps.  It
    issues the update of the room document and awaits it, and other
    events are handled in the meantime; when the update has completed it
    deletes the room's entry of [saveTimeouts]. *)
Definition callback_start (t : Timer) (st : State) : State * list Effect :=
  (mkState (activeUsers st) (saveTimeouts st)
           (clearTimeout (t_id t) (timers st)) (nextTimer st) (sio st)
           (Room_update (t_roomId t) (with_code (t_code t) (t_language t) (t_due t))
                        (db st)),
   [Write (SaveCode (t_roomId t) (t_code t) (t_language t) (t_due t))]).

Definition callback_finish (t : Timer) (st : State) : State :=
  mkState (activeUsers st) (delete (t_roomId t) (saveTimeouts st))
          (timers st) (nextTimer st) (sio st) (db st).

End Pending.

(** ** From the client's messages to the hub's events *)

Module Wire.

(** [socket.emit(name, payload)] on the client is [socket.on(name)] on
    the hub. *)
Definition to_input (m : WebSocketService.Sent) : Hub.Input :=
  match m with
  | WebSocketService.SentJoinRoom roomId userId password =>
      Hub.InJoinRoom (Hub.mkJoinPayload roomId userId password)
  | WebSocketService.SentLeaveRoom roomId userId => Hub.InLeaveRoom roomId userId
  end.

(** The hub handles the messages of socket [sid] one after the other. *)
Fixpoint deliver (sid : string) (now : Z) (ms : list WebSocketService.Sent)
    (st : Hub.State) : Hub.State * list Effect :=
  match ms with
  | [] => (st, [])
  | m :: rest =>
      let (st1, e1) := Hub.handle sid (to_input m) now st in
      let (st2, e2) := deliver sid now rest st1 in
      (st2, e1 ++ e2)
  end.

End Wire.

(** ** From the component's messages to the hub and back *)

Module Signal.

(** The payloads that the component emits: [sender] is its own socket
    id, [roomId] the room of the page. *)
Definition to_input (roomId me : string) (m : VideoChat.Sent) : Hub.Input :=
  match m with
  | VideoChat.SentOffer target sdp =>
      Hub.InOffer (mkSignalData roomId target (Some me) sdp)
  | VideoChat.SentAnswer target sdp =>
      Hub.InAnswer (mkSignalData roomId target (Some me) sdp)
  | VideoChat.SentRetryConnection targetId => Hub.InRetryConnection targetId roomId
  end.

(** The events that connection [c] receives when the hub handles message
    [m] of socket [me]. *)
Definition relay (roomId me : string) (m : VideoChat.Sent) (c : string)
    (now : Z) (st : Hub.State) : list Event :=
  Relay.delivered c me (Hub.sio st) (snd (Hub.handle me (to_input roomId me m) now st)).

Section Browser.
Variable sdp_ok : string -> bool.
Variable candidate_ok : string -> bool.
Variable localOffer : string.
Variable createAnswer : string -> string.

(** The listeners that the component registers on its socket. *)
Definition receive (e : Event) (st : VideoChat.State) : VideoChat.State :=
  match e with
  | EvOffer d =>
      VideoChat.handleOffer sdp_ok candidate_ok localOffer createAnswer
        (sd_target d) (Hub.or_empty (sd_sender d)) (sd_body d) st
  | EvAnswer d =>
      VideoChat.handleAnswer sdp_ok candidate_ok
        (sd_target d) (Hub.or_empty (sd_sender d)) (sd_body d) st
  | EvIceCandidate d =>
      VideoChat.handleIceCandidate candidate_ok
        (sd_target d) (Hub.or_empty (sd_sender d)) (sd_body d) st
  | EvConnectionRetry sender _ => VideoChat.handleConnectionRetry localOffer sender st
  | EvUserJoined user _ => VideoChat.handleUserJoined localOffer (Some (ud_id user)) st
  | EvUserLeft userId _ => VideoChat.handleUserLeft (Some userId) st
  | _ => st
  end.

Definition receive_all (es : list Event) (st : VideoChat.State) : VideoChat.State :=
  fold_left (fun acc e => receive e acc) es st.

End Browser.

End Signal.

(** * Properties *)

(** ** Strings and maps *)

Lemma Js_lt_asym (a b : string) : Js.lt a b = true -> Js.lt b a = false.
Proof.
  unfold Js.lt, String.ltb. rewrite (String.compare_antisym a b).
  destruct (String.compare b a); simpl; congruence.
Qed.

Lemma Js_lt_irrefl (a : string) : Js.lt a a = false.
Proof.
  destruct (Js.lt a a) eqn:E; [|reflexivity].
  pose proof (Js_lt_asym _ _ E). congruence.
Qed.

Module JsMapFacts.
Import JsMap.
Section Facts.
Context {V : Type}.
Implicit Types (m : JsMap.t V) (k : string) (v : V).

Lemma get_set_eq k v m : get k (set k v m) = Some v.
Proof.
  induction m as [|[k' v'] m IH]; simpl.
  - now rewrite String.eqb_refl.
  - destruct (String.eqb k' k) eqn:E; simpl.
    + now rewrite String.eqb_refl.
    + now rewrite E.
Qed.

Lemma get_set_ne k k' v m : k <> k' -> get k' (set k v m) = get k' m.
Proof.
  intros Hne. induction m as [|[k0 v0] m IH]; simpl.
  - apply String.eqb_neq in Hne. now rewrite Hne.
  - destruct (String.eqb k0 k) eqn:E; simpl.
    + apply String.eqb_eq in E. subst k0.
      apply String.eqb_neq in Hne. now rewrite Hne.
    + now rewrite IH.
Qed.

Lemma get_delete_eq k m : get k (delete k m) = None.
Proof.
  induction m as [|[k0 v0] m IH]; simpl; [reflexivity|].
  destruct (String.eqb k0 k) eqn:E; simpl; [exact IH|].
  now rewrite E.
Qed.

Lemma get_delete_ne k k' m : k <> k' -> get k' (delete k m) = get k' m.
Proof.
  intros Hne. induction m as [|[k0 v0] m IH]; simpl; [reflexivity|].
  destruct (String.eqb k0 k) eqn:E; simpl.
  - apply String.eqb_eq in E. subst k0.
    apply String.eqb_neq in Hne. now rewrite Hne.
  - now rewrite IH.
Qed.

Lemma keys_set_in k v m x : In x (keys (set k v m)) <-> x = k \/ In x (keys m).
Proof.
  induction m as [|[k0 v0] m IH]; simpl.
  - intuition.
  - destruct (String.eqb k0 k) eqn:E; simpl.
    + apply String.eqb_eq in E. subst k0. intuition.
    + rewrite IH. intuition.
Qed.

Lemma wf_set k v m : wf m -> wf (set k v m).
Proof.
  unfold wf. induction m as [|[k0 v0] m IH]; simpl; intros Hnd.
  - constructor; [intros Hin; inversion Hin|constructor].
  - inversion Hnd as [|? ? Hnin Hnd']; subst.
    destruct (String.eqb k0 k) eqn:E; simpl.
    + apply String.eqb_eq in E. subst k0. now constructor.
    + constructor; [|now apply IH].
      intros Hin. apply keys_set_in in Hin. destruct Hin as [->|Hin].
      * now rewrite String.eqb_refl in E.
      * contradiction.
Qed.

Lemma keys_delete_in k m x : In x (keys (delete k m)) -> In x (keys m).
Proof.
  unfold keys, delete. intros Hin. apply in_map_iff in Hin.
  destruct Hin as [kv [<- Hin]]. apply filter_In in Hin.
  apply in_map. tauto.
Qed.

Lemma wf_delete k m : wf m -> wf (delete k m).
Proof.
  unfold wf. induction m as [|[k0 v0] m IH]; simpl; intros Hnd; [constructor|].
  inversion Hnd as [|? ? Hnin Hnd']; subst.
  destruct (String.eqb k0 k); simpl; [now apply IH|].
  constructor; [|now apply IH].
  intros Hin. apply Hnin. eapply keys_delete_in. exact Hin.
Qed.

Lemma get_Some_In k v m : get k m = Some v -> In (k, v) m.
Proof.
  induction m as [|[k0 v0] m IH]; simpl; [discriminate|].
  destruct (String.eqb k0 k) eqn:E.
  - apply String.eqb_eq in E. intros [= ->]. subst. now left.
  - intros H. right. now apply IH.
Qed.

Lemma In_get_Some k v m : wf m -> In (k, v) m -> get k m = Some v.
Proof.
  unfold wf. induction m as [|[k0 v0] m IH]; simpl; intros Hnd Hin; [contradiction|].
  inversion Hnd as [|? ? Hnin Hnd']; subst.
  destruct Hin as [[= -> ->]|Hin].
  - now rewrite String.eqb_refl.
  - destruct (String.eqb k0 k) eqn:E.
    + apply String.eqb_eq in E. subst k0. exfalso. apply Hnin.
      change k with (fst (k, v)). now apply in_map.
    + now apply IH.
Qed.

End Facts.
End JsMapFacts.

Lemma User_findById_id userId d u :
User_findById userId d = Some u -> user_id u = userId.
Proof.
unfold User_findById. intros H. apply find_some in H.
now apply String.eqb_eq.
Qed.

(** ** Lists *)

Section ListFacts.
Context {A : Type}.
Implicit Types (P : A -> bool) (l : list A).

(** [find] returns the first element that passes the test. *)
Lemma find_first P l u :
  List.find P l = Some u <->
  exists l1 l2, l = l1 ++ u :: l2 /\ P u = true /\ forall v, In v l1 -> P v = false.
Proof.
  induction l as [|x l IH]; simpl.
  - split; [discriminate|]. intros (l1 & l2 & H & _). now destruct l1.
  - destruct (P x) eqn:Px.
    + split.
      * intros [= ->]. exists [], l. repeat split; auto. intros v [].
      * intros (l1 & l2 & H & Pu & Hl1). destruct l1 as [|y l1]; simpl in H.
        -- now inversion H.
        -- inversion H; subst y. rewrite (Hl1 x) in Px; [discriminate|now left].
    + rewrite IH. split.
      * intros (l1 & l2 & -> & Pu & Hl1). exists (x :: l1), l2.
        repeat split; auto. intros v [<-|Hv]; auto.
      * intros (l1 & l2 & H & Pu & Hl1). destruct l1 as [|y l1]; simpl in H.
        -- inversion H; subst. congruence.
        -- inversion H; subst. exists l1, l2. repeat split; auto.
           intros v Hv. apply Hl1. now right.
Qed.

(** On the reversed list, [find] returns the last such element. *)
Lemma find_last P l u :
  List.find P (rev l) = Some u <->
  exists l1 l2, l = l1 ++ u :: l2 /\ P u = true /\ forall v, In v l2 -> P v = false.
Proof.
  rewrite find_first. split.
  - intros (l1 & l2 & H & Pu & Hl1). exists (rev l2), (rev l1).
    repeat split; auto.
    + rewrite <- (rev_involutive l), H, rev_app_distr. simpl.
      now rewrite <- app_assoc.
    + intros v Hv. apply Hl1. now apply in_rev.
  - intros (l1 & l2 & -> & Pu & Hl2). exists (rev l2), (rev l1).
    repeat split; auto.
    + rewrite rev_app_distr. simpl. now rewrite <- app_assoc.
    + intros v Hv. apply Hl2. now apply in_rev in Hv.
Qed.

Lemma find_append P l1 l2 :
  List.find P (l1 ++ l2) =
  match List.find P l1 with
  | Some u => Some u
  | None => List.find P l2
  end.
Proof.
  induction l1 as [|x l1 IH]; simpl; [reflexivity|].
  now destruct (P x).
Qed.

Lemma find_none_iff P l :
  List.find P l = None <-> forall v, In v l -> P v = false.
Proof.
  split.
  - intros H v Hv. eapply find_none; eauto.
  - induction l as [|x l IH]; simpl; intros H; [reflexivity|].
    rewrite (H x) by now left. apply IH. intros v Hv. apply H. now right.
Qed.

Lemma last_cons l : forall (x d : A), List.last (x :: l) d = List.last l x.
Proof.
  induction l as [|y l IH]; intros x d; [reflexivity|].
  change (List.last (x :: y :: l) d) with (List.last (y :: l) d).
  now rewrite (IH y d), (IH y x).
Qed.

End ListFacts.

(** ** The de-duplicated view *)

Module PresenceFacts.
Import Presence JsMapFacts.

Lemma set_In (k : string) (v : UserData) (m : JsMap.t UserData) k' v' :
  In (k', v') (JsMap.set k v m) -> (k' = k /\ v' = v) \/ In (k', v') m.
Proof.
  induction m as [|[k0 v0] m IH]; simpl.
  - intros [[= <- <-]|[]]. now left.
  - destruct (String.eqb k0 k); simpl.
    + intros [[= <- <-]|H]; auto.
    + intros [H|H]; auto. destruct (IH H); auto.
Qed.

Lemma fold_step_wf us : forall acc, JsMap.wf acc -> JsMap.wf (fold_left step us acc).
Proof.
  induction us as [|u us IH]; simpl; intros acc Hwf; [exact Hwf|].
  apply IH. now apply wf_set.
Qed.

Lemma fold_step_keyed us : forall acc, keyed acc -> keyed (fold_left step us acc).
Proof.
  induction us as [|u us IH]; simpl; intros acc Hk; [exact Hk|].
  apply IH. intros k v Hin. apply set_In in Hin.
  destruct Hin as [[-> ->]|Hin]; [reflexivity|now apply Hk].
Qed.

Lemma fold_step_get us : forall acc k,
  JsMap.get k (fold_left step us acc) =
  match List.find (fun u => String.eqb (ud_id u) k) (rev us) with
  | Some u => Some u
  | None => JsMap.get k acc
  end.
Proof.
  induction us as [|u us IH]; simpl; intros acc k; [reflexivity|].
  rewrite IH, find_append.
  destruct (List.find _ (rev us)); [reflexivity|]. simpl. unfold step.
  destruct (String.eqb (ud_id u) k) eqn:E.
  - apply String.eqb_eq in E. subst k. apply get_set_eq.
  - apply get_set_ne. now apply String.eqb_neq.
Qed.

Lemma uniqueUsers_wf us : JsMap.wf (uniqueUsers_of us).
Proof. apply fold_step_wf. constructor. Qed.

Lemma uniqueUsers_keyed us : keyed (uniqueUsers_of us).
Proof. apply fold_step_keyed. intros k v []. Qed.

Lemma uniqueUsers_ids us :
  map ud_id (JsMap.values (uniqueUsers_of us)) = JsMap.keys (uniqueUsers_of us).
Proof.
  pose proof (uniqueUsers_keyed us) as Hk. revert Hk.
  generalize (uniqueUsers_of us). intros m.
  induction m as [|[k v] m IH]; simpl; intros Hk; [reflexivity|].
  f_equal.
  - apply Hk. now left.
  - apply IH. intros k' v' Hin. apply Hk. now right.
Qed.

(** An entry is in the view exactly when it is the last entry of its
    user in the array. *)
Lemma uniqueUsers_In us u :
  In u (JsMap.values (uniqueUsers_of us)) <->
  exists before after,
    us = before ++ u :: after /\ forall v, In v after -> ud_id v <> ud_id u.
Proof.
  assert (Hget : In u (JsMap.values (uniqueUsers_of us)) <->
                 JsMap.get (ud_id u) (uniqueUsers_of us) = Some u).
  { split.
    - intros Hin. apply in_map_iff in Hin. destruct Hin as [[k v] [Hv Hin]].
      simpl in Hv. subst v. pose proof (uniqueUsers_keyed us _ _ Hin) as <-.
      apply In_get_Some; [apply uniqueUsers_wf|exact Hin].
    - intros Hg. apply get_Some_In in Hg.
      change u with (snd (ud_id u, u)). now apply in_map. }
  rewrite Hget. unfold uniqueUsers_of. rewrite fold_step_get. simpl.
  destruct (List.find _ (rev us)) as [w|] eqn:F.
  - split.
    + intros [= ->]. apply find_last in F. destruct F as (l1 & l2 & -> & _ & Hl2).
      exists l1, l2. split; [reflexivity|]. intros v Hv.
      apply String.eqb_neq. now apply Hl2.
    + intros (l1 & l2 & Hus & Hl2). f_equal.
      assert (F' : List.find (fun x => String.eqb (ud_id x) (ud_id u)) (rev us) = Some u).
      { apply find_last. exists l1, l2. repeat split; auto.
        - apply String.eqb_refl.
        - intros v Hv. apply String.eqb_neq. now apply Hl2. }
      congruence.
  - split; [discriminate|]. intros (l1 & l2 & Hus & _). exfalso.
    rewrite find_none_iff in F. specialize (F u).
    rewrite String.eqb_refl in F. assert (In u (rev us)); [|intuition discriminate].
    apply -> in_rev. rewrite Hus. apply in_or_app. right. now left.
Qed.

End PresenceFacts.


(** The view of the room of [TwoTabs]: one entry per user, the newest. *)
Example view_keeps_newest_connection :
  Presence.getUniqueActiveUsers "r2" (Hub.activeUsers TwoTabs.state)
  = [Scenario.entry Scenario.alice "s0" true; Scenario.entry Scenario.bob "s2" false].
Proof. vm_compute. reflexivity. Qed.

(** ** Registration *)

Module RegisterFacts.
Import Presence JsMapFacts PresenceFacts.

Lemma room_entries_set roomId us (au : ActiveUsers) :
  room_entries roomId (JsMap.set roomId us au) = us.
Proof. unfold room_entries. now rewrite get_set_eq. Qed.

Lemma room_entries_set_ne roomId r us (au : ActiveUsers) :
  r <> roomId -> room_entries r (JsMap.set roomId us au) = room_entries r au.
Proof. intros Hne. unfold room_entries. rewrite get_set_ne; auto. Qed.

(** After [register] the room's array is the old one without the
    caller's entries, followed by the new entry. *)
Lemma register_entries roomId userId userData (au : ActiveUsers) :
  room_entries roomId (register roomId userId userData au) =
  List.filter (fun u => negb (String.eqb (ud_id u) userId)) (room_entries roomId au)
  ++ [userData].
Proof.
  unfold register. rewrite room_entries_set.
  unfold JsMap.has. destruct (JsMap.get roomId au) as [us|] eqn:G; simpl.
  - rewrite room_entries_set. unfold room_entries. now rewrite G.
  - rewrite room_entries_set. unfold room_entries. now rewrite G.
Qed.

Lemma register_other roomId userId userData (au : ActiveUsers) r :
  r <> roomId ->
  room_entries r (register roomId userId userData au) = room_entries r au.
Proof.
  intros Hne. unfold register. rewrite room_entries_set_ne by exact Hne.
  destruct (negb (JsMap.has roomId au)); now rewrite room_entries_set_ne.
Qed.

Lemma register_wf roomId userId userData (au : ActiveUsers) :
  JsMap.wf au -> JsMap.wf (register roomId userId userData au).
Proof.
  intros Hwf. unfold register. apply wf_set.
  destruct (negb (JsMap.has roomId au)); now apply wf_set.
Qed.

Lemma set_fresh (k : string) (v : UserData) (m : JsMap.t UserData) :
  ~ In k (JsMap.keys m) -> JsMap.set k v m = m ++ [(k, v)].
Proof.
  induction m as [|[k0 v0] m IH]; simpl; intros Hn; [reflexivity|].
  destruct (String.eqb k0 k) eqn:E.
  - apply String.eqb_eq in E. tauto.
  - f_equal. apply IH. tauto.
Qed.

Lemma fold_step_fresh us : forall acc,
  keyed acc ->
  one_entry_per_user us ->
  (forall u, In u us -> ~ In (ud_id u) (JsMap.keys acc)) ->
  JsMap.values (fold_left step us acc) = JsMap.values acc ++ us.
Proof.
  induction us as [|u us IH]; intros acc Hk Hone Hfresh.
  - simpl. now rewrite app_nil_r.
  - inversion Hone as [|? ? Hnin Hone']; subst. cbn [fold_left]. unfold step at 2.
    rewrite set_fresh by (apply Hfresh; now left).
    rewrite IH.
    + unfold JsMap.values. rewrite map_app. simpl. now rewrite <- app_assoc.
    + intros k v Hin. apply in_app_or in Hin. destruct Hin as [Hin|[[= <- <-]|[]]].
      * now apply Hk.
      * reflexivity.
    + exact Hone'.
    + intros x Hx Hin. unfold JsMap.keys in Hin. rewrite map_app in Hin.
      apply in_app_or in Hin. destruct Hin as [Hin|[Hin|[]]].
      * apply (Hfresh x); [now right|exact Hin].
      * simpl in Hin. apply Hnin. rewrite Hin. now apply in_map.
Qed.

(** Where an array holds one entry per user, the view is the array. *)
Lemma view_of_one_entry_per_user us :
  one_entry_per_user us -> JsMap.values (uniqueUsers_of us) = us.
Proof.
  intros Hone. unfold uniqueUsers_of.
  rewrite fold_step_fresh; auto. intros k v [].
Qed.

Lemma filter_one_entry_per_user (P : UserData -> bool) us :
  one_entry_per_user us -> one_entry_per_user (List.filter P us).
Proof.
  unfold one_entry_per_user. induction us as [|u us IH]; simpl; intros Hone;
    [constructor|].
  inversion Hone as [|? ? Hnin Hone']; subst.
  destruct (P u); simpl; [|now apply IH].
  constructor; [|now apply IH].
  intros Hin. apply Hnin. apply in_map_iff in Hin.
  destruct Hin as (x & Hx & Hin). apply filter_In in Hin.
  rewrite <- Hx. apply in_map. tauto.
Qed.

(** Registration keeps one entry per user in the room, when the new
    entry carries the id it is registered under (as [findById] gives). *)
Lemma register_one_entry_per_user roomId userId userData (au : ActiveUsers) :
  ud_id userData = userId ->
  one_entry_per_user (room_entries roomId au) ->
  one_entry_per_user (room_entries roomId (register roomId userId userData au)).
Proof.
  intros Hid Hone. rewrite register_entries. unfold one_entry_per_user.
  rewrite map_app. simpl. apply List.NoDup_app.
  - now apply filter_one_entry_per_user.
  - repeat constructor. intros [].
  - intros x Hin [Hx|[]]. apply in_map_iff in Hin.
    destruct Hin as (u & Hu & Hin). apply filter_In in Hin.
    destruct Hin as [_ Hne]. apply negb_true_iff, String.eqb_neq in Hne.
    congruence.
Qed.

End RegisterFacts.

(** ** The [joinRoom] handler of the hub *)

Module JoinFacts.
Import Presence Hub.

Lemma joinRoom_tail_fst roomId st sofar :
  fst (joinRoom_tail roomId st sofar) = st.
Proof. unfold joinRoom_tail. now destruct (Room_findById roomId (db st)). Qed.

Lemma joinRoom_tail_effects roomId st sofar e :
  In e sofar -> In e (snd (joinRoom_tail roomId st sofar)).
Proof.
  intros Hin. unfold joinRoom_tail.
  destruct (Room_findById roomId (db st)); simpl; apply in_or_app; now left.
Qed.

(** The tail only adds emissions to the joining socket itself. *)
Lemma joinRoom_tail_added roomId st sofar e :
  In e (snd (joinRoom_tail roomId st sofar)) ->
  In e sofar \/
  (exists room, e = Emit ToSocket (EvRoomData room)) \/
  e = Emit ToSocket EvPreviousMessages \/
  e = Emit ToSocket (EvError "Room not found") \/
  e = Emit ToSocket (EvError "Failed to join room: uniqueActiveUsers is not defined").
Proof.
  unfold joinRoom_tail.
  destruct (Room_findById roomId (db st)) as [room|]; simpl;
    intros Hin; apply in_app_or in Hin; destruct Hin as [Hin|Hin]; auto;
    simpl in Hin; intuition eauto.
Qed.

(** The handler reads [roomId] and [userId] of its payload and nothing
    else. *)
Lemma joinRoom_reads_ids sid p1 p2 now st :
  jp_roomId p1 = jp_roomId p2 -> jp_userId p1 = jp_userId p2 ->
  joinRoom sid p1 now st = joinRoom sid p2 now st.
Proof. intros Hr Hu. unfold joinRoom. now rewrite Hr, Hu. Qed.

Section Allowed_caller.
Variables (sid : string) (p : JoinPayload) (now : Z) (st : State)
          (user : User) (room : Room).
Hypothesis Hroom_id : Js.truthy (jp_roomId p) = true.
Hypothesis Huser_id : Js.truthy (jp_userId p) = true.
Hypothesis Huser : User_findById (jp_userId p) (db st) = Some user.
Hypothesis Hroom : Room_findById (jp_roomId p) (db st) = Some room.
Hypothesis Hpass : accessDenied room (jp_userId p) = false.

Let entry := mkEntry user sid room (jp_userId p).
Let au' := register (jp_roomId p) (jp_userId p) entry (activeUsers st).

Lemma joinRoom_allowed_state :
  activeUsers (fst (joinRoom sid p now st)) = au'.
Proof.
  unfold joinRoom. rewrite Hroom_id, Huser_id. simpl.
  rewrite Huser, Hroom, Hpass. rewrite joinRoom_tail_fst.
  now destruct (isParticipant room (jp_userId p)).
Qed.

(** The handlers keep one entry per user in the room. *)
Lemma joinRoom_allowed_one_entry_per_user :
  one_entry_per_user (room_entries (jp_roomId p) (activeUsers st)) ->
  one_entry_per_user
    (room_entries (jp_roomId p) (activeUsers (fst (joinRoom sid p now st)))).
Proof.
  intros Hone. rewrite joinRoom_allowed_state.
  apply RegisterFacts.register_one_entry_per_user; [|exact Hone].
  simpl. now apply (User_findById_id _ (db st)).
Qed.

Lemma joinRoom_allowed_userJoined :
  In (Emit (IoTo (jp_roomId p))
           (EvUserJoined entry (getUniqueActiveUsers (jp_roomId p) au')))
     (snd (joinRoom sid p now st)).
Proof.
  unfold joinRoom. rewrite Hroom_id, Huser_id. simpl.
  rewrite Huser, Hroom, Hpass. apply joinRoom_tail_effects.
  destruct (isParticipant room (jp_userId p)); simpl; auto.
Qed.

Lemma joinRoom_allowed_no_password_error :
  ~ In (Emit ToSocket (EvError "This room requires a password to join"))
       (snd (joinRoom sid p now st)).
Proof.
  unfold joinRoom. rewrite Hroom_id, Huser_id. simpl.
  rewrite Huser, Hroom, Hpass. intros Hin.
  apply joinRoom_tail_added in Hin.
  destruct Hin as [Hin|[[r Hin]|[Hin|[Hin|Hin]]]]; try discriminate.
  unfold updateParticipantCount in Hin. rewrite Hroom_id in Hin.
  destruct (isParticipant room (jp_userId p)); simpl in Hin;
    intuition discriminate.
Qed.

End Allowed_caller.

End JoinFacts.

(** ** Claims on registration and access *)

(** C2, as stated, fails: when a user who is registered in a room on
    socket [s1] registers again on socket [s2], the entry of [s1] is no
    longer in the room's presence array. *)
Lemma joinRoom_second_connection_drops_first :
  let st1 := fst (Hub.joinRoom "s1" (Scenario.join "r2" "u2" None) 0 Scenario.idle) in
  let st2 := fst (Hub.joinRoom "s2" (Scenario.join "r2" "u2" None) 1 st1) in
  let first := Scenario.entry Scenario.bob "s1" false in
  In first (Presence.room_entries "r2" (Hub.activeUsers st1)) /\
  ~ In first (Presence.room_entries "r2" (Hub.activeUsers st2)).
Proof.
  vm_compute. split.
  - now left.
  - intros [H|[]]. discriminate H.
Qed.

(** C2, amended: a registration that the access check lets through
    removes every entry the user already has in the room's presence array
    and appends the new entry; the entries of the other users of the room
    keep their order, and the other rooms are untouched. *)
Theorem joinRoom_replaces_own_entries
    (sid : string) (p : Hub.JoinPayload) (now : Z) (st : Hub.State)
    (user : User) (room : Room) :
  Js.truthy (Hub.jp_roomId p) = true ->
  Js.truthy (Hub.jp_userId p) = true ->
  User_findById (Hub.jp_userId p) (Hub.db st) = Some user ->
  Room_findById (Hub.jp_roomId p) (Hub.db st) = Some room ->
  Hub.accessDenied room (Hub.jp_userId p) = false ->
  let st' := fst (Hub.joinRoom sid p now st) in
  Presence.room_entries (Hub.jp_roomId p) (Hub.activeUsers st') =
    List.filter (fun u => negb (String.eqb (ud_id u) (Hub.jp_userId p)))
                (Presence.room_entries (Hub.jp_roomId p) (Hub.activeUsers st))
    ++ [Hub.mkEntry user sid room (Hub.jp_userId p)]
  /\ forall r, r <> Hub.jp_roomId p ->
       Presence.room_entries r (Hub.activeUsers st') =
       Presence.room_entries r (Hub.activeUsers st).
Proof.
  intros Hr Hu Huser Hroom Hpass st'. subst st'.
  rewrite (JoinFacts.joinRoom_allowed_state sid p now st user room) by assumption.
  split.
  - apply RegisterFacts.register_entries.
  - intros r Hne. now apply RegisterFacts.register_other.
Qed.

Lemma joinRoom_replaces_own_entries_witness :
  let p := Scenario.join "r2" "u2" None in
  let st1 := fst (Hub.joinRoom "s1" p 0 Scenario.idle) in
  let st2 := fst (Hub.joinRoom "s2" p 1 st1) in
  Presence.room_entries "r2" (Hub.activeUsers st2) =
    List.filter (fun u => negb (String.eqb (ud_id u) "u2"))
                (Presence.room_entries "r2" (Hub.activeUsers st1))
    ++ [Hub.mkEntry Scenario.bob "s2" Scenario.r2 "u2"]
  /\ forall r, r <> "r2" ->
       Presence.room_entries r (Hub.activeUsers st2) =
       Presence.room_entries r (Hub.activeUsers st1).
Proof.
  intros p st1 st2.
  apply (joinRoom_replaces_own_entries "s2" p 1 st1 Scenario.bob
           (with_participants
              (participants Scenario.r2 ++ [mkParticipant (Some "u2") 0])
              (with_lastActivity 0 Scenario.r2)));
    vm_compute; reflexivity.
Defined.

(** C1, as stated, fails on the REST join route of
    [server/routes/room.js]: the owner of [r1], who is also its first
    participant, is refused when no password comes with the request. *)
Lemma rest_join_asks_owner_for_password :
  isOwner Scenario.r1 "u1" = true /\
  isParticipant Scenario.r1 "u1" = true /\
  fst (ServerRoutes.join (Some "u1") "r1" None 5 Scenario.store)
  = mkResponse 401 "Password is required".
Proof. vm_compute. repeat split; reflexivity. Qed.

Lemma known_caller_not_denied (room : Room) (userId : string) :
  isOwner room userId = true \/ isSharedWith room userId = true
  \/ isParticipant room userId = true ->
  Hub.accessDenied room userId = false.
Proof.
  unfold Hub.accessDenied. intros [H|[H|H]]; rewrite H; simpl;
    rewrite ?andb_false_r; reflexivity.
Qed.

(** C1, amended to the hub's socket-level check: for every room that has
    a password and every caller who is its owner, on its share list or
    among its recorded participants, [joinRoom] lets the caller in
    whatever the request carries as password (nothing included): the
    caller's entry is registered in the room, [userJoined] is sent to the
    room, and the password error is not sent. *)
Theorem joinRoom_lets_known_callers_in
    (sid : string) (p : Hub.JoinPayload) (now : Z) (st : Hub.State)
    (user : User) (room : Room) :
  Js.truthy (Hub.jp_roomId p) = true ->
  Js.truthy (Hub.jp_userId p) = true ->
  User_findById (Hub.jp_userId p) (Hub.db st) = Some user ->
  Room_findById (Hub.jp_roomId p) (Hub.db st) = Some room ->
  Js.truthy_opt (password room) = true ->
  isOwner room (Hub.jp_userId p) = true
  \/ isSharedWith room (Hub.jp_userId p) = true
  \/ isParticipant room (Hub.jp_userId p) = true ->
  let entry := Hub.mkEntry user sid room (Hub.jp_userId p) in
  let st' := fst (Hub.joinRoom sid p now st) in
  let effects := snd (Hub.joinRoom sid p now st) in
  In entry (Presence.room_entries (Hub.jp_roomId p) (Hub.activeUsers st'))
  /\ In (Emit (IoTo (Hub.jp_roomId p))
              (EvUserJoined entry
                 (Presence.getUniqueActiveUsers (Hub.jp_roomId p) (Hub.activeUsers st'))))
        effects
  /\ ~ In (Emit ToSocket (EvError "This room requires a password to join")) effects.
Proof.
  intros Hr Hu Huser Hroom _ Hknown entry st' effects.
  pose proof (known_caller_not_denied _ _ Hknown) as Hpass.
  pose proof (JoinFacts.joinRoom_allowed_state sid p now st user room
                Hr Hu Huser Hroom Hpass) as Hst.
  subst st' effects. rewrite Hst. repeat split.
  - rewrite RegisterFacts.register_entries. apply in_or_app. right. now left.
  - apply (JoinFacts.joinRoom_allowed_userJoined sid p now st user room);
      assumption.
  - apply (JoinFacts.joinRoom_allowed_no_password_error sid p now st user room);
      assumption.
Qed.

Lemma joinRoom_lets_known_callers_in_witness :
  let p := Scenario.join "r1" "u1" None in
  let entry := Hub.mkEntry Scenario.alice "s1" Scenario.r1 "u1" in
  let st' := fst (Hub.joinRoom "s1" p 0 Scenario.idle) in
  let effects := snd (Hub.joinRoom "s1" p 0 Scenario.idle) in
  In entry (Presence.room_entries "r1" (Hub.activeUsers st'))
  /\ In (Emit (IoTo "r1")
              (EvUserJoined entry
                 (Presence.getUniqueActiveUsers "r1" (Hub.activeUsers st'))))
        effects
  /\ ~ In (Emit ToSocket (EvError "This room requires a password to join")) effects.
Proof.
  intros p.
  apply (joinRoom_lets_known_callers_in "s1" p 0 Scenario.idle
           Scenario.alice Scenario.r1);
    try (vm_compute; reflexivity).
  left. vm_compute. reflexivity.
Defined.

(** C10: the hub's [joinRoom] does not look at a password.  Two requests
    that agree on [roomId] and [userId] have the same outcome, whatever
    their [password] fields; and when the room is private, has a
    password, and the caller is neither its owner nor on its share list
    nor among its participants, the request is answered with the
    password error and nothing else, and the presence registry and the
    store are left as they were, even if the request carries the room's
    own password. *)
Theorem joinRoom_outcome_independent_of_password
    (sid : string) (p1 p2 : Hub.JoinPayload) (now : Z) (st : Hub.State) :
  Hub.jp_roomId p1 = Hub.jp_roomId p2 ->
  Hub.jp_userId p1 = Hub.jp_userId p2 ->
  Hub.joinRoom sid p1 now st = Hub.joinRoom sid p2 now st
  /\ forall user room,
       Js.truthy (Hub.jp_roomId p2) = true ->
       Js.truthy (Hub.jp_userId p2) = true ->
       User_findById (Hub.jp_userId p2) (Hub.db st) = Some user ->
       Room_findById (Hub.jp_roomId p2) (Hub.db st) = Some room ->
       Js.truthy_opt (password room) = true ->
       isPrivate room = true ->
       isOwner room (Hub.jp_userId p2) = false ->
       isSharedWith room (Hub.jp_userId p2) = false ->
       isParticipant room (Hub.jp_userId p2) = false ->
       Hub.jp_password p2 = password room ->
       snd (Hub.joinRoom sid p2 now st)
       = [Emit ToSocket (EvError "This room requires a password to join")]
       /\ Hub.activeUsers (fst (Hub.joinRoom sid p2 now st)) = Hub.activeUsers st
       /\ Hub.db (fst (Hub.joinRoom sid p2 now st)) = Hub.db st.
Proof.
  intros Hr Hu. split; [now apply JoinFacts.joinRoom_reads_ids|].
  intros user room Hrt Hut Huser Hroom Hpw Hpriv Ho Hs Hp _.
  unfold Hub.joinRoom. rewrite Hrt, Hut. simpl.
  rewrite Huser, Hroom. unfold Hub.accessDenied.
  rewrite Hpw, Hpriv, Ho, Hs, Hp. simpl. auto.
Qed.

Lemma joinRoom_outcome_independent_of_password_witness :
  let p1 := Scenario.join "r1" "u2" None in
  let p2 := Scenario.join "r1" "u2" (Some "p1") in
  Hub.joinRoom "s2" p1 0 Scenario.idle = Hub.joinRoom "s2" p2 0 Scenario.idle
  /\ snd (Hub.joinRoom "s2" p2 0 Scenario.idle)
     = [Emit ToSocket (EvError "This room requires a password to join")]
  /\ Hub.activeUsers (fst (Hub.joinRoom "s2" p2 0 Scenario.idle)) = []
  /\ Hub.db (fst (Hub.joinRoom "s2" p2 0 Scenario.idle)) = Scenario.store.
Proof.
  intros p1 p2.
  destruct (joinRoom_outcome_independent_of_password "s2" p1 p2 0 Scenario.idle
              eq_refl eq_refl) as [Hsame Hrefused].
  split; [exact Hsame|].
  apply (Hrefused Scenario.bob Scenario.r1); vm_compute; reflexivity.
Defined.

(** The password is checked by the REST route: with the room's password
    the caller becomes a participant, and the hub then lets them in. *)
Example rest_join_then_socket_join :
  let (response, store') := HubRoutes.join "u2" "r1" (Some "p1") 7 Scenario.store in
  response = mkResponse 200 "Joined room successfully" /\
  fst (HubRoutes.join "u2" "r1" (Some "wrong") 7 Scenario.store)
  = mkResponse 401 "Invalid room password" /\
  fst (HubRoutes.join "u2" "r1" None 7 Scenario.store)
  = mkResponse 401 "Invalid room password" /\
  Presence.room_entries "r1"
    (Hub.activeUsers
       (fst (Hub.joinRoom "s2" (Scenario.join "r1" "u2" None) 8
               (Hub.set_db store' Scenario.idle))))
  = [Scenario.entry Scenario.bob "s2" false].
Proof. vm_compute. repeat split; reflexivity. Qed.

(** The socket handler of [server/socket.js] turns a recorded participant
    of a room with a password away, where the hub's lets them in. *)
Example server_socket_denies_participant :
  let store' := snd (HubRoutes.join "u2" "r1" (Some "p1") 7 Scenario.store) in
  match Room_findById "r1" store' with
  | Some room =>
      isParticipant room "u2" = true
      /\ ServerSocket.accessDenied room "u2" = true
      /\ Hub.accessDenied room "u2" = false
  | None => False
  end.
Proof. vm_compute. repeat split; reflexivity. Qed.

(** The REST route kept with the hub lets the owner of a private room in
    without a password, but asks a recorded participant for it. *)
Example hub_rest_join_owner_and_participant :
  fst (HubRoutes.join "u1" "r1" None 7 Scenario.store)
  = mkResponse 200 "Joined room successfully" /\
  let store' := snd (HubRoutes.join "u2" "r1" (Some "p1") 7 Scenario.store) in
  fst (HubRoutes.join "u2" "r1" None 9 store')
  = mkResponse 401 "Invalid room password".
Proof. vm_compute. split; reflexivity. Qed.

(** ** Disconnection *)

Module DisconnectFacts.
Import Presence Hub JsMapFacts PresenceFacts.

Lemma view_after_set roomId us (au : ActiveUsers) :
  getUniqueActiveUsers roomId (JsMap.set roomId us au)
  = JsMap.values (uniqueUsers_of us).
Proof.
  unfold getUniqueActiveUsers, JsMap.has, room_entries.
  now rewrite get_set_eq.
Qed.

(** A user has an entry in the view exactly when they have one in the array. *)
Lemma existsb_view (d : string) us :
  existsb (fun u => String.eqb (ud_id u) d) (JsMap.values (uniqueUsers_of us))
  = existsb (fun u => String.eqb (ud_id u) d) us.
Proof.
  apply Bool.eq_iff_eq_true. rewrite !existsb_exists. split.
  - intros (x & Hin & Hx). apply uniqueUsers_In in Hin.
    destruct Hin as (l1 & l2 & -> & _). exists x. split; [|exact Hx].
    apply in_or_app. right. now left.
  - intros (x & Hin & Hx).
    destruct (List.find (fun u => String.eqb (ud_id u) d) (rev us)) as [w|] eqn:F.
    + apply find_last in F. destruct F as (l1 & l2 & Hus & Hw & Hl2).
      exists w. split; [|exact Hw]. apply uniqueUsers_In.
      exists l1, l2. split; [exact Hus|]. intros v Hv.
      apply String.eqb_eq in Hw. rewrite Hw. apply String.eqb_neq. now apply Hl2.
    + rewrite find_none_iff in F. rewrite (F x) in Hx; [discriminate|].
      now apply -> in_rev.
Qed.

Lemma userLeftIn_app r e1 e2 :
  userLeftIn r (e1 ++ e2) = userLeftIn r e1 ++ userLeftIn r e2.
Proof. unfold userLeftIn. apply flat_map_app. Qed.

Lemma userLeftIn_count r roomId au :
  userLeftIn r (updateParticipantCount roomId au) = [].
Proof.
  unfold updateParticipantCount. now destruct (negb (Js.truthy roomId)).
Qed.

(** The [userLeft] events of one round of the loop. *)
Lemma disconnect_room_userLeft sid r roomId users au :
  userLeftIn r (snd (disconnect_room sid roomId users au)) =
  if String.eqb roomId r then
    match List.find (on_socket sid) users with
    | Some du =>
        if nonempty (List.filter (stays sid) users)
           && negb (existsb (fun u => String.eqb (ud_id u) (ud_id du))
                            (List.filter (stays sid) users))
        then [ud_id du] else []
    | None => []
    end
  else [].
Proof.
  unfold disconnect_room.
  destruct (List.find (on_socket sid) users) as [du|]; simpl.
  2: now destruct (String.eqb roomId r).
  destruct (nonempty (List.filter (stays sid) users)); simpl.
  2: now destruct (String.eqb roomId r).
  rewrite userLeftIn_app, userLeftIn_count, app_nil_r.
  rewrite view_after_set, existsb_view.
  destruct (existsb _ (List.filter (stays sid) users)); simpl.
  - now destruct (String.eqb roomId r).
  - now destruct (String.eqb roomId r).
Qed.

(** The entry of a room after one round of the loop. *)
Lemma disconnect_room_get sid r roomId users au :
  JsMap.get r (fst (disconnect_room sid roomId users au)) =
  if String.eqb roomId r then
    match List.find (on_socket sid) users with
    | Some _ =>
        if nonempty (List.filter (stays sid) users)
        then Some (List.filter (stays sid) users) else None
    | None => JsMap.get r au
    end
  else JsMap.get r au.
Proof.
  unfold disconnect_room.
  destruct (String.eqb roomId r) eqn:E.
  - apply String.eqb_eq in E. subst r.
    destruct (List.find (on_socket sid) users); [|reflexivity].
    destruct (nonempty (List.filter (stays sid) users)); simpl.
    + apply get_set_eq.
    + apply get_delete_eq.
  - apply String.eqb_neq in E.
    destruct (List.find (on_socket sid) users); [|reflexivity].
    destruct (nonempty (List.filter (stays sid) users)); simpl.
    + now apply get_set_ne.
    + now apply get_delete_ne.
Qed.

Lemma disconnect_room_wf sid roomId users au :
  JsMap.wf au -> JsMap.wf (fst (disconnect_room sid roomId users au)).
Proof.
  intros Hwf. unfold disconnect_room.
  destruct (List.find _ users); [|exact Hwf].
  destruct (nonempty _); simpl; [now apply wf_set|now apply wf_delete].
Qed.

Lemma disconnect_loop_cons sid roomId users rest au :
  disconnect_loop sid ((roomId, users) :: rest) au =
  (fst (disconnect_loop sid rest (fst (disconnect_room sid roomId users au))),
   snd (disconnect_room sid roomId users au)
   ++ snd (disconnect_loop sid rest (fst (disconnect_room sid roomId users au)))).
Proof.
  simpl. destruct (disconnect_room sid roomId users au) as [au1 e1]. simpl.
  now destruct (disconnect_loop sid rest au1).
Qed.

Lemma get_notin (r : string) (entries : JsMap.t (list UserData)) :
  ~ In r (JsMap.keys entries) -> JsMap.get r entries = None.
Proof.
  induction entries as [|[k v] m IH]; simpl; intros Hn; [reflexivity|].
  destruct (String.eqb k r) eqn:E.
  - apply String.eqb_eq in E. tauto.
  - apply IH. tauto.
Qed.

Lemma disconnect_loop_userLeft sid r entries : forall au,
  JsMap.wf entries ->
  userLeftIn r (snd (disconnect_loop sid entries au)) =
  match JsMap.get r entries with
  | Some users =>
      match List.find (on_socket sid) users with
      | Some du =>
          if nonempty (List.filter (stays sid) users)
             && negb (existsb (fun u => String.eqb (ud_id u) (ud_id du))
                              (List.filter (stays sid) users))
          then [ud_id du] else []
      | None => []
      end
  | None => []
  end.
Proof.
  induction entries as [|[k users] rest IH]; intros au Hwf; [reflexivity|].
  inversion Hwf as [|? ? Hnin Hwf']; subst.
  rewrite disconnect_loop_cons. cbn [snd].
  rewrite userLeftIn_app, disconnect_room_userLeft, IH by exact Hwf'.
  cbn [JsMap.get]. destruct (String.eqb k r) eqn:E.
  - apply String.eqb_eq in E. subst r.
    rewrite (get_notin k rest Hnin). apply app_nil_r.
  - reflexivity.
Qed.

Lemma disconnect_loop_get sid r entries : forall au,
  JsMap.wf entries ->
  JsMap.get r (fst (disconnect_loop sid entries au)) =
  match JsMap.get r entries with
  | Some users =>
      match List.find (on_socket sid) users with
      | Some _ =>
          if nonempty (List.filter (stays sid) users)
          then Some (List.filter (stays sid) users) else None
      | None => JsMap.get r au
      end
  | None => JsMap.get r au
  end.
Proof.
  induction entries as [|[k users] rest IH]; intros au Hwf; [reflexivity|].
  inversion Hwf as [|? ? Hnin Hwf']; subst.
  rewrite disconnect_loop_cons. cbn [fst].
  rewrite IH by exact Hwf'. cbn [JsMap.get].
  rewrite disconnect_room_get. destruct (String.eqb k r) eqn:E.
  - apply String.eqb_eq in E. subst r.
    now rewrite (get_notin k rest Hnin).
  - destruct (JsMap.get r rest) as [us|]; [|reflexivity].
    destruct (List.find (on_socket sid) us); [reflexivity|reflexivity].
Qed.

Lemma disconnect_loop_wf sid entries : forall au,
  JsMap.wf au -> JsMap.wf (fst (disconnect_loop sid entries au)).
Proof.
  induction entries as [|[k users] rest IH]; intros au Hwf; [exact Hwf|].
  rewrite disconnect_loop_cons. cbn [fst]. apply IH.
  now apply disconnect_room_wf.
Qed.

Lemma disconnect_activeUsers sid st :
  activeUsers (fst (disconnect sid st))
  = fst (disconnect_loop sid (activeUsers st) (activeUsers st)).
Proof.
  unfold disconnect. simpl.
  now destruct (disconnect_loop sid (activeUsers st) (activeUsers st)).
Qed.

Lemma disconnect_effects sid st :
  snd (disconnect sid st)
  = snd (disconnect_loop sid (activeUsers st) (activeUsers st)).
Proof.
  unfold disconnect. simpl.
  now destruct (disconnect_loop sid (activeUsers st) (activeUsers st)).
Qed.

(** The [userLeft] events that a disconnection sends to a room. *)
Lemma disconnect_userLeft sid r st :
  JsMap.wf (activeUsers st) ->
  userLeftIn r (snd (disconnect sid st)) =
  match List.find (on_socket sid) (room_entries r (activeUsers st)) with
  | Some du =>
      if nonempty (List.filter (stays sid) (room_entries r (activeUsers st)))
         && negb (existsb (fun u => String.eqb (ud_id u) (ud_id du))
                          (List.filter (stays sid) (room_entries r (activeUsers st))))
      then [ud_id du] else []
  | None => []
  end.
Proof.
  intros Hwf. rewrite disconnect_effects, disconnect_loop_userLeft by exact Hwf.
  unfold room_entries. now destruct (JsMap.get r (activeUsers st)).
Qed.

(** The room's array after a disconnection that leaves someone in it. *)
Lemma disconnect_entries sid r st du :
  JsMap.wf (activeUsers st) ->
  List.find (on_socket sid) (room_entries r (activeUsers st)) = Some du ->
  room_entries r (activeUsers (fst (disconnect sid st)))
  = List.filter (stays sid) (room_entries r (activeUsers st)).
Proof.
  intros Hwf Hfind. rewrite disconnect_activeUsers.
  unfold room_entries in *. rewrite disconnect_loop_get by exact Hwf.
  destruct (JsMap.get r (activeUsers st)) as [us|]; [|discriminate].
  rewrite Hfind. now destruct (List.filter (stays sid) us).
Qed.

Lemma disconnect_wf sid st :
  JsMap.wf (activeUsers st) -> JsMap.wf (activeUsers (fst (disconnect sid st))).
Proof.
  intros Hwf. rewrite disconnect_activeUsers. now apply disconnect_loop_wf.
Qed.

Lemma nonempty_true {A : Type} (l : list A) : nonempty l = true <-> l <> [].
Proof. destruct l; simpl; split; congruence. Qed.

Lemma find_filter_same {A : Type} (P Q : A -> bool) (l : list A) :
  (forall x, P x = true -> Q x = true) ->
  List.find P (List.filter Q l) = List.find P l.
Proof.
  intros H. induction l as [|x l IH]; simpl; [reflexivity|].
  destruct (Q x) eqn:Qx; simpl.
  - now rewrite IH.
  - destruct (P x) eqn:Px; [|exact IH]. rewrite (H x Px) in Qx. discriminate.
Qed.

End DisconnectFacts.




(** [leaveRoom] does not look for other connections of the user: it sends
    [userLeft] although the user keeps an entry in the room. *)
Example leaveRoom_sends_userLeft_with_a_connection_left :
  let (st', effects) := Hub.leaveRoom "s1" "r2" "u2" TwoTabs.state in
  Hub.userLeftIn "r2" effects = ["u2"] /\
  In (Scenario.entry Scenario.bob "s2" false)
     (Presence.room_entries "r2" (Hub.activeUsers st')).
Proof. vm_compute. split; [reflexivity|]. right. now left. Qed.

(** The [disconnect] of [server/socket.js] has no such test either. *)
Example server_socket_disconnect_sends_userLeft_each_time :
  Hub.userLeftIn "r2" (snd (ServerSocket.disconnect "s1" (Hub.activeUsers TwoTabs.state)))
  = ["u2"].
Proof. vm_compute. reflexivity. Qed.

(** ** The signaling relay *)



(** ** The debounced writer *)

Module DebounceFacts.
Import Hub Debounce.

Lemma codeWrites_app e1 e2 : codeWrites (e1 ++ e2) = codeWrites e1 ++ codeWrites e2.
Proof. unfold codeWrites. apply flat_map_app. Qed.

Lemma hub_state_eta st :
  mkState (activeUsers st) (saveTimeouts st) (timers st) (nextTimer st)
          (sio st) (db st) = st.
Proof. now destruct st. Qed.

(** Nothing runs while the only pending write is not yet due. *)
Lemma advance_early roomId c st now :
  armed roomId c st -> (now < ch_time c + quietWindow)%Z ->
  advance now st = (st, []).
Proof.
  intros (tid & Ht & _) Hlt. unfold advance. rewrite Ht. simpl.
  unfold is_due. simpl.
  replace (ch_time c + quietWindow <=? now)%Z with false
    by (symmetry; apply Z.leb_gt; lia).
  simpl. rewrite <- Ht. now rewrite hub_state_eta.
Qed.

Lemma advance_idle st now : timers st = [] -> advance now st = (st, []).
Proof.
  intros Ht. unfold advance. rewrite Ht. simpl. rewrite <- Ht.
  now rewrite hub_state_eta.
Qed.

(** Once the window has elapsed the pending write runs, alone. *)
Lemma advance_late roomId c st now :
  armed roomId c st -> (ch_time c + quietWindow <= now)%Z ->
  codeWrites (snd (advance now st)) = [(roomId, ch_code c, ch_language c)]
  /\ timers (fst (advance now st)) = [].
Proof.
  intros (tid & Ht & _) Hle. unfold advance. rewrite Ht. simpl.
  unfold is_due. simpl.
  replace (ch_time c + quietWindow <=? now)%Z with true
    by (symmetry; apply Z.leb_le; lia).
  simpl. split; reflexivity.
Qed.

(** A change with a room id and code replaces whatever write is pending
    for the room by a write of its own. *)
Lemma codeChange_arms roomId c st :
  Js.truthy roomId = true -> Js.truthy (ch_code c) = true ->
  timers st = [] \/ (exists c0, armed roomId c0 st) ->
  armed roomId c
    (fst (codeChange (ch_sid c) roomId (ch_code c) (ch_language c) (ch_time c) st))
  /\ codeWrites
       (snd (codeChange (ch_sid c) roomId (ch_code c) (ch_language c) (ch_time c) st))
     = [].
Proof.
  intros Hr Hc Hst. unfold codeChange. rewrite Hr, Hc. simpl.
  split; [|reflexivity].
  exists (nextTimer st). unfold saveCodeToDatabase. simpl. split.
  - f_equal. destruct Hst as [Ht|(c0 & tid & Ht & Hs)].
    + rewrite Ht. now destruct (saveTimeouts st !! roomId).
    + rewrite Hs, Ht. simpl. now rewrite Nat.eqb_refl.
  - apply lookup_insert_eq.
Qed.

Lemma run_cons a rest st :
  run (a :: rest) st =
  (fst (run rest (fst (handle (ev_sid a) (ev_input a) (ev_time a)
                         (fst (advance (ev_time a) st))))),
   snd (advance (ev_time a) st)
   ++ snd (handle (ev_sid a) (ev_input a) (ev_time a) (fst (advance (ev_time a) st)))
   ++ snd (run rest (fst (handle (ev_sid a) (ev_input a) (ev_time a)
                            (fst (advance (ev_time a) st)))))).
Proof.
  simpl. destruct (advance (ev_time a) st) as [st1 e1]. simpl.
  destruct (handle (ev_sid a) (ev_input a) (ev_time a) st1) as [st2 e2]. simpl.
  now destruct (run rest st2).
Qed.

(** A burst of changes keeps exactly one write pending, that of the last
    change, and writes nothing. *)
Lemma run_burst roomId : forall more c st,
  Js.truthy roomId = true ->
  Forall (fun x => Js.truthy (ch_code x) = true) more ->
  within_window (ch_time c) more ->
  armed roomId c st ->
  armed roomId (List.last more c) (fst (run (arrivals roomId more) st))
  /\ codeWrites (snd (run (arrivals roomId more) st)) = [].
Proof.
  induction more as [|c1 more IH]; intros c st Hr Hall Hwin Harmed.
  - simpl. auto.
  - inversion Hall as [|? ? Hc1 Hall']; subst.
    destruct Hwin as [Ht Hwin].
    change (arrivals roomId (c1 :: more))
      with (mkArrival (ch_time c1) (ch_sid c1)
                      (InCodeChange roomId (ch_code c1) (ch_language c1))
            :: arrivals roomId more).
    rewrite run_cons. cbn [ev_time ev_sid ev_input handle fst snd].
    rewrite (advance_early roomId c st (ch_time c1) Harmed) by lia.
    cbn [fst snd].
    destruct (codeChange_arms roomId c1 st Hr Hc1 (or_intror (ex_intro _ c Harmed)))
      as [Harmed1 Hw1].
    destruct (IH c1 _ Hr Hall' Hwin Harmed1) as [Hfinal Hw].
    split.
    + now rewrite last_cons.
    + rewrite !codeWrites_app, Hw1, Hw. reflexivity.
Qed.

End DebounceFacts.




(** ** Joining from the client *)

Module ClientFacts.

(** [WebSocketService.joinRoom] for a room that is in [joinedRooms]
    changes nothing. *)
Lemma service_join_again roomId userId password (s : WebSocketService.t) :
  roomId ∈ WebSocketService.joinedRooms s ->
  WebSocketService.joinRoom roomId userId password s = s.
Proof.
  intros Hin. unfold WebSocketService.joinRoom.
  destruct (WebSocketService.socket s); [|reflexivity].
  destruct (negb (Js.truthy roomId) || negb (Js.truthy userId)); [reflexivity|].
  now rewrite bool_decide_eq_true_2.
Qed.

(** The first [joinRoom] for a room on a live socket sends one message
    and records the room. *)
Lemma service_join_first roomId userId password (s : WebSocketService.t) connected :
  WebSocketService.socket s = Some connected ->
  Js.truthy roomId = true -> Js.truthy userId = true ->
  roomId ∉ WebSocketService.joinedRooms s ->
  WebSocketService.joinRoom roomId userId password s
  = WebSocketService.mk (Some connected)
      ({[roomId]} ∪ WebSocketService.joinedRooms s)
      (WebSocketService.sent s ++ [WebSocketService.SentJoinRoom roomId userId password]).
Proof.
  intros Hs Hr Hu Hnin. unfold WebSocketService.joinRoom.
  rewrite Hs, Hr, Hu. simpl. now rewrite bool_decide_eq_false_2.
Qed.

(** While [joinInProgress] is set, a call of the hook's [joinRoom] by an
    authenticated user changes nothing. *)
Lemma hook_join_in_progress token userId roomId password (st : UseRoomAccess.State) :
  Js.truthy_opt token = true -> Js.truthy_opt userId = true ->
  UseRoomAccess.joinInProgress st = true ->
  UseRoomAccess.joinRoom token userId roomId password st = st.
Proof.
  intros Ht Hu Hp. unfold UseRoomAccess.joinRoom. now rewrite Ht, Hu, Hp.
Qed.

End ClientFacts.



(** ** Glare *)

Module GlareFacts.
Import VideoChat.

Section WithOffer.
Variable localOffer : string.

(** Unfold the offers sent in a state built by the setters. *)
Ltac offers_sent :=
  unfold offersTo; cbn [sent emit set_status set_pcs set_buffer];
  rewrite ?List.filter_app; cbn [List.filter];
  rewrite ?String.eqb_refl, <- ?app_assoc; try reflexivity.

(** An offer on an open connection is sent and becomes the local
    description. *)
Lemma sendOffer_open remote st pc :
  peerConnections st !! remote = Some pc -> closed pc = false ->
  sendOffer localOffer remote st
  = emit (SentOffer remote localOffer)
         (set_pcs (<[remote := mkPC (remoteDescription pc) (Some localOffer)
                                   (remoteCandidates pc) false]>
                     (peerConnections st)) st).
Proof. intros Hpc Hopen. unfold sendOffer. now rewrite Hpc, Hopen. Qed.

Lemma createPeerConnection_offers remote st :
  peerConnections st !! remote = None ->
  Js.lt (socketId st) remote = true ->
  createPeerConnection localOffer remote st
  = set_status remote "new"
      (emit (SentOffer remote localOffer)
         (set_pcs (<[remote := mkPC None (Some localOffer) [] false]>
                     (peerConnections st)) st)).
Proof.
  intros Hnone Hlt. unfold createPeerConnection. rewrite Hnone, Hlt.
  rewrite (sendOffer_open remote _ newPC).
  - simpl. now rewrite insert_insert_eq.
  - simpl. apply lookup_insert_eq.
  - reflexivity.
Qed.

Lemma createPeerConnection_silent remote st :
  Js.lt (socketId st) remote = false ->
  sent (createPeerConnection localOffer remote st) = sent st
  /\ socketId (createPeerConnection localOffer remote st) = socketId st.
Proof.
  intros Hlt. unfold createPeerConnection.
  destruct (peerConnections st !! remote); [auto|]. now rewrite Hlt.
Qed.

Lemma closePC_sent remote st :
  sent (closePC remote st) = sent st /\ socketId (closePC remote st) = socketId st.
Proof. unfold closePC. now destruct (peerConnections st !! remote). Qed.

(** The side with the larger id sends nothing, on any trigger and in any
    state. *)
Lemma larger_id_is_silent t remote st :
  Js.lt (socketId st) remote = false ->
  sent (negotiate localOffer t remote st) = sent st.
Proof.
  intros Hlt. destruct t; simpl.
  - now apply createPeerConnection_silent.
  - unfold onnegotiationneeded. now rewrite Hlt.
  - unfold handleReconnectPeers.
    destruct (negb (String.eqb remote (socketId st))); [|reflexivity].
    rewrite Hlt.
    destruct (closePC_sent remote st) as [Hs Hi].
    destruct (createPeerConnection_silent remote (closePC remote st)) as [Hs' _].
    + now rewrite Hi.
    + now rewrite Hs', Hs.
  - unfold handleConnectionRetry.
    destruct (closePC_sent remote st) as [Hs Hi].
    destruct (createPeerConnection_silent remote
                (set_pcs (delete remote (peerConnections st)) (closePC remote st)))
      as [Hs' _].
    + simpl. now rewrite Hi.
    + rewrite Hs'. simpl. exact Hs.
Qed.

(** The side with the smaller id sends the offer. *)
Lemma smaller_id_offers t remote st :
  Js.lt (socketId st) remote = true ->
  can_negotiate t remote st ->
  exists n,
    offersTo remote (negotiate localOffer t remote st)
    = offersTo remote st ++ repeat (SentOffer remote localOffer) (S n).
Proof.
  intros Hlt Hcan. destruct t; simpl in *.
  - exists 0. rewrite createPeerConnection_offers by assumption.
    offers_sent.
  - destruct Hcan as (pc & Hpc & Hopen). exists 0.
    unfold onnegotiationneeded. rewrite Hlt.
    rewrite (sendOffer_open remote st pc Hpc Hopen).
    offers_sent.
  - exists 1. unfold handleReconnectPeers.
    assert (Hne : String.eqb remote (socketId st) = false).
    { apply String.eqb_neq. intros ->. rewrite Js_lt_irrefl in Hlt. discriminate. }
    rewrite Hne, Hlt. cbn [negb].
    assert (Hclose : closePC remote st = st).
    { unfold closePC. now rewrite Hcan. }
    rewrite Hclose, createPeerConnection_offers by assumption.
    erewrite sendOffer_open;
      [|cbn [peerConnections set_status emit set_pcs]; apply lookup_insert_eq
       |reflexivity].
    offers_sent.
  - exists 0. unfold handleConnectionRetry.
    destruct (closePC_sent remote st) as [Hs Hi].
    rewrite createPeerConnection_offers.
    + offers_sent. unfold offersTo in *. now rewrite Hs.
    + cbn [peerConnections set_pcs]. apply lookup_delete_eq.
    + cbn [socketId set_pcs]. now rewrite Hi.
Qed.

(** The [streamReady] handler is outside this rule: it offers on an open
    connection whichever id is larger.  The hub forwards no [streamReady]
    event, so the handler does not run against it. *)
Lemma handleStreamReady_offers_regardless remoteUser st pc :
  remoteUser <> userId st ->
  peerConnections st !! remoteUser = Some pc -> closed pc = false ->
  offersTo remoteUser (handleStreamReady localOffer remoteUser st)
  = offersTo remoteUser st ++ [SentOffer remoteUser localOffer].
Proof.
  intros Hne Hpc Hopen. unfold handleStreamReady.
  apply String.eqb_neq in Hne. rewrite Hne, Hpc. simpl.
  rewrite (sendOffer_open remoteUser st pc Hpc Hopen).
  offers_sent.
Qed.

End WithOffer.
End GlareFacts.



(** ** Buffered ICE candidates *)

Module IceFacts.
Import VideoChat.

Section WithBrowser.
Variable sdp_ok : string -> bool.
Variable candidate_ok : string -> bool.
Variable localOffer : string.
Variable createAnswer : string -> string.

Abbreviation addIce := (addIceCandidate candidate_ok).
Abbreviation replayAll := (replay candidate_ok).
Abbreviation onCandidate := (handleIceCandidate candidate_ok).
Abbreviation onCandidates := (handleIceCandidates candidate_ok).
Abbreviation onOffer := (handleOffer sdp_ok candidate_ok localOffer createAnswer).
Abbreviation onAnswer := (handleAnswer sdp_ok candidate_ok).

Lemma peer_state_eta st :
  mkState (socketId st) (userId st) (peerConnections st) (iceCandidatesBuffer st)
          (connectionStatus st) (sent st) = st.
Proof. now destruct st. Qed.

Lemma addIce_remoteDescription c pc :
  remoteDescription (addIce c pc) = remoteDescription pc.
Proof.
  unfold addIceCandidate. destruct (remoteDescription pc) eqn:E; [|exact E].
  now destruct (candidate_ok c && negb (closed pc)).
Qed.

Lemma addIce_with_local c l pc :
  addIce c (with_local l pc) = with_local l (addIce c pc).
Proof.
  destruct pc as [rd ld rc cl]. unfold addIceCandidate, with_local. simpl.
  destruct rd; [|reflexivity].
  now destruct (candidate_ok c && negb cl).
Qed.

Lemma replay_with_local cs : forall l pc,
  replayAll cs (with_local l pc) = with_local l (replayAll cs pc).
Proof.
  induction cs as [|c cs IH]; intros l pc; [reflexivity|].
  simpl. now rewrite addIce_with_local, IH.
Qed.

Lemma replay_app cs1 cs2 pc :
  replayAll (cs1 ++ cs2) pc = replayAll cs2 (replayAll cs1 pc).
Proof. unfold replay. apply fold_left_app. Qed.

Lemma replay_remoteDescription cs : forall pc,
  remoteDescription (replayAll cs pc) = remoteDescription pc.
Proof.
  induction cs as [|c cs IH]; intros pc; [reflexivity|].
  simpl. now rewrite IH, addIce_remoteDescription.
Qed.

(** With a description applied on an open connection, the replay adds
    the candidates that the browser accepts, in order. *)
Lemma replay_candidates cs : forall pc d,
  remoteDescription pc = Some d -> closed pc = false ->
  replayAll cs pc
  = mkPC (Some d) (localDescription pc)
         (remoteCandidates pc ++ List.filter candidate_ok cs) false.
Proof.
  induction cs as [|c cs IH]; intros pc d Hd Hopen.
  - simpl. rewrite app_nil_r. destruct pc. simpl in *. now subst.
  - change (replayAll (c :: cs) pc) with (replayAll cs (addIce c pc)).
    assert (Hadd : addIce c pc
                   = if candidate_ok c
                     then mkPC (Some d) (localDescription pc)
                               (remoteCandidates pc ++ [c]) false
                     else pc).
    { unfold addIceCandidate. rewrite Hd, Hopen, andb_true_r.
      now destruct (candidate_ok c). }
    rewrite Hadd. cbn [List.filter]. destruct (candidate_ok c).
    + rewrite (IH _ d) by reflexivity. cbn [localDescription remoteCandidates].
      now rewrite <- app_assoc.
    + now rewrite (IH _ d).
Qed.

(** Candidates that come while no description is applied go to the end
    of the sender's buffer; the connections are not touched. *)
Lemma buffering sender cs : forall st,
  awaits_description sender st ->
  onCandidates (socketId st) sender cs st
  = match cs with
    | [] => st
    | _ :: _ => set_buffer (<[sender := buffered sender st ++ cs]>
                              (iceCandidatesBuffer st)) st
    end.
Proof.
  induction cs as [|c cs IH]; intros st Hw; [reflexivity|].
  assert (Hstep : onCandidate (socketId st) sender c st
                  = set_buffer (<[sender := buffered sender st ++ [c]]>
                                  (iceCandidatesBuffer st)) st).
  { unfold handleIceCandidate. rewrite String.eqb_refl.
    unfold awaits_description in Hw.
    destruct (peerConnections st !! sender) as [pc|]; [|reflexivity].
    destruct Hw as [Hd _]. now rewrite Hd. }
  unfold handleIceCandidates in *. cbn [fold_left]. rewrite Hstep.
  set (st1 := set_buffer _ st).
  change (socketId st) with (socketId st1).
  rewrite (IH st1) by exact Hw.
  destruct cs as [|c' cs]; [reflexivity|].
  unfold st1, set_buffer, buffered. simpl.
  rewrite lookup_insert_eq, insert_insert_eq. simpl.
  now rewrite <- app_assoc.
Qed.

(** Candidates that come after the description are added at once. *)
Lemma direct sender cs : forall st pc d,
  peerConnections st !! sender = Some pc ->
  remoteDescription pc = Some d ->
  onCandidates (socketId st) sender cs st
  = set_pcs (<[sender := replayAll cs pc]> (peerConnections st)) st.
Proof.
  induction cs as [|c cs IH]; intros st pc d Hpc Hd.
  - simpl. rewrite insert_id by exact Hpc. unfold set_pcs. apply eq_sym, peer_state_eta.
  - unfold handleIceCandidates in *. cbn [fold_left].
    assert (Hstep : onCandidate (socketId st) sender c st
                    = set_pcs (<[sender := addIce c pc]> (peerConnections st)) st).
    { unfold handleIceCandidate. now rewrite String.eqb_refl, Hpc, Hd. }
    rewrite Hstep. set (st1 := set_pcs _ st).
    change (socketId st) with (socketId st1).
    rewrite (IH st1 (addIce c pc) d).
    + unfold st1, set_pcs. simpl. now rewrite insert_insert_eq.
    + unfold st1. simpl. apply lookup_insert_eq.
    + now rewrite addIce_remoteDescription.
Qed.

Lemma createPeerConnection_set_buffer remote b st :
  createPeerConnection localOffer remote (set_buffer b st)
  = set_buffer b (createPeerConnection localOffer remote st).
Proof.
  unfold createPeerConnection, sendOffer. cbn [peerConnections set_buffer socketId].
  destruct (peerConnections st !! remote); [reflexivity|].
  destruct (Js.lt (socketId st) remote); [|reflexivity].
  cbn [peerConnections set_pcs]. now rewrite lookup_insert_eq.
Qed.

Lemma createPeerConnection_frame remote st :
  socketId (createPeerConnection localOffer remote st) = socketId st
  /\ iceCandidatesBuffer (createPeerConnection localOffer remote st)
     = iceCandidatesBuffer st.
Proof.
  unfold createPeerConnection, sendOffer.
  destruct (peerConnections st !! remote); [auto|].
  destruct (Js.lt (socketId st) remote); [|auto].
  cbn [peerConnections set_pcs]. now rewrite lookup_insert_eq.
Qed.

(** After [createPeerConnection] there is a connection, and it still
    waits for its description. *)
Lemma createPeerConnection_awaits sender st :
  awaits_description sender st ->
  exists pc0,
    peerConnections (createPeerConnection localOffer sender st) !! sender = Some pc0
    /\ remoteDescription pc0 = None /\ closed pc0 = false
    /\ remoteCandidates pc0 = prior sender st.
Proof.
  unfold awaits_description, prior, createPeerConnection, sendOffer.
  destruct (peerConnections st !! sender) as [pc|] eqn:E.
  - intros [Hd Hopen]. exists pc. now rewrite E.
  - intros _. destruct (Js.lt (socketId st) sender).
    + cbn [peerConnections set_pcs]. rewrite lookup_insert_eq.
      cbn [closed newPC peerConnections set_status emit set_pcs].
      rewrite insert_insert_eq, lookup_insert_eq. eexists. repeat split.
    + cbn [peerConnections set_status set_pcs]. rewrite lookup_insert_eq.
      exists newPC. repeat split.
Qed.

Lemma handleOffer_applied sender sdp st pc0 :
  sdp_ok sdp = true ->
  peerConnections (createPeerConnection localOffer sender st) !! sender = Some pc0 ->
  closed pc0 = false ->
  let st0 := createPeerConnection localOffer sender st in
  onOffer (socketId st) sender sdp st
  = set_status sender "connecting"
      (emit (SentAnswer sender (createAnswer sdp))
         (set_buffer (delete sender (iceCandidatesBuffer st0))
            (set_pcs (<[sender :=
                          with_local (Some (createAnswer sdp))
                            (replayAll (buffered sender st0)
                               (mkPC (Some sdp) (localDescription pc0)
                                     (remoteCandidates pc0) false))]>
                        (peerConnections st0)) st0))).
Proof.
  intros Hok Hpc Hopen st0. unfold handleOffer. rewrite String.eqb_refl.
  fold st0. fold st0 in Hpc. rewrite Hpc. unfold setRemoteDescription.
  rewrite Hok, Hopen. reflexivity.
Qed.

Lemma handleAnswer_applied sender sdp st pc :
  sdp_ok sdp = true ->
  peerConnections st !! sender = Some pc ->
  closed pc = false ->
  onAnswer (socketId st) sender sdp st
  = set_status sender "connected"
      (set_buffer (delete sender (iceCandidatesBuffer st))
         (set_pcs (<[sender :=
                       replayAll (buffered sender st)
                         (mkPC (Some sdp) (localDescription pc)
                               (remoteCandidates pc) false)]>
                     (peerConnections st)) st)).
Proof.
  intros Hok Hpc Hopen. unfold handleAnswer. rewrite String.eqb_refl, Hpc.
  unfold setRemoteDescription. rewrite Hok, Hopen. reflexivity.
Qed.

End WithBrowser.
End IceFacts.

Module IceReplay.
Import VideoChat IceFacts.

Section WithBrowser.
Variable sdp_ok : string -> bool.
Variable candidate_ok : string -> bool.
Variable localOffer : string.
Variable createAnswer : string -> string.

Abbreviation onCandidates := (handleIceCandidates candidate_ok).
Abbreviation onOffer := (handleOffer sdp_ok candidate_ok localOffer createAnswer).
Abbreviation onAnswer := (handleAnswer sdp_ok candidate_ok).

Variables (sender sdp : string) (cs : list string) (st : State).
Hypothesis Hwaits : awaits_description sender st.
Hypothesis Hok : sdp_ok sdp = true.

Lemma buffered_after :
  buffered sender (onCandidates (socketId st) sender cs st) = buffered sender st ++ cs
  /\ peerConnections (onCandidates (socketId st) sender cs st) = peerConnections st.
Proof.
  rewrite buffering by exact Hwaits. destruct cs as [|c l].
  - now rewrite app_nil_r.
  - unfold buffered. cbn [iceCandidatesBuffer peerConnections set_buffer].
    now rewrite lookup_insert_eq.
Qed.

(** The offer handled after the candidates and the candidates handled
    after the offer leave the same state. *)
Lemma offer_commutes :
  onOffer (socketId st) sender sdp (onCandidates (socketId st) sender cs st)
  = onCandidates (socketId st) sender cs (onOffer (socketId st) sender sdp st).
Proof.
  destruct (createPeerConnection_awaits localOffer sender st Hwaits)
    as (pc0 & Hpc0 & Hd0 & Hopen0 & _).
  destruct (createPeerConnection_frame localOffer sender st) as [Hid Hbuf].
  rewrite (handleOffer_applied sdp_ok candidate_ok localOffer createAnswer
             sender sdp st pc0 Hok Hpc0 Hopen0).
  set (st0 := createPeerConnection localOffer sender st) in *.
  set (applied := mkPC (Some sdp) (localDescription pc0) (remoteCandidates pc0) false).
  set (answered := with_local (Some (createAnswer sdp))
                     (replay candidate_ok (buffered sender st0) applied)).
  set (right := set_status sender "connecting" _).
  replace (socketId st) with (socketId right) at 3 by (unfold right; simpl; exact Hid).
  rewrite (direct candidate_ok sender cs right answered sdp).
  2: { unfold right. cbn [peerConnections set_status emit set_buffer set_pcs].
       apply lookup_insert_eq. }
  2: { unfold answered, with_local. cbn [remoteDescription].
       now rewrite replay_remoteDescription. }
  rewrite buffering by exact Hwaits. destruct cs as [|c l].
  - rewrite (handleOffer_applied sdp_ok candidate_ok localOffer createAnswer
               sender sdp st pc0 Hok Hpc0 Hopen0).
    fold st0. cbn [replay fold_left]. unfold right.
    cbn [peerConnections set_status emit set_buffer set_pcs].
    rewrite insert_insert_eq. reflexivity.
  - set (st1 := set_buffer _ st).
    change (socketId st) with (socketId st1).
    assert (Hpc1 : peerConnections (createPeerConnection localOffer sender st1) !! sender
                   = Some pc0).
    { unfold st1. rewrite createPeerConnection_set_buffer. exact Hpc0. }
    rewrite (handleOffer_applied sdp_ok candidate_ok localOffer createAnswer
               sender sdp st1 pc0 Hok Hpc1 Hopen0).
    unfold st1. rewrite createPeerConnection_set_buffer. fold st0.
    unfold right, answered, buffered.
    cbn [peerConnections iceCandidatesBuffer socketId userId connectionStatus sent
         set_status emit set_buffer set_pcs].
    rewrite lookup_insert_eq, delete_insert_eq, insert_insert_eq, Hbuf.
    cbn [default]. fold (buffered sender st).
    rewrite replay_with_local, <- replay_app. unfold id, applied.
    unfold set_status, emit, set_buffer, set_pcs.
    cbn [peerConnections iceCandidatesBuffer socketId userId connectionStatus sent].
    reflexivity.
Qed.

Lemma offer_replays :
  let after := onOffer (socketId st) sender sdp (onCandidates (socketId st) sender cs st) in
  iceCandidatesBuffer after !! sender = None
  /\ exists pc,
       peerConnections after !! sender = Some pc
       /\ remoteDescription pc = Some sdp
       /\ remoteCandidates pc
          = prior sender st ++ List.filter candidate_ok (buffered sender st ++ cs).
Proof.
  intros after. subst after. rewrite offer_commutes.
  destruct (createPeerConnection_awaits localOffer sender st Hwaits)
    as (pc0 & Hpc0 & Hd0 & Hopen0 & Hprior).
  destruct (createPeerConnection_frame localOffer sender st) as [Hid Hbuf].
  rewrite (handleOffer_applied sdp_ok candidate_ok localOffer createAnswer
             sender sdp st pc0 Hok Hpc0 Hopen0).
  set (st0 := createPeerConnection localOffer sender st) in *.
  set (right := set_status sender "connecting" _).
  replace (socketId st) with (socketId right) by (unfold right; simpl; exact Hid).
  erewrite (direct candidate_ok sender cs right _ sdp).
  2: { unfold right. cbn [peerConnections set_status emit set_buffer set_pcs].
       apply lookup_insert_eq. }
  2: { unfold with_local. cbn [remoteDescription].
       now rewrite replay_remoteDescription. }
  unfold right. cbn [peerConnections iceCandidatesBuffer set_status emit set_buffer set_pcs].
  split; [apply lookup_delete_eq|].
  eexists. split; [apply lookup_insert_eq|].
  rewrite <- replay_with_local, <- replay_app.
  rewrite (replay_candidates candidate_ok _ _ sdp) by reflexivity.
  cbn [remoteDescription remoteCandidates with_local].
  split; [reflexivity|]. rewrite Hprior. unfold buffered. now rewrite Hbuf.
Qed.

Hypothesis Hpc : is_Some (peerConnections st !! sender).

Lemma answer_commutes :
  onAnswer (socketId st) sender sdp (onCandidates (socketId st) sender cs st)
  = onCandidates (socketId st) sender cs (onAnswer (socketId st) sender sdp st).
Proof.
  destruct Hpc as [pc Hpc']. pose proof Hwaits as Hw.
  unfold awaits_description in Hw. rewrite Hpc' in Hw. destruct Hw as [Hd Hopen].
  rewrite (handleAnswer_applied sdp_ok candidate_ok sender sdp st pc Hok Hpc' Hopen).
  set (right := set_status sender "connected" _).
  change (socketId st) with (socketId right) at 3.
  erewrite (direct candidate_ok sender cs right _ sdp).
  2: { unfold right. cbn [peerConnections set_status set_buffer set_pcs].
       apply lookup_insert_eq. }
  2: { now rewrite replay_remoteDescription. }
  rewrite buffering by exact Hwaits. destruct cs as [|c l].
  - rewrite (handleAnswer_applied sdp_ok candidate_ok sender sdp st pc Hok Hpc' Hopen).
    cbn [replay fold_left]. unfold right.
    cbn [peerConnections set_status set_buffer set_pcs].
    rewrite insert_insert_eq. reflexivity.
  - set (st1 := set_buffer _ st).
    change (socketId st) with (socketId st1).
    rewrite (handleAnswer_applied sdp_ok candidate_ok sender sdp st1 pc Hok Hpc' Hopen).
    unfold right, st1, buffered.
    cbn [peerConnections iceCandidatesBuffer socketId userId connectionStatus sent
         set_status set_buffer set_pcs].
    rewrite lookup_insert_eq, delete_insert_eq, insert_insert_eq.
    cbn [default]. fold (buffered sender st).
    rewrite <- replay_app. reflexivity.
Qed.

Lemma answer_replays :
  let after := onAnswer (socketId st) sender sdp (onCandidates (socketId st) sender cs st) in
  iceCandidatesBuffer after !! sender = None
  /\ exists pc,
       peerConnections after !! sender = Some pc
       /\ remoteDescription pc = Some sdp
       /\ remoteCandidates pc
          = prior sender st ++ List.filter candidate_ok (buffered sender st ++ cs).
Proof.
  intros after. subst after. rewrite answer_commutes.
  destruct Hpc as [pc Hpc']. pose proof Hwaits as Hw.
  unfold awaits_description in Hw. rewrite Hpc' in Hw. destruct Hw as [Hd Hopen].
  rewrite (handleAnswer_applied sdp_ok candidate_ok sender sdp st pc Hok Hpc' Hopen).
  set (right := set_status sender "connected" _).
  change (socketId st) with (socketId right).
  erewrite (direct candidate_ok sender cs right _ sdp).
  2: { unfold right. cbn [peerConnections set_status set_buffer set_pcs].
       apply lookup_insert_eq. }
  2: { now rewrite replay_remoteDescription. }
  unfold right. cbn [peerConnections iceCandidatesBuffer set_status set_buffer set_pcs].
  split; [apply lookup_delete_eq|].
  eexists. split; [apply lookup_insert_eq|].
  rewrite <- replay_app.
  rewrite (replay_candidates candidate_ok _ _ sdp) by reflexivity.
  cbn [remoteDescription remoteCandidates].
  split; [reflexivity|]. unfold prior. now rewrite Hpc'.
Qed.

End WithBrowser.
End IceReplay.



(** A candidate for a peer to which there is no connection yet is kept,
    and the offer that creates the connection replays it. *)
Example candidate_before_connection :
  let yes := fun _ : string => true in
  let st := VideoChat.mkState "me" "u1" ∅ ∅ ∅ [] in
  let queued := VideoChat.handleIceCandidates yes "me" "peer" ["c1"; "c2"] st in
  VideoChat.iceCandidatesBuffer queued !! "peer" = Some ["c1"; "c2"]
  /\ VideoChat.remoteCandidates <$>
       (VideoChat.peerConnections
          (VideoChat.handleOffer yes yes "offer" id "me" "peer" "sdp" queued) !! "peer")
     = Some ["c1"; "c2"].
Proof. vm_compute. split; reflexivity. Qed.

(** A user registers from two connections, as the handlers allow it: the
    second registration replaces the entry of the first, so the first
    connection disconnects silently and [userLeft] goes out when the
    second, the registered one, disconnects; in the other order it goes
    out at once. *)
Example two_connections_as_registered :
  let st0 := fst (Hub.joinRoom "s0" (Scenario.join "r2" "u1" None) 0 Scenario.idle) in
  let st1 := fst (Hub.joinRoom "s1" (Scenario.join "r2" "u2" None) 1 st0) in
  let st2 := fst (Hub.joinRoom "s2" (Scenario.join "r2" "u2" None) 2 st1) in
  map ud_socketId (Presence.room_entries "r2" (Hub.activeUsers st2)) = ["s0"; "s2"]
  /\ Hub.userLeftIn "r2" (snd (Hub.disconnect "s1" st2)) = []
  /\ Hub.userLeftIn "r2" (snd (Hub.disconnect "s2" (fst (Hub.disconnect "s1" st2))))
     = ["u2"]
  /\ Hub.userLeftIn "r2" (snd (Hub.disconnect "s2" st2)) = ["u2"].
Proof. vm_compute. repeat split; reflexivity. Qed.

(** * Further properties *)

(** ** The presence registry across the handlers *)

Module RegistryFacts.
Import Presence Hub Registry JsMapFacts.

Lemma register_get roomId userId userData (au : ActiveUsers) r :
  JsMap.get r (register roomId userId userData au) =
  if String.eqb roomId r
  then Some (List.filter (fun u => negb (String.eqb (ud_id u) userId))
                         (room_entries roomId au) ++ [userData])
  else JsMap.get r au.
Proof.
  destruct (String.eqb roomId r) eqn:E.
  - apply String.eqb_eq in E. subst r.
    rewrite <- RegisterFacts.register_entries. unfold room_entries at 1.
    destruct (JsMap.get roomId (register roomId userId userData au)) eqn:G;
      [reflexivity|].
    unfold register in G. rewrite get_set_eq in G. discriminate.
  - apply String.eqb_neq in E. unfold register. rewrite get_set_ne by exact E.
    destruct (negb (JsMap.has roomId au)); now rewrite get_set_ne.
Qed.

Lemma inv_entries (au : ActiveUsers) r :
  inv au -> one_entry_per_user (room_entries r au).
Proof.
  intros [_ H]. unfold room_entries.
  destruct (JsMap.get r au) as [us|] eqn:G; [now apply (H r)|constructor].
Qed.

Lemma inv_register roomId userId userData (au : ActiveUsers) :
  ud_id userData = userId -> inv au -> inv (register roomId userId userData au).
Proof.
  intros Hid Hinv. split; [apply RegisterFacts.register_wf; apply Hinv|].
  intros r us. rewrite register_get. destruct (String.eqb roomId r) eqn:E.
  - intros [= <-]. split; [now destruct (List.filter _ _)|].
    rewrite <- RegisterFacts.register_entries.
    apply RegisterFacts.register_one_entry_per_user; [exact Hid|].
    now apply inv_entries.
  - apply Hinv.
Qed.

(** What [joinRoom] does to the registry and to the store: nothing,
    unless the user and the room are found and the access check passes. *)
Lemma joinRoom_outcomes sid p now st :
  (exists user room,
     Js.truthy (jp_roomId p) = true /\ Js.truthy (jp_userId p) = true
     /\ User_findById (jp_userId p) (db st) = Some user
     /\ Room_findById (jp_roomId p) (db st) = Some room
     /\ accessDenied room (jp_userId p) = false)
  \/ (activeUsers (fst (joinRoom sid p now st)) = activeUsers st
      /\ db (fst (joinRoom sid p now st)) = db st
      /\ forall u users,
           ~ In (Emit (IoTo (jp_roomId p)) (EvUserJoined u users))
                (snd (joinRoom sid p now st))).
Proof.
  unfold joinRoom.
  destruct (Js.truthy (jp_roomId p)) eqn:Hr; simpl.
  2: { right. repeat split; auto. intros u users [H|[]]. discriminate. }
  destruct (Js.truthy (jp_userId p)) eqn:Hu; simpl.
  2: { right. repeat split; auto. intros u users [H|[]]. discriminate. }
  destruct (User_findById (jp_userId p) (db st)) as [user|] eqn:Huser.
  - destruct (Room_findById (jp_roomId p) (db st)) as [room|] eqn:Hroom.
    + destruct (accessDenied room (jp_userId p)) eqn:Hd.
      * right. repeat split; auto. intros u users [H|[]]. discriminate.
      * left. exists user, room. auto.
    + right. repeat split; auto. intros u users [H|[]]. discriminate.
  - right. rewrite JoinFacts.joinRoom_tail_fst. repeat split; auto.
    intros u users Hin. apply JoinFacts.joinRoom_tail_added in Hin.
    destruct Hin as [[]|[[r Hin]|[Hin|[Hin|Hin]]]]; discriminate.
Qed.

Lemma inv_joinRoom sid p now st :
  inv (activeUsers st) -> inv (activeUsers (fst (joinRoom sid p now st))).
Proof.
  intros Hinv.
  destruct (joinRoom_outcomes sid p now st)
    as [(user & room & Hr & Hu & Huser & Hroom & Hpass)|[Hsame _]].
  - rewrite (JoinFacts.joinRoom_allowed_state sid p now st user room) by assumption.
    apply inv_register; [|exact Hinv].
    simpl. now apply (User_findById_id _ (db st)).
  - now rewrite Hsame.
Qed.

Lemma leaveRoom_get sid roomId userId st r :
  JsMap.get r (activeUsers (fst (leaveRoom sid roomId userId st))) =
  if Js.truthy roomId && Js.truthy userId && JsMap.has roomId (activeUsers st)
     && String.eqb roomId r
  then
    let updated :=
      List.filter (fun u => negb (leaving sid userId u))
                  (room_entries roomId (activeUsers st)) in
    if nonempty updated then Some updated else None
  else JsMap.get r (activeUsers st).
Proof.
  unfold leaveRoom. cbn [activeUsers set_sio].
  destruct (Js.truthy roomId && Js.truthy userId && JsMap.has roomId (activeUsers st));
    [|reflexivity].
  cbn [fst activeUsers set_activeUsers andb]. unfold leaving.
  destruct (String.eqb roomId r) eqn:E.
  - apply String.eqb_eq in E. subst r.
    destruct (nonempty _); [apply get_set_eq|apply get_delete_eq].
  - apply String.eqb_neq in E.
    destruct (nonempty _); [now apply get_set_ne|now apply get_delete_ne].
Qed.

Lemma leaveRoom_wf sid roomId userId st :
  JsMap.wf (activeUsers st) ->
  JsMap.wf (activeUsers (fst (leaveRoom sid roomId userId st))).
Proof.
  intros Hwf. unfold leaveRoom. cbn [activeUsers set_sio].
  destruct (Js.truthy roomId && Js.truthy userId && JsMap.has roomId (activeUsers st));
    [|exact Hwf].
  cbn [fst activeUsers set_activeUsers].
  destruct (nonempty _); [now apply wf_set|now apply wf_delete].
Qed.

Lemma nonempty_filter_not_nil {A : Type} (l : list A) :
  nonempty l = true -> l <> [].
Proof. now destruct l. Qed.

Lemma inv_leaveRoom sid roomId userId st :
  inv (activeUsers st) -> inv (activeUsers (fst (leaveRoom sid roomId userId st))).
Proof.
  intros Hinv. split; [apply leaveRoom_wf; apply Hinv|].
  intros r us. rewrite leaveRoom_get.
  destruct (_ && String.eqb roomId r); [|apply Hinv].
  cbv zeta. destruct (nonempty _) eqn:N; [|discriminate].
  intros [= <-]. split; [now apply nonempty_filter_not_nil|].
  apply RegisterFacts.filter_one_entry_per_user. now apply inv_entries.
Qed.

Lemma inv_disconnect sid st :
  inv (activeUsers st) -> inv (activeUsers (fst (disconnect sid st))).
Proof.
  intros Hinv. pose proof Hinv as [Hwf Hent].
  split; [now apply DisconnectFacts.disconnect_wf|].
  intros r us. rewrite DisconnectFacts.disconnect_activeUsers.
  rewrite DisconnectFacts.disconnect_loop_get by exact Hwf.
  destruct (JsMap.get r (activeUsers st)) as [users|] eqn:G; [|discriminate].
  destruct (List.find (on_socket sid) users); [|intros [= <-]; now apply (Hent r)].
  destruct (nonempty _) eqn:N; [|discriminate].
  intros [= <-]. split; [now apply nonempty_filter_not_nil|].
  apply RegisterFacts.filter_one_entry_per_user. now apply (Hent r).
Qed.

(** The handlers that leave the registry alone. *)
Lemma handle_registry_frame sid i now st :
  match i with
  | InJoinRoom _ | InLeaveRoom _ _ | InDisconnect => True
  | _ => activeUsers (fst (handle sid i now st)) = activeUsers st
  end.
Proof.
  destruct i; simpl; auto;
    unfold codeChange, cursorChange, offer, answer, iceCandidate, forward,
      retryConnection;
    repeat match goal with |- context [if ?b then _ else _] => destruct b end;
    reflexivity.
Qed.

Lemma inv_handle sid i now st :
  inv (activeUsers st) -> inv (activeUsers (fst (handle sid i now st))).
Proof.
  intros Hinv. pose proof (handle_registry_frame sid i now st) as Hframe.
  destruct i; try (rewrite Hframe; exact Hinv); simpl.
  - now apply inv_joinRoom.
  - now apply inv_leaveRoom.
  - now apply inv_disconnect.
Qed.

Lemma fire_all_activeUsers ts : forall st,
  activeUsers (fst (fire_all ts st)) = activeUsers st.
Proof.
  induction ts as [|t ts IH]; intros st; [reflexivity|].
  simpl. specialize (IH (fst (fire t st))). unfold fire in *. simpl in *.
  destruct (fire_all ts _) as [st2 e2]. simpl in *. exact IH.
Qed.

Lemma advance_activeUsers now st :
  activeUsers (fst (advance now st)) = activeUsers st.
Proof. unfold advance. now rewrite fire_all_activeUsers. Qed.

End RegistryFacts.

(** X1: the presence registry keeps its shape through every run of the
    hub: whatever events arrive, from whatever sockets, a registry that
    has no room twice, no room with an empty array and one entry per
    user in each room, is left in such a state.  The empty registry the
    hub starts with is in that shape. *)
Theorem registry_shape_is_kept (evs : list Hub.Arrival) (st : Hub.State) :
  Registry.inv (Hub.activeUsers st) ->
  Registry.inv (Hub.activeUsers (fst (Hub.run evs st))).
Proof.
  revert st. induction evs as [|a evs IH]; intros st Hinv; [exact Hinv|].
  rewrite DebounceFacts.run_cons. cbn [fst]. apply IH.
  apply RegistryFacts.inv_handle.
  now rewrite RegistryFacts.advance_activeUsers.
Qed.

Lemma registry_shape_is_kept_witness :
  Registry.inv
    (Hub.activeUsers
       (fst (Hub.run
               [Hub.mkArrival 0 "s1" (Hub.InJoinRoom (Scenario.join "r2" "u1" None));
                Hub.mkArrival 1 "s2" (Hub.InJoinRoom (Scenario.join "r2" "u2" None));
                Hub.mkArrival 2 "s3" (Hub.InJoinRoom (Scenario.join "r2" "u2" None));
                Hub.mkArrival 3 "s2" Hub.InDisconnect;
                Hub.mkArrival 4 "s1" (Hub.InLeaveRoom "r2" "u1")]
               Scenario.idle))).
Proof.
  apply registry_shape_is_kept. split; [constructor|]. intros r us H. discriminate H.
Defined.

(** X2: in a registry of that shape the de-duplicated view of a room is
    the room's array itself, so the participant count that is broadcast
    is the number of entries of the room. *)
Theorem view_is_the_array (au : Presence.ActiveUsers) (roomId : string) :
  Registry.inv au ->
  Presence.getUniqueActiveUsers roomId au = Presence.room_entries roomId au
  /\ (Js.truthy roomId = true ->
      Hub.updateParticipantCount roomId au
      = [Emit (IoTo roomId)
              (EvParticipantCountUpdate (length (Presence.room_entries roomId au)));
         Emit (IoTo roomId) (EvActiveUsers (Presence.room_entries roomId au))]).
Proof.
  intros Hinv.
  assert (Hview : Presence.getUniqueActiveUsers roomId au
                  = Presence.room_entries roomId au).
  { pose proof (RegistryFacts.inv_entries au roomId Hinv) as Hone.
    unfold Presence.getUniqueActiveUsers, JsMap.has, Presence.room_entries in *.
    destruct (JsMap.get roomId au); simpl; [|reflexivity].
    now apply RegisterFacts.view_of_one_entry_per_user. }
  split; [exact Hview|]. intros Hr.
  unfold Hub.updateParticipantCount. now rewrite Hr, Hview.
Qed.

Lemma view_is_the_array_witness :
  let au := Hub.activeUsers
              (fst (Hub.joinRoom "s2" (Scenario.join "r2" "u2" None) 1
                      (fst (Hub.joinRoom "s1" (Scenario.join "r2" "u1" None) 0
                              Scenario.idle)))) in
  Presence.getUniqueActiveUsers "r2" au = Presence.room_entries "r2" au
  /\ (Js.truthy "r2" = true ->
      Hub.updateParticipantCount "r2" au
      = [Emit (IoTo "r2")
              (EvParticipantCountUpdate (length (Presence.room_entries "r2" au)));
         Emit (IoTo "r2") (EvActiveUsers (Presence.room_entries "r2" au))]).
Proof.
  intros au. apply view_is_the_array.
  assert (Hau : au = [("r2", [Scenario.entry Scenario.alice "s1" true;
                              Scenario.entry Scenario.bob "s2" false])])
    by (vm_compute; reflexivity).
  rewrite Hau. split.
  - repeat constructor. simpl. tauto.
  - intros r us H. cbn [JsMap.get] in H.
    destruct (String.eqb "r2" r); [|discriminate H].
    injection H as <-. split; [discriminate|].
    repeat constructor; simpl; intuition discriminate.
Defined.

Module LeaveFacts.
Import Presence Hub Registry JsMapFacts.

Lemma filter_keeps_all {A : Type} (P : A -> bool) (l : list A) :
  (forall v, In v l -> P v = true) -> List.filter P l = l.
Proof.
  induction l as [|x l IH]; simpl; intros H; [reflexivity|].
  rewrite (H x) by now left. f_equal. apply IH. intros v Hv. apply H. now right.
Qed.

Lemma nonempty_false {A : Type} (l : list A) : nonempty l = false -> l = [].
Proof. now destruct l. Qed.

Lemma sio_joinRoom sid p now st :
  Js.truthy (jp_roomId p) = true -> Js.truthy (jp_userId p) = true ->
  sio (fst (joinRoom sid p now st)) = socket_join sid (jp_roomId p) (sio st).
Proof.
  intros Hr Hu. unfold joinRoom. rewrite Hr, Hu. simpl.
  destruct (User_findById (jp_userId p) (db st)).
  - destruct (Room_findById (jp_roomId p) (db st)); [|reflexivity].
    destruct (accessDenied _ _); [reflexivity|].
    rewrite JoinFacts.joinRoom_tail_fst.
    now destruct (isParticipant _ _).
  - now rewrite JoinFacts.joinRoom_tail_fst.
Qed.

Lemma Room_findById_update roomId (f : Room -> Room) d :
  (forall r, room_id (f r) = room_id r) ->
  Room_findById roomId (Room_update roomId f d) = f <$> Room_findById roomId d.
Proof.
  intros Hf. unfold Room_findById, Room_update. simpl.
  induction (rooms d) as [|r rs IH]; simpl; [reflexivity|].
  destruct (String.eqb (room_id r) roomId) eqn:E.
  - now rewrite Hf, E.
  - now rewrite E.
Qed.

Lemma User_findById_update userId roomId (f : Room -> Room) d :
  User_findById userId (Room_update roomId f d) = User_findById userId d.
Proof. reflexivity. Qed.

End LeaveFacts.

(** X3: a disconnection takes the socket's entries out of every room of
    the registry and keeps all the other entries, in their order; no
    entry of the socket is left anywhere. *)
Theorem disconnect_removes_the_socket_everywhere (sid : string) (st : Hub.State) :
  JsMap.wf (Hub.activeUsers st) ->
  forall r,
    Presence.room_entries r (Hub.activeUsers (fst (Hub.disconnect sid st)))
    = List.filter (Presence.stays sid) (Presence.room_entries r (Hub.activeUsers st))
    /\ forall u,
         In u (Presence.room_entries r (Hub.activeUsers (fst (Hub.disconnect sid st)))) ->
         ud_socketId u <> sid.
Proof.
  intros Hwf r.
  assert (Heq : Presence.room_entries r (Hub.activeUsers (fst (Hub.disconnect sid st)))
                = List.filter (Presence.stays sid)
                    (Presence.room_entries r (Hub.activeUsers st))).
  { rewrite DisconnectFacts.disconnect_activeUsers. unfold Presence.room_entries.
    rewrite DisconnectFacts.disconnect_loop_get by exact Hwf.
    destruct (JsMap.get r (Hub.activeUsers st)) as [users|] eqn:G; [|reflexivity].
    destruct (List.find (Presence.on_socket sid) users) eqn:F.
    - destruct (Presence.nonempty _) eqn:N; [reflexivity|].
      now rewrite (LeaveFacts.nonempty_false _ N).
    - symmetry. apply LeaveFacts.filter_keeps_all. intros v Hv.
      rewrite find_none_iff in F. unfold Presence.stays.
      specialize (F v Hv). unfold Presence.on_socket in F. now rewrite F. }
  split; [exact Heq|]. intros u Hin. rewrite Heq in Hin.
  apply filter_In in Hin. destruct Hin as [_ Hs]. unfold Presence.stays in Hs.
  now apply negb_true_iff, String.eqb_neq in Hs.
Qed.

Lemma disconnect_removes_the_socket_everywhere_witness :
  Presence.room_entries "r2" (Hub.activeUsers (fst (Hub.disconnect "s1" TwoTabs.state)))
  = List.filter (Presence.stays "s1")
      (Presence.room_entries "r2" (Hub.activeUsers TwoTabs.state))
  /\ forall u,
       In u (Presence.room_entries "r2"
               (Hub.activeUsers (fst (Hub.disconnect "s1" TwoTabs.state)))) ->
       ud_socketId u <> "s1".
Proof.
  apply (disconnect_removes_the_socket_everywhere "s1" TwoTabs.state).
  repeat constructor. simpl. tauto.
Defined.

(** X4: [leaveRoom] with a room id, a user id and a room that is in the
    registry removes the entries that carry both this user id and this
    socket, and no other; the other rooms and the store are untouched,
    and [userLeft] and the new count go to the room.  Without a user id,
    or for a room that is not in the registry, it changes nothing in the
    registry and sends nothing. *)
Theorem leaveRoom_removes_the_callers_entry
    (sid roomId userId : string) (st : Hub.State) :
  let guard := Js.truthy roomId && Js.truthy userId
               && JsMap.has roomId (Hub.activeUsers st) in
  let st' := fst (Hub.leaveRoom sid roomId userId st) in
  let effects := snd (Hub.leaveRoom sid roomId userId st) in
  Hub.db st' = Hub.db st
  /\ (forall r, r <> roomId ->
        Presence.room_entries r (Hub.activeUsers st')
        = Presence.room_entries r (Hub.activeUsers st))
  /\ (guard = true ->
      Presence.room_entries roomId (Hub.activeUsers st')
      = List.filter (fun u => negb (Registry.leaving sid userId u))
                    (Presence.room_entries roomId (Hub.activeUsers st))
      /\ effects
         = Emit (IoTo roomId)
             (EvUserLeft userId
                (Presence.getUniqueActiveUsers roomId (Hub.activeUsers st')))
           :: Hub.updateParticipantCount roomId (Hub.activeUsers st'))
  /\ (guard = false ->
      Hub.activeUsers st' = Hub.activeUsers st /\ effects = []).
Proof.
  intros guard st' effects. subst st' effects. split; [|split; [|split]].
  - unfold Hub.leaveRoom. now destruct (_ && _).
  - intros r Hne. unfold Presence.room_entries.
    rewrite RegistryFacts.leaveRoom_get.
    apply not_eq_sym, String.eqb_neq in Hne. now rewrite Hne, andb_false_r.
  - intros Hg. split.
    + unfold Presence.room_entries at 1. rewrite RegistryFacts.leaveRoom_get.
      fold guard. rewrite Hg, String.eqb_refl. cbv zeta. cbn [andb].
      destruct (Presence.nonempty _) eqn:N; [reflexivity|].
      now rewrite (LeaveFacts.nonempty_false _ N).
    + unfold Hub.leaveRoom. cbn [Hub.activeUsers Hub.set_sio]. fold guard.
      rewrite Hg. reflexivity.
  - intros Hg. unfold Hub.leaveRoom. cbn [Hub.activeUsers Hub.set_sio].
    fold guard. rewrite Hg. split; reflexivity.
Qed.

Lemma leaveRoom_removes_the_callers_entry_witness :
  Presence.room_entries "r2" (Hub.activeUsers (fst (Hub.leaveRoom "s1" "r2" "u2" TwoTabs.state)))
  = List.filter (fun u => negb (Registry.leaving "s1" "u2" u))
                (Presence.room_entries "r2" (Hub.activeUsers TwoTabs.state))
  /\ Hub.activeUsers (fst (Hub.leaveRoom "s1" "r2" EmptyString TwoTabs.state))
     = Hub.activeUsers TwoTabs.state.
Proof.
  destruct (leaveRoom_removes_the_callers_entry "s1" "r2" "u2" TwoTabs.state)
    as (_ & _ & Hyes & _).
  destruct (leaveRoom_removes_the_callers_entry "s1" "r2" EmptyString TwoTabs.state)
    as (_ & _ & _ & Hno).
  split.
  - apply Hyes. vm_compute. reflexivity.
  - apply Hno. vm_compute. reflexivity.
Defined.

(** X5: [joinRoom] registers nobody and writes nothing to the store
    unless the request names a room and a user, both are found, and the
    access check passes; in that one case the registry is the old one
    after [register], and in all the others the registry and the store
    are as before and no [userJoined] is sent to the room. *)
Theorem joinRoom_registers_only_when_allowed
    (sid : string) (p : Hub.JoinPayload) (now : Z) (st : Hub.State) :
  let st' := fst (Hub.joinRoom sid p now st) in
  (exists user room,
     Js.truthy (Hub.jp_roomId p) = true /\ Js.truthy (Hub.jp_userId p) = true
     /\ User_findById (Hub.jp_userId p) (Hub.db st) = Some user
     /\ Room_findById (Hub.jp_roomId p) (Hub.db st) = Some room
     /\ Hub.accessDenied room (Hub.jp_userId p) = false
     /\ Hub.activeUsers st'
        = Presence.register (Hub.jp_roomId p) (Hub.jp_userId p)
            (Hub.mkEntry user sid room (Hub.jp_userId p)) (Hub.activeUsers st))
  \/ (Hub.activeUsers st' = Hub.activeUsers st
      /\ Hub.db st' = Hub.db st
      /\ forall u users,
           ~ In (Emit (IoTo (Hub.jp_roomId p)) (EvUserJoined u users))
                (snd (Hub.joinRoom sid p now st))).
Proof.
  intros st'. subst st'.
  destruct (RegistryFacts.joinRoom_outcomes sid p now st)
    as [(user & room & Hr & Hu & Huser & Hroom & Hpass)|Hno].
  - left. exists user, room. repeat split; auto.
    now apply JoinFacts.joinRoom_allowed_state.
  - right. exact Hno.
Qed.

(** X6: [joinRoom] puts the socket in the socket.io room before it looks
    up the user and the room, and nothing takes it out again: whatever
    the outcome, the access check included, a request with a room id and
    a user id leaves the caller's socket in the room, where it receives
    the code updates the others send. *)
Theorem joinRoom_subscribes_before_the_check
    (sid : string) (p : Hub.JoinPayload) (now : Z) (st : Hub.State) :
  Js.truthy (Hub.jp_roomId p) = true ->
  Js.truthy (Hub.jp_userId p) = true ->
  let st' := fst (Hub.joinRoom sid p now st) in
  sid ∈ members (Hub.jp_roomId p) (Hub.sio st')
  /\ forall other c l t,
       other <> sid ->
       Relay.delivered sid other (Hub.sio st')
         (snd (Hub.codeChange other (Hub.jp_roomId p) c l t st'))
       = [EvCodeUpdate c l].
Proof.
  intros Hr Hu st'. subst st'.
  assert (Hin : sid ∈ members (Hub.jp_roomId p)
                        (Hub.sio (fst (Hub.joinRoom sid p now st)))).
  { rewrite LeaveFacts.sio_joinRoom by assumption.
    assert (E : socket_join sid (Hub.jp_roomId p) (Hub.sio st) !! Hub.jp_roomId p
                = Some ({[sid]} ∪ members (Hub.jp_roomId p) (Hub.sio st)))
      by apply lookup_insert_eq.
    unfold members at 1. rewrite E. simpl. set_solver. }
  split; [exact Hin|]. intros other c l t Hne.
  assert (Heff : forall s, snd (Hub.codeChange other (Hub.jp_roomId p) c l t s)
                           = [Emit (SocketTo (Hub.jp_roomId p)) (EvCodeUpdate c l)]).
  { intros s. unfold Hub.codeChange. now destruct (_ && _). }
  rewrite Heff. simpl. rewrite bool_decide_eq_true_2; [reflexivity|].
  set_solver.
Qed.

Lemma joinRoom_subscribes_before_the_check_witness :
  let p := Scenario.join "r1" "u2" None in
  let st' := fst (Hub.joinRoom "s2" p 0 Scenario.idle) in
  snd (Hub.joinRoom "s2" p 0 Scenario.idle)
  = [Emit ToSocket (EvError "This room requires a password to join")]
  /\ "s2" ∈ members "r1" (Hub.sio st')
  /\ Relay.delivered "s2" "s1" (Hub.sio st')
       (snd (Hub.codeChange "s1" "r1" "secret" "javascript" 5 st'))
     = [EvCodeUpdate "secret" "javascript"].
Proof.
  intros p st'.
  destruct (joinRoom_subscribes_before_the_check "s2" p 0 Scenario.idle
              eq_refl eq_refl) as [Hin Hhear].
  split; [vm_compute; reflexivity|]. split; [exact Hin|].
  apply Hhear. discriminate.
Defined.

Module StoreFacts.
Import Hub.

Lemma Room_findById_id roomId d room :
  Room_findById roomId d = Some room -> room_id room = roomId.
Proof.
  unfold Room_findById. intros H. apply find_some in H.
  now apply String.eqb_eq.
Qed.

Lemma isParticipant_added ps userId now :
  existsb (fun q => ref_is (p_user q) userId) (ps ++ [mkParticipant (Some userId) now])
  = true.
Proof. rewrite existsb_app. simpl. now rewrite String.eqb_refl, orb_true_r. Qed.

Section Allowed_caller.
Variables (sid : string) (p : JoinPayload) (now : Z) (st : State)
          (user : User) (room : Room).
Hypothesis Hroom_id : Js.truthy (jp_roomId p) = true.
Hypothesis Huser_id : Js.truthy (jp_userId p) = true.
Hypothesis Huser : User_findById (jp_userId p) (db st) = Some user.
Hypothesis Hroom : Room_findById (jp_roomId p) (db st) = Some room.
Hypothesis Hpass : accessDenied room (jp_userId p) = false.

Lemma joinRoom_allowed_db :
  db (fst (joinRoom sid p now st))
  = Room_update (jp_roomId p) (with_lastActivity now)
      (if isParticipant room (jp_userId p) then db st
       else Room_update (jp_roomId p)
              (with_participants
                 (participants room ++ [mkParticipant (Some (jp_userId p)) now]))
              (db st)).
Proof.
  unfold joinRoom. rewrite Hroom_id, Huser_id. simpl.
  rewrite Huser, Hroom, Hpass. rewrite JoinFacts.joinRoom_tail_fst.
  now destruct (isParticipant room (jp_userId p)).
Qed.

Lemma joinRoom_allowed_room :
  Room_findById (jp_roomId p) (db (fst (joinRoom sid p now st)))
  = Some (with_lastActivity now
            (if isParticipant room (jp_userId p) then room
             else with_participants
                    (participants room ++ [mkParticipant (Some (jp_userId p)) now])
                    room)).
Proof.
  rewrite joinRoom_allowed_db.
  rewrite LeaveFacts.Room_findById_update by reflexivity.
  destruct (isParticipant room (jp_userId p)).
  - now rewrite Hroom.
  - rewrite LeaveFacts.Room_findById_update by reflexivity. now rewrite Hroom.
Qed.

Lemma joinRoom_allowed_user :
  User_findById (jp_userId p) (db (fst (joinRoom sid p now st))) = Some user.
Proof.
  rewrite joinRoom_allowed_db.
  now destruct (isParticipant room (jp_userId p)).
Qed.

End Allowed_caller.

End StoreFacts.

(** X7: a [joinRoom] that passes the access check leaves the caller in
    the participants of the stored room: appended, with the time of the
    request, when the caller was not there, and not touched otherwise;
    the room's [lastActivity] is the time of the request.  A later
    [joinRoom] of the same user for the same room, from any socket, finds
    the caller there and leaves the participants as they are. *)
Theorem joinRoom_records_the_participant_once
    (sid : string) (p : Hub.JoinPayload) (now : Z) (st : Hub.State)
    (user : User) (room : Room) :
  Js.truthy (Hub.jp_roomId p) = true ->
  Js.truthy (Hub.jp_userId p) = true ->
  User_findById (Hub.jp_userId p) (Hub.db st) = Some user ->
  Room_findById (Hub.jp_roomId p) (Hub.db st) = Some room ->
  Hub.accessDenied room (Hub.jp_userId p) = false ->
  let st1 := fst (Hub.joinRoom sid p now st) in
  exists room1,
    Room_findById (Hub.jp_roomId p) (Hub.db st1) = Some room1
    /\ participants room1
       = (if isParticipant room (Hub.jp_userId p) then participants room
          else participants room ++ [mkParticipant (Some (Hub.jp_userId p)) now])
    /\ lastActivity room1 = now
    /\ isParticipant room1 (Hub.jp_userId p) = true
    /\ forall sid2 now2,
       exists room2,
         Room_findById (Hub.jp_roomId p) (Hub.db (fst (Hub.joinRoom sid2 p now2 st1)))
         = Some room2
         /\ participants room2 = participants room1.
Proof.
  intros Hr Hu Huser Hroom Hpass st1. subst st1.
  pose proof (StoreFacts.joinRoom_allowed_room sid p now st user room
                Hr Hu Huser Hroom Hpass) as Hroom1.
  pose proof (StoreFacts.joinRoom_allowed_user sid p now st user room
                Hr Hu Huser Hroom Hpass) as Huser1.
  set (room1 := with_lastActivity now
                  (if isParticipant room (Hub.jp_userId p) then room
                   else with_participants
                          (participants room
                           ++ [mkParticipant (Some (Hub.jp_userId p)) now]) room))
    in Hroom1.
  assert (Hps : participants room1
                = (if isParticipant room (Hub.jp_userId p) then participants room
                   else participants room
                        ++ [mkParticipant (Some (Hub.jp_userId p)) now])).
  { unfold room1. now destruct (isParticipant room (Hub.jp_userId p)). }
  assert (Hin : isParticipant room1 (Hub.jp_userId p) = true).
  { unfold isParticipant at 1. rewrite Hps.
    destruct (isParticipant room (Hub.jp_userId p)) eqn:E; [exact E|].
    apply StoreFacts.isParticipant_added. }
  exists room1. split; [exact Hroom1|]. split; [exact Hps|].
  split; [reflexivity|]. split; [exact Hin|].
  intros sid2 now2.
  assert (Hpass1 : Hub.accessDenied room1 (Hub.jp_userId p) = false).
  { unfold Hub.accessDenied. rewrite Hin. cbn [negb]. now rewrite !andb_false_r. }
  eexists. split.
  - apply (StoreFacts.joinRoom_allowed_room sid2 p now2 _ user room1
             Hr Hu Huser1 Hroom1 Hpass1).
  - now rewrite Hin.
Qed.

Lemma joinRoom_records_the_participant_once_witness :
  let p := Scenario.join "r2" "u2" None in
  let st1 := fst (Hub.joinRoom "s2" p 7 Scenario.idle) in
  exists room1,
    Room_findById "r2" (Hub.db st1) = Some room1
    /\ participants room1
       = (if isParticipant Scenario.r2 "u2" then participants Scenario.r2
          else participants Scenario.r2 ++ [mkParticipant (Some "u2") 7])
    /\ lastActivity room1 = 7%Z
    /\ isParticipant room1 "u2" = true
    /\ forall sid2 now2,
       exists room2,
         Room_findById "r2" (Hub.db (fst (Hub.joinRoom sid2 p now2 st1))) = Some room2
         /\ participants room2 = participants room1.
Proof.
  intros p st1.
  apply (joinRoom_records_the_participant_once "s2" p 7 Scenario.idle
           Scenario.bob Scenario.r2); reflexivity.
Defined.

Module PendingFacts.
Import Hub Pending.

Lemma filter_nil {A : Type} (P : A -> bool) (l : list A) :
  (forall x, In x l -> P x = false) -> List.filter P l = [].
Proof.
  induction l as [|x l IH]; simpl; intros H; [reflexivity|].
  rewrite (H x) by now left. apply IH. intros y Hy. apply H. now right.
Qed.

Lemma filter_filter_keep {A : Type} (P Q : A -> bool) (l : list A) :
  (forall x, In x l -> P x = true -> Q x = true) ->
  List.filter P (List.filter Q l) = List.filter P l.
Proof.
  induction l as [|x l IH]; simpl; intros H; [reflexivity|].
  assert (IH' := IH (fun y Hy => H y (or_intror Hy))).
  destruct (Q x) eqn:EQ; simpl.
  - now rewrite IH'.
  - rewrite IH'. destruct (P x) eqn:EP; [|reflexivity].
    rewrite (H x (or_introl eq_refl) EP) in EQ. discriminate.
Qed.

Lemma NoDup_map_filter {A B : Type} (f : A -> B) (P : A -> bool) (l : list A) :
  List.NoDup (map f l) -> List.NoDup (map f (List.filter P l)).
Proof.
  induction l as [|x l IH]; simpl; intros H; [constructor|].
  inversion H as [|? ? Hnotin Hnd]; subst.
  destruct (P x); simpl; [|now apply IH].
  constructor; [|now apply IH].
  intros Hin. apply Hnotin. apply in_map_iff in Hin.
  destruct Hin as (y & Hy & Hin). apply filter_In in Hin.
  apply in_map_iff. exists y. tauto.
Qed.

Lemma at_most_one {A B : Type} (f : A -> B) (P : A -> bool) (l : list A) :
  List.NoDup (map f l) ->
  (forall x y, In x l -> In y l -> P x = true -> P y = true -> f x = f y) ->
  length (List.filter P l) <= 1.
Proof.
  induction l as [|x l IH]; simpl; intros Hnd Hsame; [lia|].
  inversion Hnd as [|? ? Hnotin Hnd']; subst.
  destruct (P x) eqn:EP.
  - rewrite filter_nil; [simpl; lia|].
    intros y Hy. destruct (P y) eqn:EPy; [|reflexivity].
    exfalso. apply Hnotin. rewrite (Hsame x y) by auto.
    now apply in_map.
  - apply IH; [exact Hnd'|]. intros a b Ha Hb. apply Hsame; now right.
Qed.

Lemma clearTimeout_In tid ts t :
  In t (clearTimeout tid ts) <-> In t ts /\ t_id t <> tid.
Proof.
  unfold clearTimeout. rewrite filter_In, negb_true_iff, Nat.eqb_neq. tauto.
Qed.

(** The timers that [saveCodeToDatabase] keeps before it adds its own. *)
Lemma kept_timers roomId st t :
  In t (match saveTimeouts st !! roomId with
        | Some tid => clearTimeout tid (timers st)
        | None => timers st
        end) ->
  In t (timers st).
Proof.
  destruct (saveTimeouts st !! roomId); [|auto].
  intros H. now apply clearTimeout_In in H.
Qed.

Lemma pendingFor_save_same roomId c l now st :
  timers_wf st ->
  pendingFor roomId (saveCodeToDatabase roomId c l now st)
  = [mkTimer (nextTimer st) (now + quietWindow) roomId c l].
Proof.
  intros (_ & _ & _ & Hreg & _).
  unfold pendingFor, saveCodeToDatabase. cbn [timers].
  rewrite List.filter_app. simpl. rewrite String.eqb_refl.
  rewrite filter_nil; [reflexivity|].
  intros t Ht. destruct (String.eqb (t_roomId t) roomId) eqn:E; [|reflexivity].
  exfalso. apply String.eqb_eq in E.
  destruct (saveTimeouts st !! roomId) as [tid|] eqn:S.
  - apply clearTimeout_In in Ht. destruct Ht as [Ht Hne].
    specialize (Hreg t Ht). rewrite E, S in Hreg. congruence.
  - specialize (Hreg t Ht). rewrite E, S in Hreg. discriminate.
Qed.

Lemma pendingFor_save_other roomId c l now st r :
  timers_wf st -> r <> roomId ->
  pendingFor r (saveCodeToDatabase roomId c l now st) = pendingFor r st.
Proof.
  intros (_ & _ & _ & _ & Hown) Hne.
  unfold pendingFor, saveCodeToDatabase. cbn [timers].
  rewrite List.filter_app. simpl.
  apply not_eq_sym, String.eqb_neq in Hne as Hne'. rewrite Hne', app_nil_r.
  destruct (saveTimeouts st !! roomId) as [tid|] eqn:S; [|reflexivity].
  apply filter_filter_keep. intros t Ht E. apply String.eqb_eq in E.
  apply negb_true_iff, Nat.eqb_neq. intros Hid.
  apply Hne. rewrite <- E. symmetry. exact (Hown roomId tid t S Ht Hid).
Qed.

Lemma pendingFor_save_fresh roomId c l now st :
  pendingFor roomId st = [] ->
  pendingFor roomId (saveCodeToDatabase roomId c l now st)
  = [mkTimer (nextTimer st) (now + quietWindow) roomId c l].
Proof.
  intros Hnone. unfold pendingFor, saveCodeToDatabase. cbn [timers].
  rewrite List.filter_app. simpl. rewrite String.eqb_refl.
  rewrite filter_nil; [reflexivity|].
  intros t Ht. apply kept_timers in Ht.
  destruct (String.eqb (t_roomId t) roomId) eqn:E; [|reflexivity].
  assert (Hin : In t (pendingFor roomId st)) by (apply filter_In; now split).
  rewrite Hnone in Hin. destruct Hin.
Qed.

Lemma pendingFor_save_unregistered roomId c l now st :
  saveTimeouts st !! roomId = None ->
  pendingFor roomId (saveCodeToDatabase roomId c l now st)
  = pendingFor roomId st ++ [mkTimer (nextTimer st) (now + quietWindow) roomId c l].
Proof.
  intros Hnone. unfold pendingFor, saveCodeToDatabase. cbn [timers].
  rewrite Hnone, List.filter_app. simpl. now rewrite String.eqb_refl.
Qed.

Lemma timers_wf_save roomId c l now st :
  timers_wf st -> timers_wf (saveCodeToDatabase roomId c l now st).
Proof.
  intros (Hlt & Hreglt & Hnd & Hreg & Hown).
  unfold timers_wf, saveCodeToDatabase.
  cbn [timers nextTimer saveTimeouts].
  split; [|split; [|split; [|split]]].
  - intros t Ht. apply in_app_or in Ht. destruct Ht as [Ht|[<-|[]]].
    + apply kept_timers in Ht. specialize (Hlt t Ht). lia.
    + simpl. lia.
  - intros r tid H. destruct (String.eqb_spec roomId r) as [->|Hne].
    + rewrite lookup_insert_eq in H. injection H as <-. lia.
    + rewrite lookup_insert_ne in H by exact Hne. specialize (Hreglt r tid H). lia.
  - rewrite map_app. apply List.NoDup_app.
    + destruct (saveTimeouts st !! roomId); [|exact Hnd].
      now apply NoDup_map_filter.
    + repeat constructor. simpl. tauto.
    + intros a Ha [<-|[]]. apply in_map_iff in Ha.
      destruct Ha as (t & Hid & Ht). apply kept_timers in Ht.
      specialize (Hlt t Ht). simpl in Hid. lia.
  - intros t Ht. apply in_app_or in Ht. destruct Ht as [Ht|[<-|[]]].
    + destruct (String.eqb_spec roomId (t_roomId t)) as [E|Hne].
      * exfalso. destruct (saveTimeouts st !! roomId) as [tid|] eqn:S.
        -- apply clearTimeout_In in Ht. destruct Ht as [Ht Hid].
           specialize (Hreg t Ht). rewrite <- E, S in Hreg. congruence.
        -- specialize (Hreg t Ht). rewrite <- E, S in Hreg. discriminate.
      * rewrite lookup_insert_ne by exact Hne. apply Hreg.
        now apply kept_timers in Ht.
    + simpl. apply lookup_insert_eq.
  - intros r tid t H Ht Hid. apply in_app_or in Ht.
    destruct (String.eqb_spec roomId r) as [->|Hne].
    + rewrite lookup_insert_eq in H. injection H as <-.
      destruct Ht as [Ht|[<-|[]]]; [|reflexivity].
      apply kept_timers in Ht. specialize (Hlt t Ht). lia.
    + rewrite lookup_insert_ne in H by exact Hne.
      destruct Ht as [Ht|[<-|[]]].
      * apply kept_timers in Ht. exact (Hown r tid t H Ht Hid).
      * simpl in Hid. specialize (Hreglt r tid H). lia.
Qed.

Lemma timers_wf_one_per_room st r :
  timers_wf st -> length (pendingFor r st) <= 1.
Proof.
  intros (_ & _ & Hnd & Hreg & _). unfold pendingFor.
  apply (at_most_one t_id); [exact Hnd|].
  intros x y Hx Hy Ex Ey. apply String.eqb_eq in Ex, Ey.
  pose proof (Hreg x Hx) as Rx. pose proof (Hreg y Hy) as Ry.
  rewrite Ex in Rx. rewrite Ey in Ry. congruence.
Qed.

(** The handlers other than [codeChange] leave the timer table alone. *)
Lemma handle_timers_frame sid i now st :
  (forall roomId c l, i <> InCodeChange roomId c l) ->
  saveTimeouts (fst (handle sid i now st)) = saveTimeouts st
  /\ timers (fst (handle sid i now st)) = timers st
  /\ nextTimer (fst (handle sid i now st)) = nextTimer st.
Proof.
  intros Hi. destruct i; cbn [handle].
  - unfold joinRoom.
    destruct (negb (Js.truthy (jp_roomId p)) || negb (Js.truthy (jp_userId p)));
      [now auto|].
    cbn zeta.
    destruct (User_findById _ _).
    + destruct (Room_findById _ _); [|now auto].
      destruct (accessDenied _ _); [now auto|].
      rewrite JoinFacts.joinRoom_tail_fst.
      now destruct (isParticipant _ _).
    + now rewrite JoinFacts.joinRoom_tail_fst.
  - exfalso. now eapply Hi.
  - unfold cursorChange. now destruct (_ && _).
  - unfold leaveRoom. now destruct (_ && _).
  - unfold offer, forward. now destruct (_ && _).
  - unfold answer, forward. now destruct (_ && _).
  - unfold iceCandidate, forward. now destruct (_ && _).
  - unfold retryConnection. now destruct (_ && _).
  - unfold disconnect. cbn [activeUsers set_sio].
    now destruct (disconnect_loop _ _ _).
Qed.

Lemma timers_wf_frame st st' :
  saveTimeouts st' = saveTimeouts st -> timers st' = timers st ->
  nextTimer st' = nextTimer st -> timers_wf st -> timers_wf st'.
Proof. unfold timers_wf. intros -> -> ->. auto. Qed.

Lemma timers_wf_handle sid i now st :
  timers_wf st -> timers_wf (fst (handle sid i now st)).
Proof.
  intros Hwf.
  assert (Hcases : (exists roomId c l, i = InCodeChange roomId c l)
                   \/ forall roomId c l, i <> InCodeChange roomId c l).
  { destruct i; try (right; discriminate). left. eauto. }
  destruct Hcases as [(roomId & c & l & ->)|Hother].
  - cbn [handle]. unfold codeChange.
    destruct (_ && _); [|exact Hwf]. now apply timers_wf_save.
  - destruct (handle_timers_frame sid i now st Hother) as (H1 & H2 & H3).
    now apply (timers_wf_frame st).
Qed.

Lemma codeWrites_fire_all ts : forall st,
  codeWrites (snd (fire_all ts st))
  = map (fun t => (t_roomId t, t_code t, t_language t)) ts.
Proof.
  induction ts as [|t ts IH]; intros st; [reflexivity|].
  simpl. destruct (fire_all ts _) as [st2 e2] eqn:E. simpl.
  specialize (IH (fst (fire t st))). unfold fire in IH at 1. simpl in IH.
  rewrite E in IH. simpl in IH. now rewrite IH.
Qed.

Lemma advance_writes_due now st t :
  In t (timers st) -> is_due now t = true ->
  In (t_roomId t, t_code t, t_language t) (codeWrites (snd (advance now st))).
Proof.
  intros Ht Hdue. unfold advance. rewrite codeWrites_fire_all.
  apply (in_map (fun t => (t_roomId t, t_code t, t_language t))).
  apply filter_In. now split.
Qed.

End PendingFacts.

(** X8: under the shape of the timer table that the handlers keep, a
    [codeChange] with a room id and code leaves exactly one write pending
    for its room, its own, due one quiet window after the change, and
    leaves the pending writes of every other room as they were; the
    table keeps its shape. *)
Theorem codeChange_replaces_the_rooms_pending_write
    (sid roomId c l : string) (now : Z) (st : Hub.State) :
  Js.truthy roomId = true -> Js.truthy c = true ->
  Pending.timers_wf st ->
  let st' := fst (Hub.codeChange sid roomId c l now st) in
  Pending.timers_wf st'
  /\ Pending.pendingFor roomId st'
     = [Hub.mkTimer (Hub.nextTimer st) (now + Hub.quietWindow) roomId c l]
  /\ forall r, r <> roomId -> Pending.pendingFor r st' = Pending.pendingFor r st.
Proof.
  intros Hr Hc Hwf st'. subst st'. unfold Hub.codeChange. rewrite Hr, Hc.
  cbn [andb fst]. split; [|split].
  - now apply PendingFacts.timers_wf_save.
  - now apply PendingFacts.pendingFor_save_same.
  - intros r Hne. now apply PendingFacts.pendingFor_save_other.
Qed.

Lemma codeChange_replaces_the_rooms_pending_write_witness :
  let st1 := fst (Hub.codeChange "s1" "r1" "a = 1" "python" 0 Scenario.idle) in
  let st2 := fst (Hub.codeChange "s2" "r2" "let x" "javascript" 10 st1) in
  let st3 := fst (Hub.codeChange "s1" "r1" "a = 12" "python" 20 st2) in
  Pending.pendingFor "r1" st3 = [Hub.mkTimer 2 320 "r1" "a = 12" "python"]
  /\ Pending.pendingFor "r2" st3 = Pending.pendingFor "r2" st2.
Proof.
  intros st1 st2 st3.
  assert (Hidle : Pending.timers_wf Scenario.idle).
  { unfold Pending.timers_wf. simpl. split; [|split; [|split; [|split]]].
    - intros t [].
    - intros r tid H. rewrite lookup_empty in H. discriminate.
    - constructor.
    - intros t [].
    - intros r tid t _ []. }
  destruct (codeChange_replaces_the_rooms_pending_write
              "s1" "r1" "a = 1" "python" 0 Scenario.idle eq_refl eq_refl Hidle)
    as (Hwf1 & _ & _).
  destruct (codeChange_replaces_the_rooms_pending_write
              "s2" "r2" "let x" "javascript" 10 st1 eq_refl eq_refl Hwf1)
    as (Hwf2 & _ & _).
  destruct (codeChange_replaces_the_rooms_pending_write
              "s1" "r1" "a = 12" "python" 20 st2 eq_refl eq_refl Hwf2)
    as (_ & Hsame & Hother).
  split; [exact Hsame|]. apply Hother. discriminate.
Defined.

(** X9: every handler of the hub keeps the shape of the timer table, and
    in a table of that shape no room has more than one write pending. *)
Theorem handlers_keep_one_pending_write_per_room
    (sid : string) (i : Hub.Input) (now : Z) (st : Hub.State) :
  Pending.timers_wf st ->
  Pending.timers_wf (fst (Hub.handle sid i now st))
  /\ forall r, length (Pending.pendingFor r (fst (Hub.handle sid i now st))) <= 1.
Proof.
  intros Hwf.
  assert (Hwf' := PendingFacts.timers_wf_handle sid i now st Hwf).
  split; [exact Hwf'|]. intros r. now apply PendingFacts.timers_wf_one_per_room.
Qed.

Lemma handlers_keep_one_pending_write_per_room_witness :
  length (Pending.pendingFor "r1"
            (fst (Hub.handle "s1" (Hub.InCodeChange "r1" "a = 1" "python") 0
                    Scenario.idle))) <= 1.
Proof.
  refine (proj2 (handlers_keep_one_pending_write_per_room
                   "s1" (Hub.InCodeChange "r1" "a = 1" "python") 0 Scenario.idle _)
                "r1").
  unfold Pending.timers_wf. simpl. split; [|split; [|split; [|split]]].
  - intros t [].
  - intros r tid H. rewrite lookup_empty in H. discriminate.
  - constructor.
  - intros t [].
  - intros r tid t _ [].
Defined.

(** X10: the timer callback awaits the update of the room document
    before it deletes the room's entry of [saveTimeouts].  A change of
    the same room that is handled in between registers its own timer, and
    the callback then deletes that registration; the change after it
    finds no entry, cancels nothing, and both writes stay pending: the
    earlier one is performed although a later change followed it within
    the quiet window.  When nothing is handled in between, the two steps
    of the callback are the single step [Hub.fire] on the table without
    the timer that runs. *)
Theorem change_during_the_write_escapes_the_debounce
    (t : Hub.Timer) (sid c1 l1 c2 l2 : string) (now1 now2 : Z) (st : Hub.State) :
  let r := Hub.t_roomId t in
  Js.truthy r = true -> Js.truthy c1 = true -> Js.truthy c2 = true ->
  Pending.pendingFor r st = [t] ->
  let st1 := fst (Pending.callback_start t st) in
  let st2 := fst (Hub.codeChange sid r c1 l1 now1 st1) in
  let st3 := Pending.callback_finish t st2 in
  let st4 := fst (Hub.codeChange sid r c2 l2 now2 st3) in
  Pending.pendingFor r st4
  = [Hub.mkTimer (Hub.nextTimer st) (now1 + Hub.quietWindow) r c1 l1;
     Hub.mkTimer (S (Hub.nextTimer st)) (now2 + Hub.quietWindow) r c2 l2]
  /\ (forall T, (now1 + Hub.quietWindow <= T)%Z ->
        In (r, c1, l1) (Hub.codeWrites (snd (Hub.advance T st4))))
  /\ Hub.fire t (Hub.mkState (Hub.activeUsers st) (Hub.saveTimeouts st)
                   (Hub.clearTimeout (Hub.t_id t) (Hub.timers st))
                   (Hub.nextTimer st) (Hub.sio st) (Hub.db st))
     = (Pending.callback_finish t (fst (Pending.callback_start t st)),
        snd (Pending.callback_start t st)).
Proof.
  intros r Hr Hc1 Hc2 Hpending st1 st2 st3 st4.
  assert (H1 : Pending.pendingFor r st1 = []).
  { unfold st1, Pending.pendingFor, Pending.callback_start. cbn [fst Hub.timers].
    unfold Hub.clearTimeout.
    apply PendingFacts.filter_nil. intros x Hx.
    apply filter_In in Hx. destruct Hx as [Hx Hid].
    destruct (String.eqb (Hub.t_roomId x) r) eqn:E; [|reflexivity].
    assert (Hin : In x (Pending.pendingFor r st))
      by (apply filter_In; now split).
    rewrite Hpending in Hin. destruct Hin as [<-|[]].
    now rewrite Nat.eqb_refl in Hid. }
  assert (H2 : Pending.pendingFor r st2
               = [Hub.mkTimer (Hub.nextTimer st) (now1 + Hub.quietWindow) r c1 l1]).
  { unfold st2, Hub.codeChange. rewrite Hr, Hc1. cbn [andb fst].
    now rewrite PendingFacts.pendingFor_save_fresh by exact H1. }
  assert (Hnext : Hub.nextTimer st3 = S (Hub.nextTimer st)).
  { unfold st3, st2, Hub.codeChange. rewrite Hr, Hc1. reflexivity. }
  assert (H3 : Pending.pendingFor r st3 = Pending.pendingFor r st2) by reflexivity.
  assert (Hnone : Hub.saveTimeouts st3 !! r = None)
    by (unfold st3, Pending.callback_finish; cbn [Hub.saveTimeouts];
        apply lookup_delete_eq).
  assert (H4 : Pending.pendingFor r st4
               = [Hub.mkTimer (Hub.nextTimer st) (now1 + Hub.quietWindow) r c1 l1;
                  Hub.mkTimer (S (Hub.nextTimer st)) (now2 + Hub.quietWindow) r c2 l2]).
  { unfold st4, Hub.codeChange. rewrite Hr, Hc2. cbn [andb fst].
    rewrite PendingFacts.pendingFor_save_unregistered by exact Hnone.
    now rewrite H3, H2, Hnext. }
  split; [exact H4|]. split.
  - intros T HT.
    apply (PendingFacts.advance_writes_due T st4
             (Hub.mkTimer (Hub.nextTimer st) (now1 + Hub.quietWindow) r c1 l1)).
    + assert (Hin : In (Hub.mkTimer (Hub.nextTimer st) (now1 + Hub.quietWindow) r c1 l1)
                       (Pending.pendingFor r st4))
        by (rewrite H4; now left).
      apply filter_In in Hin. tauto.
    + unfold Hub.is_due. simpl. now apply Z.leb_le.
  - reflexivity.
Qed.

Lemma change_during_the_write_escapes_the_debounce_witness :
  let t := Hub.mkTimer 0 300 "r2" "let x = 1" "javascript" in
  let st := fst (Hub.codeChange "s1" "r2" "let x = 1" "javascript" 0 Scenario.idle) in
  let st1 := fst (Pending.callback_start t st) in
  let st2 := fst (Hub.codeChange "s1" "r2" "let x = 12" "javascript" 301 st1) in
  let st3 := Pending.callback_finish t st2 in
  let st4 := fst (Hub.codeChange "s1" "r2" "let x = 123" "javascript" 310 st3) in
  Pending.pendingFor "r2" st4
  = [Hub.mkTimer 1 601 "r2" "let x = 12" "javascript";
     Hub.mkTimer 2 610 "r2" "let x = 123" "javascript"]
  /\ In ("r2", "let x = 12", "javascript") (Hub.codeWrites (snd (Hub.advance 700 st4))).
Proof.
  intros t st st1 st2 st3 st4.
  destruct (change_during_the_write_escapes_the_debounce
              t "s1" "let x = 12" "javascript" "let x = 123" "javascript" 301 310 st
              eq_refl eq_refl eq_refl eq_refl) as (Hpending & Hwritten & _).
  split; [exact Hpending|]. apply Hwritten. vm_compute. discriminate.
Defined.

Module SnapshotFacts.
Import Hub Debounce.

Lemma Room_findById_update_other roomId r (f : Room -> Room) d :
  (forall x, room_id (f x) = room_id x) -> r <> roomId ->
  Room_findById r (Room_update roomId f d) = Room_findById r d.
Proof.
  intros Hf Hne. unfold Room_findById, Room_update. simpl.
  induction (rooms d) as [|x xs IH]; simpl; [reflexivity|].
  destruct (String.eqb (room_id x) roomId) eqn:E.
  - rewrite Hf. apply String.eqb_eq in E.
    assert (En : String.eqb (room_id x) r = false)
      by (apply String.eqb_neq; congruence).
    now rewrite En.
  - now rewrite IH.
Qed.

Lemma codeChange_db sid roomId c l now st :
  db (fst (codeChange sid roomId c l now st)) = db st.
Proof. unfold codeChange. now destruct (_ && _). Qed.

(** A burst does not touch the store. *)
Lemma run_burst_db roomId : forall more c st,
  Js.truthy roomId = true ->
  Forall (fun x => Js.truthy (ch_code x) = true) more ->
  within_window (ch_time c) more ->
  armed roomId c st ->
  db (fst (run (arrivals roomId more) st)) = db st.
Proof.
  induction more as [|c1 more IH]; intros c st Hr Hall Hwin Harmed; [reflexivity|].
  inversion Hall as [|? ? Hc1 Hall']; subst.
  destruct Hwin as [Ht Hwin].
  change (arrivals roomId (c1 :: more))
    with (mkArrival (ch_time c1) (ch_sid c1)
                    (InCodeChange roomId (ch_code c1) (ch_language c1))
          :: arrivals roomId more).
  rewrite DebounceFacts.run_cons. cbn [ev_time ev_sid ev_input handle fst snd].
  rewrite (DebounceFacts.advance_early roomId c st (ch_time c1) Harmed) by lia.
  cbn [fst snd].
  destruct (DebounceFacts.codeChange_arms roomId c1 st Hr Hc1
              (or_intror (ex_intro _ c Harmed))) as [Harmed1 _].
  rewrite (IH c1 _ Hr Hall' Hwin Harmed1). apply codeChange_db.
Qed.

Lemma advance_late_db roomId c st now :
  armed roomId c st -> (ch_time c + quietWindow <= now)%Z ->
  db (fst (advance now st))
  = Room_update roomId
      (with_code (ch_code c) (ch_language c) (ch_time c + quietWindow)) (db st).
Proof.
  intros (tid & Ht & _) Hle. unfold advance. rewrite Ht. simpl.
  unfold is_due. simpl.
  replace (ch_time c + quietWindow <=? now)%Z with true
    by (symmetry; apply Z.leb_le; lia).
  reflexivity.
Qed.

End SnapshotFacts.

(** X11: once the quiet window has elapsed after a burst of changes of a
    room, the stored document of the room holds the code and the language
    of the last change of the burst; its owner, privacy, password,
    participants and share list are as before, and the documents of the
    other rooms are not touched. *)
Theorem burst_ends_in_the_stored_document
    (roomId : string) (first : Debounce.Change) (more : list Debounce.Change)
    (st : Hub.State) (room : Room) :
  Js.truthy roomId = true ->
  Forall (fun c => Js.truthy (Debounce.ch_code c) = true) (first :: more) ->
  Debounce.within_window (Debounce.ch_time first) more ->
  Hub.timers st = [] ->
  Room_findById roomId (Hub.db st) = Some room ->
  let final := List.last more first in
  let after := fst (Hub.run (Debounce.arrivals roomId (first :: more)) st) in
  forall T, (Debounce.ch_time final + Hub.quietWindow <= T)%Z ->
    (exists room',
       Room_findById roomId (Hub.db (fst (Hub.advance T after))) = Some room'
       /\ code room' = Debounce.ch_code final
       /\ language room' = Debounce.ch_language final
       /\ owner room' = owner room /\ isPrivate room' = isPrivate room
       /\ password room' = password room
       /\ participants room' = participants room
       /\ sharedWith room' = sharedWith room)
    /\ forall r, r <> roomId ->
         Room_findById r (Hub.db (fst (Hub.advance T after)))
         = Room_findById r (Hub.db st).
Proof.
  intros Hr Hall Hwin Hidle Hroom final after T HT.
  inversion Hall as [|? ? Hc Hall']; subst.
  assert (Hafter : Debounce.armed roomId final after /\ Hub.db after = Hub.db st).
  { subst after.
    change (Debounce.arrivals roomId (first :: more))
      with (Hub.mkArrival (Debounce.ch_time first) (Debounce.ch_sid first)
              (Hub.InCodeChange roomId (Debounce.ch_code first)
                 (Debounce.ch_language first))
            :: Debounce.arrivals roomId more).
    rewrite DebounceFacts.run_cons.
    cbn [Hub.ev_time Hub.ev_sid Hub.ev_input Hub.handle fst snd].
    rewrite (DebounceFacts.advance_idle st _ Hidle). cbn [fst snd].
    destruct (DebounceFacts.codeChange_arms roomId first st Hr Hc (or_introl Hidle))
      as [Harmed _].
    split.
    - apply (DebounceFacts.run_burst roomId more first _ Hr Hall' Hwin Harmed).
    - rewrite (SnapshotFacts.run_burst_db roomId more first _ Hr Hall' Hwin Harmed).
      apply SnapshotFacts.codeChange_db. }
  destruct Hafter as [Harmed Hdb].
  rewrite (SnapshotFacts.advance_late_db roomId final after T Harmed HT), Hdb.
  split.
  - rewrite LeaveFacts.Room_findById_update by reflexivity. rewrite Hroom.
    eexists. split; [reflexivity|]. repeat split.
  - intros r Hne. now apply SnapshotFacts.Room_findById_update_other.
Qed.

Lemma burst_ends_in_the_stored_document_witness :
  let first := Debounce.mkChange 0 "s1" "let x = 1" "javascript" in
  let more := [Debounce.mkChange 100 "s2" "x = 12" "python"] in
  let after := fst (Hub.run (Debounce.arrivals "r2" (first :: more)) Scenario.idle) in
  exists room',
    Room_findById "r2" (Hub.db (fst (Hub.advance 400 after))) = Some room'
    /\ code room' = "x = 12" /\ language room' = "python".
Proof.
  intros first more after.
  assert (Hall : Forall (fun c => Js.truthy (Debounce.ch_code c) = true) (first :: more)).
  { repeat constructor. }
  assert (Hwin : Debounce.within_window (Debounce.ch_time first) more).
  { simpl. unfold Hub.quietWindow. lia. }
  assert (HT : (Debounce.ch_time (List.last more first) + Hub.quietWindow <= 400)%Z).
  { vm_compute. discriminate. }
  destruct (burst_ends_in_the_stored_document "r2" first more Scenario.idle
              Scenario.r2 eq_refl Hall Hwin eq_refl eq_refl 400%Z HT)
    as [(room' & Hfound & Hcode & Hlang & _) _].
  exists room'. split; [exact Hfound|]. split; [exact Hcode|exact Hlang].
Defined.

Module RouteFacts.

Lemma differs_false_iff (a b : option string) :
  Js.truthy_opt a = true -> (differs a b = false <-> a = b).
Proof.
  destruct a as [a|]; [|discriminate]. intros _.
  destruct b as [b|]; simpl.
  - rewrite negb_false_iff, String.eqb_eq. split; congruence.
  - split; discriminate.
Qed.

(** The test that [POST /:id/join] of [server/routes/room.js] makes
    before anything else. *)
Lemma join_outcome userId roomId supplied now d room :
  Js.truthy userId = true -> Room_findById roomId d = Some room ->
  let refused :=
    Js.truthy_opt (password room)
    && (negb (Js.truthy_opt supplied) || differs supplied (password room)) in
  (refused = true ->
   status (fst (ServerRoutes.join (Some userId) roomId supplied now d)) = 401
   /\ snd (ServerRoutes.join (Some userId) roomId supplied now d) = d)
  /\ (refused = false ->
      status (fst (ServerRoutes.join (Some userId) roomId supplied now d)) = 200
      /\ snd (ServerRoutes.join (Some userId) roomId supplied now d)
         = if isParticipant room userId then d
           else Room_update roomId
                  (fun r => with_lastActivity now
                              (with_participants
                                 (participants room ++ [mkParticipant (Some userId) now]) r))
                  d).
Proof.
  intros Hu Hroom refused. subst refused. unfold ServerRoutes.join.
  rewrite Hu, Hroom. cbn [negb].
  destruct (Js.truthy_opt (password room)); cbn [andb].
  - destruct (Js.truthy_opt supplied); cbn [negb orb].
    + destruct (differs supplied (password room)).
      * split; [auto|discriminate].
      * split; [discriminate|]. intros _.
        now destruct (isParticipant room userId).
    + split; [auto|discriminate].
  - split; [discriminate|]. intros _. now destruct (isParticipant room userId).
Qed.

Lemma Room_update_fixed roomId (f : Room -> Room) d :
  (forall r, In r (rooms d) -> room_id r = roomId -> f r = r) ->
  Room_update roomId f d = d.
Proof.
  intros Hf. unfold Room_update. destruct d as [rs us]. simpl in *. f_equal.
  induction rs as [|r rs IH]; simpl; [reflexivity|].
  rewrite IH by (intros x Hx; apply Hf; now right).
  destruct (String.eqb (room_id r) roomId) eqn:E; [|reflexivity].
  apply String.eqb_eq in E. now rewrite (Hf r (or_introl eq_refl) E).
Qed.

Lemma Room_update_twice roomId (f g : Room -> Room) d :
  (forall r, room_id (g r) = room_id r) ->
  Room_update roomId f (Room_update roomId g d)
  = Room_update roomId (fun r => f (g r)) d.
Proof.
  intros Hg. unfold Room_update. simpl. f_equal. rewrite map_map.
  apply map_ext. intros r.
  destruct (String.eqb (room_id r) roomId) eqn:E.
  - now rewrite Hg, E.
  - now rewrite E.
Qed.

End RouteFacts.

(** X12: [POST /:id/join] of [server/routes/room.js], for an
    authenticated caller and a room that exists, answers 200 exactly when
    the room has no password or the request carries the room's password;
    who the caller is plays no part.  A refusal leaves the store as it
    was; after a success the caller is a participant of the stored room,
    whose password is unchanged; and repeating the request changes
    nothing more. *)
Theorem rest_join_admits_on_the_password_alone
    (userId roomId : string) (supplied : option string) (now : Z) (d : Db)
    (room : Room) :
  Js.truthy userId = true ->
  Room_findById roomId d = Some room ->
  let res := ServerRoutes.join (Some userId) roomId supplied now d in
  (status (fst res) = 200 <->
   (Js.truthy_opt (password room) = false
    \/ (Js.truthy_opt supplied = true /\ supplied = password room)))
  /\ (status (fst res) <> 200 -> snd res = d)
  /\ (status (fst res) = 200 ->
      exists room',
        Room_findById roomId (snd res) = Some room'
        /\ isParticipant room' userId = true
        /\ password room' = password room
        /\ sharedWith room' = sharedWith room)
  /\ forall now2,
       snd (ServerRoutes.join (Some userId) roomId supplied now2 (snd res)) = snd res.
Proof.
  intros Hu Hroom res.
  destruct (RouteFacts.join_outcome userId roomId supplied now d room Hu Hroom)
    as [Hno Hyes].
  cbv zeta in Hno, Hyes. fold res in Hno, Hyes.
  set (refused := Js.truthy_opt (password room)
                  && (negb (Js.truthy_opt supplied)
                      || differs supplied (password room))) in *.
  assert (Hiff : refused = false <->
                 (Js.truthy_opt (password room) = false
                  \/ (Js.truthy_opt supplied = true /\ supplied = password room))).
  { unfold refused. destruct (Js.truthy_opt (password room)) eqn:Hp; cbn [andb].
    - destruct (Js.truthy_opt supplied) eqn:Hs; cbn [negb orb].
      + rewrite (RouteFacts.differs_false_iff _ _ Hs). intuition discriminate.
      + intuition discriminate.
    - tauto. }
  assert (Hafter : refused = false ->
            exists room',
              Room_findById roomId (snd res) = Some room'
              /\ isParticipant room' userId = true
              /\ password room' = password room
              /\ sharedWith room' = sharedWith room).
  { intros Hr. destruct (Hyes Hr) as [_ Hdb]. rewrite Hdb.
    destruct (isParticipant room userId) eqn:Hpart.
    - exists room. auto.
    - rewrite LeaveFacts.Room_findById_update by reflexivity. rewrite Hroom.
      eexists. split; [reflexivity|]. split; [|split; reflexivity].
      apply StoreFacts.isParticipant_added. }
  destruct refused eqn:Hrefused.
  - destruct (Hno eq_refl) as [Hst Hdb]. split; [|split; [|split]].
    + rewrite Hst, <- Hiff. split; discriminate.
    + auto.
    + rewrite Hst. discriminate.
    + intros now2. rewrite Hdb.
      destruct (RouteFacts.join_outcome userId roomId supplied now2 d room Hu Hroom)
        as [Hno2 _].
      cbv zeta in Hno2. fold refused in Hno2. rewrite Hrefused in Hno2.
      now destruct (Hno2 eq_refl).
  - destruct (Hyes eq_refl) as [Hst Hdb]. split; [|split; [|split]].
    + rewrite Hst, <- Hiff. tauto.
    + rewrite Hst. congruence.
    + intros _. now apply Hafter.
    + intros now2. destruct (Hafter eq_refl) as (room' & Hroom' & Hpart & Hpw & _).
      destruct (RouteFacts.join_outcome userId roomId supplied now2 (snd res) room'
                  Hu Hroom') as [_ Hyes2].
      cbv zeta in Hyes2. rewrite Hpw in Hyes2. fold refused in Hyes2.
      rewrite Hrefused in Hyes2. destruct (Hyes2 eq_refl) as [_ Hdb2].
      rewrite Hdb2. now rewrite Hpart.
Qed.

Lemma rest_join_admits_on_the_password_alone_witness :
  let res := ServerRoutes.join (Some "u2") "r1" (Some "p1") 5 Scenario.store in
  status (fst res) = 200
  /\ snd (ServerRoutes.join (Some "u2") "r1" (Some "p1") 9 (snd res)) = snd res
  /\ status (fst (ServerRoutes.join (Some "u1") "r1" None 5 Scenario.store)) <> 200.
Proof.
  intros res.
  destruct (rest_join_admits_on_the_password_alone
              "u2" "r1" (Some "p1") 5 Scenario.store Scenario.r1 eq_refl eq_refl)
    as (Hiff & _ & _ & Hagain).
  destruct (rest_join_admits_on_the_password_alone
              "u1" "r1" None 5 Scenario.store Scenario.r1 eq_refl eq_refl)
    as (Hiff1 & _ & _ & _).
  split; [|split].
  - apply Hiff. right. split; reflexivity.
  - apply Hagain.
  - intros H. apply Hiff1 in H. destruct H as [H|[H _]]; discriminate H.
Defined.

(** X13: [POST /:id/join] of the older [routes/room.js], for a private
    room: the owner and the users of the share list are let in whatever
    they supply, everybody else needs the room's password, and being a
    participant already does not count; so nobody else gets into a
    private room that has no password.  A refusal answers 401 and leaves
    the store as it was.  A [null] user in the share list, met before the
    caller, ends the request with 500. *)
Theorem hub_rest_join_of_a_private_room
    (userId roomId : string) (supplied : option string) (now : Z) (d : Db)
    (room : Room) :
  Room_findById roomId d = Some room ->
  isPrivate room = true ->
  let res := HubRoutes.join userId roomId supplied now d in
  (HubRoutes.some_is (map s_user (sharedWith room)) userId = None ->
   res = (HubRoutes.serverError, d))
  /\ (forall shared,
        HubRoutes.some_is (map s_user (sharedWith room)) userId = Some shared ->
        HubRoutes.some_is (map p_user (participants room)) userId <> None ->
        (status (fst res) = 200 <->
         (isOwner room userId = true \/ shared = true
          \/ (Js.truthy_opt supplied = true /\ supplied = password room)))
        /\ (status (fst res) <> 200 -> status (fst res) = 401 /\ snd res = d)
        /\ (password room = None ->
            (status (fst res) = 200 <-> (isOwner room userId = true \/ shared = true)))).
Proof.
  intros Hroom Hprivate res. subst res. unfold HubRoutes.join.
  rewrite Hroom, Hprivate. cbn [negb andb]. split.
  - intros ->. reflexivity.
  - intros shared -> Hparts.
    assert (Hwrong : wrongPassword supplied room = false <->
                     (Js.truthy_opt supplied = true /\ supplied = password room)).
    { unfold wrongPassword. destruct (Js.truthy_opt supplied) eqn:Hs; cbn [negb orb].
      - rewrite (RouteFacts.differs_false_iff _ _ Hs). tauto.
      - intuition discriminate. }
    assert (Hnone : password room = None -> wrongPassword supplied room = true).
    { intros Hp. unfold wrongPassword. rewrite Hp.
      destruct supplied as [s|]; [|reflexivity]. simpl. apply orb_true_r. }
    destruct (negb (isOwner room userId) && negb shared && wrongPassword supplied room)
      eqn:Hgate.
    + apply andb_true_iff in Hgate. destruct Hgate as [Hgate Hw].
      apply andb_true_iff in Hgate. destruct Hgate as [Ho Hs].
      apply negb_true_iff in Ho, Hs. simpl. split; [|split].
      * split; [discriminate|]. intros [H|[H|H]]; try congruence.
        apply Hwrong in H. congruence.
      * auto.
      * intros _. split; [discriminate|]. intros [H|H]; congruence.
    + assert (Hin : isOwner room userId = true \/ shared = true
                    \/ wrongPassword supplied room = false).
      { destruct (isOwner room userId); [now left|].
        destruct shared; [now (right; left)|]. simpl in Hgate. now (right; right). }
      destruct (HubRoutes.some_is (map p_user (participants room)) userId)
        as [[|]|] eqn:Hp; [| |congruence].
      * simpl. split; [|split].
        -- split; [|reflexivity]. intros _. rewrite <- Hwrong. exact Hin.
        -- congruence.
        -- intros Hpw. split; [|reflexivity]. intros _.
           destruct Hin as [H|[H|H]]; auto. rewrite (Hnone Hpw) in H. discriminate.
      * simpl. split; [|split].
        -- split; [|reflexivity]. intros _. rewrite <- Hwrong. exact Hin.
        -- congruence.
        -- intros Hpw. split; [|reflexivity]. intros _.
           destruct Hin as [H|[H|H]]; auto. rewrite (Hnone Hpw) in H. discriminate.
Qed.

Lemma hub_rest_join_of_a_private_room_witness :
  status (fst (HubRoutes.join "u1" "r1" None 5 Scenario.store)) = 200
  /\ status (fst (HubRoutes.join "u2" "r1" (Some "guess") 5 Scenario.store)) = 401.
Proof.
  destruct (hub_rest_join_of_a_private_room "u1" "r1" None 5 Scenario.store
              Scenario.r1 eq_refl eq_refl) as [_ Howner].
  destruct (hub_rest_join_of_a_private_room "u2" "r1" (Some "guess") 5 Scenario.store
              Scenario.r1 eq_refl eq_refl) as [_ Hother].
  assert (Hp1 : HubRoutes.some_is (map p_user (participants Scenario.r1)) "u1" <> None)
    by discriminate.
  assert (Hp2 : HubRoutes.some_is (map p_user (participants Scenario.r1)) "u2" <> None)
    by discriminate.
  destruct (Howner false eq_refl Hp1) as (Hiff & _ & _).
  destruct (Hother false eq_refl Hp2) as (_ & Hrefused & _).
  split.
  - apply Hiff. left. reflexivity.
  - apply Hrefused. vm_compute. discriminate.
Defined.

Module ShareFacts.

Lemma includes_app (a b : list string) u :
  includes (a ++ b) u = includes a u || includes b u.
Proof. unfold includes. apply existsb_app. Qed.

Lemma includes_In ids u : includes ids u = true <-> In u ids.
Proof.
  unfold includes. rewrite existsb_exists. split.
  - intros (x & Hx & E). apply String.eqb_eq in E. now subst.
  - intros H. exists u. split; [exact H|apply String.eqb_refl].
Qed.

Lemma includes_filter (P : string -> bool) ids u :
  includes (List.filter P ids) u = includes ids u && P u.
Proof.
  unfold includes. induction ids as [|x ids IH]; simpl; [reflexivity|].
  destruct (String.eqb u x) eqn:E.
  - apply String.eqb_eq in E. subst x. destruct (P u) eqn:EP; simpl.
    + now rewrite String.eqb_refl.
    + rewrite IH. now rewrite andb_false_r.
  - destruct (P x); simpl; [rewrite E|]; exact IH.
Qed.

Lemma isSharedWith_includes (ss : list Share) ids u :
  sharedUserIds (map s_user ss) = Some ids ->
  existsb (fun share => ref_is (s_user share) u) ss = includes ids u.
Proof.
  revert ids. induction ss as [|s ss IH]; simpl; intros ids H.
  - injection H as <-. reflexivity.
  - destruct (s_user s) as [x|]; [|discriminate].
    destruct (sharedUserIds (map s_user ss)) as [rest|]; [|discriminate].
    injection H as <-. simpl. rewrite (IH rest eq_refl).
    now rewrite (String.eqb_sym x u).
Qed.

Lemma sharedUserIds_added (ss : list Share) ids new now :
  sharedUserIds (map s_user ss) = Some ids ->
  sharedUserIds (map s_user (ss ++ map (fun u => mkShare (Some u) now) new))
  = Some (ids ++ new).
Proof.
  revert ids. induction ss as [|s ss IH]; simpl; intros ids H.
  - injection H as <-. simpl. induction new as [|x new IHn]; simpl; [reflexivity|].
    now rewrite IHn.
  - destruct (s_user s) as [x|]; [|discriminate].
    destruct (sharedUserIds (map s_user ss)) as [rest|]; [|discriminate].
    injection H as <-. now rewrite (IH rest eq_refl).
Qed.

Lemma Room_update_ext roomId (f g : Room -> Room) d :
  (forall r, f r = g r) -> Room_update roomId f d = Room_update roomId g d.
Proof.
  intros H. unfold Room_update. f_equal. apply map_ext. intros r. now rewrite H.
Qed.

(** What the route does once the caller is known to be the owner. *)
Lemma share_room_by_owner me roomId ids now d room existing :
  Room_findById roomId d = Some room -> ids <> [] -> owner room = me ->
  sharedUserIds (map s_user (sharedWith room)) = Some existing ->
  share_room me roomId (Some ids) now d
  = (Shared (length (List.filter (fun id => negb (includes existing id)) ids)),
     Room_update roomId
       (with_sharedWith
          (sharedWith room
           ++ map (fun u => mkShare (Some u) now)
                  (List.filter (fun id => negb (includes existing id)) ids)))
       d).
Proof.
  intros Hroom Hids Howner Hex. unfold share_room.
  destruct ids as [|i ids]; [congruence|].
  rewrite Hroom, Howner, String.eqb_refl. cbn [negb]. now rewrite Hex.
Qed.

End ShareFacts.

(** X14: [POST /:id/share].  Only the owner changes the share list: any
    other caller gets 403 and the store is as before.  For the owner,
    the users of the stored share list are afterwards those that were
    there and those named in the request; password, participants and
    owner are unchanged; every user named passes the access check of
    both socket handlers; and sharing with the same users again adds
    nobody and changes nothing.  The route of [server/routes/room.js]
    does the same for an authenticated caller. *)
Theorem share_lets_the_named_users_in
    (me roomId : string) (ids : list string) (now : Z) (d : Db) (room : Room) :
  Room_findById roomId d = Some room ->
  ids <> [] ->
  let res := HubRoutes.share me roomId (Some ids) now d in
  (Js.truthy me = true -> ServerRoutes.share (Some me) roomId (Some ids) now d = res)
  /\ (owner room <> me ->
      res = (ShareRefused (mkResponse 403 "Only the room owner can share this room"), d))
  /\ (owner room = me ->
      forall existing,
        sharedUserIds (map s_user (sharedWith room)) = Some existing ->
        exists room',
          Room_findById roomId (snd res) = Some room'
          /\ (forall u, isSharedWith room' u = includes existing u || includes ids u)
          /\ password room' = password room
          /\ participants room' = participants room
          /\ owner room' = owner room
          /\ (forall u, In u ids ->
                Hub.accessDenied room' u = false
                /\ ServerSocket.accessDenied room' u = false)
          /\ forall now2,
               HubRoutes.share me roomId (Some ids) now2 (snd res)
               = (Shared 0, snd res)).
Proof.
  intros Hroom Hids res. subst res. unfold HubRoutes.share. split; [|split].
  - intros Hme. unfold ServerRoutes.share. now rewrite Hme.
  - intros Hne. unfold share_room. destruct ids as [|i ids]; [congruence|].
    rewrite Hroom. apply String.eqb_neq in Hne. now rewrite Hne.
  - intros Howner existing Hex.
    rewrite (ShareFacts.share_room_by_owner me roomId ids now d room existing
               Hroom Hids Howner Hex).
    set (new := List.filter (fun id => negb (includes existing id)) ids).
    set (shares := sharedWith room ++ map (fun u => mkShare (Some u) now) new).
    cbn [snd].
    assert (Hroom' : Room_findById roomId (Room_update roomId (with_sharedWith shares) d)
                     = Some (with_sharedWith shares room)).
    { rewrite LeaveFacts.Room_findById_update by reflexivity. now rewrite Hroom. }
    assert (Hex' : sharedUserIds (map s_user shares) = Some (existing ++ new))
      by now apply ShareFacts.sharedUserIds_added.
    assert (Hshared : forall u, isSharedWith (with_sharedWith shares room) u
                                = includes existing u || includes ids u).
    { intros u. unfold isSharedWith. cbn [sharedWith with_sharedWith].
      rewrite (ShareFacts.isSharedWith_includes shares _ u Hex').
      rewrite ShareFacts.includes_app. unfold new.
      rewrite ShareFacts.includes_filter.
      destruct (includes existing u); destruct (includes ids u); reflexivity. }
    exists (with_sharedWith shares room).
    split; [exact Hroom'|]. split; [exact Hshared|].
    split; [reflexivity|]. split; [reflexivity|]. split; [reflexivity|]. split.
    + intros u Hu.
      assert (Hin : isSharedWith (with_sharedWith shares room) u = true).
      { rewrite Hshared. apply ShareFacts.includes_In in Hu. rewrite Hu.
        apply orb_true_r. }
      unfold Hub.accessDenied, ServerSocket.accessDenied. rewrite Hin.
      cbn [negb]. now rewrite !andb_false_r.
    + intros now2.
      rewrite (ShareFacts.share_room_by_owner me roomId ids now2 _ _ (existing ++ new)
                 Hroom' Hids Howner Hex').
      assert (Hnone : List.filter (fun id => negb (includes (existing ++ new) id)) ids
                      = []).
      { apply PendingFacts.filter_nil. intros x Hx. apply negb_false_iff.
        rewrite ShareFacts.includes_app. unfold new.
        rewrite ShareFacts.includes_filter.
        apply ShareFacts.includes_In in Hx. rewrite Hx.
        now destruct (includes existing x). }
      rewrite Hnone. cbn [length map]. f_equal.
      rewrite RouteFacts.Room_update_twice by reflexivity.
      apply ShareFacts.Room_update_ext. intros r.
      cbn [sharedWith with_sharedWith]. now rewrite app_nil_r.
Qed.

Lemma share_lets_the_named_users_in_witness :
  let res := HubRoutes.share "u1" "r1" (Some ["u2"]) 5 Scenario.store in
  exists room',
    Room_findById "r1" (snd res) = Some room'
    /\ Hub.accessDenied room' "u2" = false
    /\ HubRoutes.share "u1" "r1" (Some ["u2"]) 9 (snd res) = (Shared 0, snd res).
Proof.
  intros res.
  assert (Hids : ["u2"] <> @nil string) by discriminate.
  destruct (share_lets_the_named_users_in "u1" "r1" ["u2"] 5 Scenario.store
              Scenario.r1 eq_refl Hids) as (_ & _ & Howner).
  destruct (Howner eq_refl [] eq_refl)
    as (room' & Hfound & _ & _ & _ & _ & Hpass & Hagain).
  exists room'. split; [exact Hfound|]. split.
  - apply Hpass. now left.
  - apply Hagain.
Defined.

Module HookFacts.
Import UseRoomAccess.

Section Started.
Variables (token : option string) (userId roomId : string)
          (password : option string) (st : State).
Hypothesis Htoken : Js.truthy_opt token = true.
Hypothesis Huser : Js.truthy userId = true.
Hypothesis Hidle : joinInProgress st = false.
Hypothesis Hfresh : controllers st ∉ aborted st.
Hypothesis Hctl : abortController st <> Some (controllers st).

(** The state in which [joinRoom] awaits the answer to its access
    check. *)
Lemma hook_join_starts :
  joinRoom token (Some userId) roomId password st
  = mkState true true (Some (roomId, password)) (Some (controllers st))
      (S (controllers st))
      (match abortController st with
       | Some c0 => {[c0]} ∪ aborted st
       | None => aborted st
       end)
      (requests st ++ [(controllers st, CheckAccess roomId)])
      (notices st) (onceConnect st) (wsService st).
Proof. unfold joinRoom. simpl. now rewrite Htoken, Huser, Hidle. Qed.

(** The controller of the call that is awaited has not been aborted. *)
Lemma hook_join_live :
  controllers st ∉ aborted (joinRoom token (Some userId) roomId password st).
Proof.
  rewrite hook_join_starts. simpl.
  destruct (abortController st) as [c0|] eqn:E; [|exact Hfresh].
  intros Hin. apply elem_of_union in Hin. destruct Hin as [Hin|Hin].
  - apply elem_of_singleton in Hin. subst c0. now apply Hctl.
  - now apply Hfresh.
Qed.

End Started.

End HookFacts.

(** X15: entering a room that has a password, from the hook to the
    routes of [server/routes/room.js] and back, on a connected socket.
    The access check is answered 403 with [passwordRequired].  Without a
    password the hook then reports that a password is required, leaves
    the socket service alone and is ready for a next call.  With a
    password it posts it to the join route; when this is the room's
    password the service sends one [joinRoom] to the hub, with the
    password, and the room counts as joined; when it is not, the hook
    reports the failure, the service is left alone and the store is as
    before. *)
Theorem password_room_entry_from_hook_to_routes
    (token : option string) (userId roomId : string) (supplied : option string)
    (now : Z) (d : Db) (room : Room) (st : UseRoomAccess.State) :
  Js.truthy_opt token = true ->
  Js.truthy userId = true ->
  Js.truthy roomId = true ->
  UseRoomAccess.joinInProgress st = false ->
  UseRoomAccess.controllers st ∉ UseRoomAccess.aborted st ->
  UseRoomAccess.abortController st <> Some (UseRoomAccess.controllers st) ->
  WebSocketService.socket (UseRoomAccess.wsService st) = Some true ->
  roomId ∉ WebSocketService.joinedRooms (UseRoomAccess.wsService st) ->
  Room_findById roomId d = Some room ->
  Js.truthy_opt (password room) = true ->
  let c := UseRoomAccess.controllers st in
  let st1 := UseRoomAccess.joinRoom token (Some userId) roomId supplied st in
  let a := ServerRoutes.get (Some userId) roomId d in
  let st2 := UseRoomAccess.onCheckResponse c (status_ok (answer_status a))
               (asks_password a) userId roomId supplied st1 in
  a = Refuse 403 "This room requires a password to join" true
  /\ (Js.truthy_opt supplied = false ->
      UseRoomAccess.notices st2
      = UseRoomAccess.notices st ++ [UseRoomAccess.PasswordRequired]
      /\ UseRoomAccess.wsService st2 = UseRoomAccess.wsService st
      /\ UseRoomAccess.joinInProgress st2 = false
      /\ UseRoomAccess.requests st2
         = UseRoomAccess.requests st ++ [(c, UseRoomAccess.CheckAccess roomId)])
  /\ (forall pw, supplied = Some pw -> Js.truthy pw = true ->
      let res := ServerRoutes.join (Some userId) roomId supplied now d in
      let st3 := UseRoomAccess.onJoinResponse c (status_ok (status (fst res)))
                   userId roomId supplied st2 in
      UseRoomAccess.requests st2
      = UseRoomAccess.requests st
        ++ [(c, UseRoomAccess.CheckAccess roomId);
            (c, UseRoomAccess.JoinWithPassword roomId pw)]
      /\ (Some pw = password room ->
          UseRoomAccess.notices st3
          = UseRoomAccess.notices st ++ [UseRoomAccess.RoomJoined roomId]
          /\ WebSocketService.sent (UseRoomAccess.wsService st3)
             = WebSocketService.sent (UseRoomAccess.wsService st)
               ++ [WebSocketService.SentJoinRoom roomId userId (Some pw)]
          /\ roomId ∈ WebSocketService.joinedRooms (UseRoomAccess.wsService st3))
      /\ (Some pw <> password room ->
          UseRoomAccess.notices st3
          = UseRoomAccess.notices st ++ [UseRoomAccess.JoinFailed]
          /\ UseRoomAccess.wsService st3 = UseRoomAccess.wsService st
          /\ snd res = d)).
Proof.
  intros Ht Hu Hr Hidle Hfresh Hctl Hsock Hnew Hroom Hpw c st1 a st2.
  assert (Ha : a = Refuse 403 "This room requires a password to join" true).
  { subst a. unfold ServerRoutes.get. now rewrite Hu, Hroom, Hpw. }
  assert (Hst1 := HookFacts.hook_join_starts token userId roomId supplied st
                    Ht Hu Hidle).
  assert (Hlive := HookFacts.hook_join_live token userId roomId supplied st
                     Ht Hu Hidle Hfresh Hctl).
  fold st1 in Hst1, Hlive. fold c in Hst1, Hlive.
  split; [exact Ha|]. split.
  - intros Hs. subst st2. rewrite Ha. unfold UseRoomAccess.onCheckResponse.
    rewrite bool_decide_eq_false_2 by exact Hlive.
    cbn [answer_status asks_password status_ok Nat.leb Nat.eqb andb].
    rewrite Hs. cbn [negb]. rewrite Hst1. repeat split.
  - intros pw -> Hpwt res st3.
    assert (Hst2 : st2 =
              UseRoomAccess.mkState true true (Some (roomId, Some pw)) (Some c) (S c)
                (UseRoomAccess.aborted st1)
                (UseRoomAccess.requests st
                 ++ [(c, UseRoomAccess.CheckAccess roomId);
                     (c, UseRoomAccess.JoinWithPassword roomId pw)])
                (UseRoomAccess.notices st) (UseRoomAccess.onceConnect st)
                (UseRoomAccess.wsService st)).
    { subst st2. rewrite Ha. unfold UseRoomAccess.onCheckResponse.
      rewrite bool_decide_eq_false_2 by exact Hlive.
      cbn [answer_status asks_password status_ok Nat.leb Nat.eqb andb
           Js.truthy_opt].
      rewrite Hpwt. cbn [negb]. rewrite Hst1. cbn. now rewrite <- app_assoc. }
    assert (Hlive2 : c ∉ UseRoomAccess.aborted st2) by now rewrite Hst2.
    destruct (RouteFacts.join_outcome userId roomId (Some pw) now d room Hu Hroom)
      as [Hno Hyes].
    cbv zeta in Hno, Hyes. fold res in Hno, Hyes.
    rewrite Hpw in Hno, Hyes. cbn [Js.truthy_opt andb] in Hno, Hyes.
    rewrite Hpwt in Hno, Hyes. cbn [negb orb] in Hno, Hyes.
    split; [now rewrite Hst2|]. split.
    + intros Heq.
      assert (Hd : differs (Some pw) (password room) = false)
        by (apply RouteFacts.differs_false_iff; auto).
      destruct (Hyes Hd) as [Hstatus _].
      subst st3. rewrite Hstatus. unfold UseRoomAccess.onJoinResponse.
      rewrite bool_decide_eq_false_2 by exact Hlive2.
      cbn [status_ok Nat.leb andb]. unfold UseRoomAccess.joinSocket.
      rewrite Hst2. cbn [UseRoomAccess.wsService]. rewrite Hsock.
      rewrite (ClientFacts.service_join_first roomId userId (Some pw) _ true
                 Hsock Hr Hu Hnew).
      cbn. split; [reflexivity|]. split; [reflexivity|].
      apply elem_of_union. left. now apply elem_of_singleton.
    + intros Hne.
      assert (Hd : differs (Some pw) (password room) = true).
      { destruct (differs (Some pw) (password room)) eqn:E; [reflexivity|].
        apply RouteFacts.differs_false_iff in E; [congruence|exact Hpwt]. }
      destruct (Hno Hd) as [Hstatus Hdb].
      subst st3. rewrite Hstatus. unfold UseRoomAccess.onJoinResponse.
      rewrite bool_decide_eq_false_2 by exact Hlive2.
      cbn [status_ok Nat.leb andb]. rewrite Hst2. cbn.
      split; [reflexivity|]. split; [reflexivity|exact Hdb].
Qed.

Lemma password_room_entry_from_hook_to_routes_witness :
  let st := UseRoomAccess.initial (WebSocketService.mk (Some true) ∅ []) in
  let st1 := UseRoomAccess.joinRoom (Some "jwt") (Some "u2") "r1" (Some "p1") st in
  let a := ServerRoutes.get (Some "u2") "r1" Scenario.store in
  let st2 := UseRoomAccess.onCheckResponse 0 (status_ok (answer_status a))
               (asks_password a) "u2" "r1" (Some "p1") st1 in
  let res := ServerRoutes.join (Some "u2") "r1" (Some "p1") 5 Scenario.store in
  let st3 := UseRoomAccess.onJoinResponse 0 (status_ok (status (fst res)))
               "u2" "r1" (Some "p1") st2 in
  WebSocketService.sent (UseRoomAccess.wsService st3)
  = [WebSocketService.SentJoinRoom "r1" "u2" (Some "p1")].
Proof.
  intros st st1 a st2 res st3.
  assert (Hfresh : UseRoomAccess.controllers st ∉ UseRoomAccess.aborted st)
    by (simpl; set_solver).
  assert (Hctl : UseRoomAccess.abortController st
                 <> Some (UseRoomAccess.controllers st)) by discriminate.
  assert (Hnew : "r1" ∉ WebSocketService.joinedRooms (UseRoomAccess.wsService st))
    by (simpl; set_solver).
  destruct (password_room_entry_from_hook_to_routes
              (Some "jwt") "u2" "r1" (Some "p1") 5 Scenario.store Scenario.r1 st
              eq_refl eq_refl eq_refl eq_refl Hfresh Hctl eq_refl Hnew
              eq_refl eq_refl) as (_ & _ & Hwith).
  destruct (Hwith "p1" eq_refl eq_refl) as (_ & Hright & _).
  destruct (Hright eq_refl) as (_ & Hsent & _).
  exact Hsent.
Defined.

Module ServerSocketFacts.
Import Presence JsMapFacts.

Lemma server_userLeftIn_count r roomId au :
  Hub.userLeftIn r (ServerSocket.updateParticipantCount roomId au) = [].
Proof.
  unfold ServerSocket.updateParticipantCount. now destruct (negb (Js.truthy roomId)).
Qed.

Lemma server_disconnect_room_userLeft sid r roomId users au :
  Hub.userLeftIn r (snd (ServerSocket.disconnect_room sid roomId users au)) =
  if String.eqb roomId r then
    match List.find (on_socket sid) users with
    | Some du => if nonempty (List.filter (stays sid) users) then [ud_id du] else []
    | None => []
    end
  else [].
Proof.
  unfold ServerSocket.disconnect_room.
  destruct (nonempty (List.filter (stays sid) users)).
  - destruct (List.find (on_socket sid) users) as [du|]; cbn [snd].
    + cbn [Hub.userLeftIn flat_map]. fold (Hub.userLeftIn r).
      change (flat_map _ (ServerSocket.updateParticipantCount roomId
                            (JsMap.set roomId (List.filter (stays sid) users) au)))
        with (Hub.userLeftIn r
                (ServerSocket.updateParticipantCount roomId
                   (JsMap.set roomId (List.filter (stays sid) users) au))).
      rewrite server_userLeftIn_count, app_nil_r. reflexivity.
    + now destruct (String.eqb roomId r).
  - cbn [snd]. destruct (String.eqb roomId r); [|reflexivity].
    now destruct (List.find (on_socket sid) users).
Qed.

Lemma server_disconnect_room_get sid r roomId users au :
  JsMap.get r (fst (ServerSocket.disconnect_room sid roomId users au)) =
  if String.eqb roomId r then
    if nonempty (List.filter (stays sid) users)
    then Some (List.filter (stays sid) users) else None
  else JsMap.get r au.
Proof.
  unfold ServerSocket.disconnect_room.
  destruct (String.eqb roomId r) eqn:E.
  - apply String.eqb_eq in E. subst r.
    destruct (nonempty (List.filter (stays sid) users)).
    + destruct (List.find (on_socket sid) users); cbn [fst]; apply get_set_eq.
    + cbn [fst]. apply get_delete_eq.
  - apply String.eqb_neq in E.
    destruct (nonempty (List.filter (stays sid) users)).
    + destruct (List.find (on_socket sid) users); cbn [fst]; now apply get_set_ne.
    + cbn [fst]. now apply get_delete_ne.
Qed.

Lemma server_disconnect_loop_cons sid roomId users rest au :
  ServerSocket.disconnect_loop sid ((roomId, users) :: rest) au =
  (fst (ServerSocket.disconnect_loop sid rest
          (fst (ServerSocket.disconnect_room sid roomId users au))),
   snd (ServerSocket.disconnect_room sid roomId users au)
   ++ snd (ServerSocket.disconnect_loop sid rest
             (fst (ServerSocket.disconnect_room sid roomId users au)))).
Proof.
  simpl. destruct (ServerSocket.disconnect_room sid roomId users au) as [au1 e1].
  simpl. now destruct (ServerSocket.disconnect_loop sid rest au1).
Qed.

Lemma server_disconnect_loop_userLeft sid r entries : forall au,
  JsMap.wf entries ->
  Hub.userLeftIn r (snd (ServerSocket.disconnect_loop sid entries au)) =
  match JsMap.get r entries with
  | Some users =>
      match List.find (on_socket sid) users with
      | Some du => if nonempty (List.filter (stays sid) users) then [ud_id du] else []
      | None => []
      end
  | None => []
  end.
Proof.
  induction entries as [|[k users] rest IH]; intros au Hwf; [reflexivity|].
  inversion Hwf as [|? ? Hnin Hwf']; subst.
  rewrite server_disconnect_loop_cons. cbn [snd].
  rewrite DisconnectFacts.userLeftIn_app, server_disconnect_room_userLeft, IH by exact Hwf'.
  cbn [JsMap.get]. destruct (String.eqb k r) eqn:E.
  - apply String.eqb_eq in E. subst r.
    rewrite (DisconnectFacts.get_notin k rest Hnin). apply app_nil_r.
  - reflexivity.
Qed.

Lemma server_disconnect_loop_get sid r entries : forall au,
  JsMap.wf entries ->
  JsMap.get r (fst (ServerSocket.disconnect_loop sid entries au)) =
  match JsMap.get r entries with
  | Some users =>
      if nonempty (List.filter (stays sid) users)
      then Some (List.filter (stays sid) users) else None
  | None => JsMap.get r au
  end.
Proof.
  induction entries as [|[k users] rest IH]; intros au Hwf; [reflexivity|].
  inversion Hwf as [|? ? Hnin Hwf']; subst.
  rewrite server_disconnect_loop_cons. cbn [fst].
  rewrite IH by exact Hwf'. cbn [JsMap.get].
  rewrite server_disconnect_room_get. destruct (String.eqb k r) eqn:E.
  - apply String.eqb_eq in E. subst r.
    now rewrite (DisconnectFacts.get_notin k rest Hnin).
  - reflexivity.
Qed.

End ServerSocketFacts.

(** X16: [disconnect] of [server/socket.js].  The socket's entries are
    taken out of every room and the others are kept in order.  A room in
    which the socket had an entry and somebody is left is sent
    [userLeft], once, with the id of the first such entry, whether or not
    that user has another connection in the room; the other rooms are
    sent none. *)
Theorem server_socket_disconnect_announces_each_connection
    (sid : string) (au : Presence.ActiveUsers) :
  JsMap.wf au ->
  forall r,
    Presence.room_entries r (fst (ServerSocket.disconnect sid au))
    = List.filter (Presence.stays sid) (Presence.room_entries r au)
    /\ Hub.userLeftIn r (snd (ServerSocket.disconnect sid au))
       = match List.find (Presence.on_socket sid) (Presence.room_entries r au) with
         | Some du =>
             if Presence.nonempty
                  (List.filter (Presence.stays sid) (Presence.room_entries r au))
             then [ud_id du] else []
         | None => []
         end.
Proof.
  intros Hwf r. unfold ServerSocket.disconnect. split.
  - unfold Presence.room_entries.
    rewrite ServerSocketFacts.server_disconnect_loop_get by exact Hwf.
    destruct (JsMap.get r au) as [users|] eqn:G; [|reflexivity].
    destruct (Presence.nonempty _) eqn:N; [reflexivity|].
    now rewrite (LeaveFacts.nonempty_false _ N).
  - rewrite ServerSocketFacts.server_disconnect_loop_userLeft by exact Hwf.
    unfold Presence.room_entries. now destruct (JsMap.get r au).
Qed.

Lemma server_socket_disconnect_announces_each_connection_witness :
  Presence.room_entries "r2"
    (fst (ServerSocket.disconnect "s1" (Hub.activeUsers TwoTabs.state)))
  = List.filter (Presence.stays "s1")
      (Presence.room_entries "r2" (Hub.activeUsers TwoTabs.state))
  /\ Hub.userLeftIn "r2"
       (snd (ServerSocket.disconnect "s1" (Hub.activeUsers TwoTabs.state)))
     = ["u2"].
Proof.
  assert (Hwf : JsMap.wf (Hub.activeUsers TwoTabs.state)).
  { repeat constructor. simpl. tauto. }
  destruct (server_socket_disconnect_announces_each_connection
              "s1" (Hub.activeUsers TwoTabs.state) Hwf "r2") as [Hentries Hleft].
  split; [exact Hentries|]. rewrite Hleft. reflexivity.
Defined.

Module ServiceFacts.
Import WebSocketService.

Lemma joined_after_app r : forall l1 l2 b,
  joined_after r b (l1 ++ l2) = joined_after r (joined_after r b l1) l2.
Proof.
  induction l1 as [|m l1 IH]; intros l2 b; [reflexivity|].
  destruct m; simpl; apply IH.
Qed.

Lemma no_double_join_app r : forall l1 l2 b,
  no_double_join r b (l1 ++ l2)
  = no_double_join r b l1 && no_double_join r (joined_after r b l1) l2.
Proof.
  induction l1 as [|m l1 IH]; intros l2 b; [reflexivity|].
  destruct m as [r0 u p|r0 u]; simpl.
  - destruct (String.eqb r0 r); rewrite IH; [now rewrite andb_assoc|reflexivity].
  - apply IH.
Qed.

(** What the log says and what the service remembers agree, and the log
    has no second [joinRoom] for a room that is joined. *)
Definition agrees (s : t) : Prop :=
  forall r,
    no_double_join r false (sent s) = true
    /\ hasJoinedRoom r s = joined_after r false (sent s).

Lemma call_socket c s : socket s = Some true -> socket (call c s) = Some true.
Proof.
  intros Hs. destruct c as [r u p|r u]; simpl.
  - unfold joinRoom. rewrite Hs.
    destruct (_ || _); [exact Hs|]. now destruct (bool_decide _).
  - unfold leaveRoom. rewrite Hs. now destruct (_ || _).
Qed.

Lemma call_agrees c s : socket s = Some true -> agrees s -> agrees (call c s).
Proof.
  intros Hs Hag. destruct c as [r0 u p|r0 u]; simpl.
  - unfold joinRoom. rewrite Hs.
    destruct (negb (Js.truthy r0) || negb (Js.truthy u)); [exact Hag|].
    destruct (bool_decide (r0 ∈ joinedRooms s)) eqn:Hin; [exact Hag|].
    apply bool_decide_eq_false in Hin.
    intros r. destruct (Hag r) as [Hnd Hj]. unfold hasJoinedRoom in *.
    cbn [sent joinedRooms].
    rewrite no_double_join_app, joined_after_app, Hnd, <- Hj. simpl.
    destruct (String.eqb_spec r0 r) as [->|Hne].
    + rewrite (bool_decide_eq_false_2 _ Hin). split; [reflexivity|].
      apply bool_decide_eq_true_2, elem_of_union. left.
      now apply elem_of_singleton.
    + split; [reflexivity|]. apply bool_decide_ext.
      rewrite elem_of_union, elem_of_singleton. intuition congruence.
  - unfold leaveRoom. rewrite Hs.
    destruct (negb (Js.truthy r0) || negb (Js.truthy u)); [exact Hag|].
    intros r. destruct (Hag r) as [Hnd Hj]. unfold hasJoinedRoom in *.
    cbn [sent joinedRooms].
    rewrite no_double_join_app, joined_after_app, Hnd, <- Hj. simpl.
    destruct (String.eqb_spec r0 r) as [->|Hne].
    + split; [reflexivity|]. apply bool_decide_eq_false_2.
      rewrite elem_of_difference, elem_of_singleton. tauto.
    + split; [reflexivity|]. apply bool_decide_ext.
      rewrite elem_of_difference, elem_of_singleton. intuition congruence.
Qed.

Lemma calls_agrees cs : forall s,
  socket s = Some true -> agrees s -> agrees (calls cs s).
Proof.
  induction cs as [|c cs IH]; intros s Hs Hag; [exact Hag|].
  simpl. apply IH; [now apply call_socket|now apply call_agrees].
Qed.

Lemma leaveRoom_without_user sid roomId st :
  Hub.leaveRoom sid roomId EmptyString st
  = (Hub.set_sio (socket_leave sid roomId (Hub.sio st)) st, []).
Proof.
  unfold Hub.leaveRoom. cbn [Js.truthy String.eqb negb].
  now rewrite andb_false_r.
Qed.

(** The hub ignores the [leaveRoom] messages of a cleanup, but for taking
    the socket out of the socket.io rooms. *)
Lemma deliver_cleanup sid now rooms : forall st,
  Hub.activeUsers
    (fst (Wire.deliver sid now
            (map (fun roomId => SentLeaveRoom roomId EmptyString) rooms) st))
  = Hub.activeUsers st
  /\ Hub.db
       (fst (Wire.deliver sid now
               (map (fun roomId => SentLeaveRoom roomId EmptyString) rooms) st))
     = Hub.db st
  /\ snd (Wire.deliver sid now
            (map (fun roomId => SentLeaveRoom roomId EmptyString) rooms) st)
     = [].
Proof.
  induction rooms as [|r rooms IH]; intros st; [now auto|].
  cbn [map Wire.deliver Wire.to_input Hub.handle].
  rewrite leaveRoom_without_user.
  specialize (IH (Hub.set_sio (socket_leave sid r (Hub.sio st)) st)).
  destruct (Wire.deliver sid now _ _) as [st2 e2].
  cbn [fst snd app] in *. exact IH.
Qed.

End ServiceFacts.

(** X17: after [reconnect] the service has a new socket and still counts
    its rooms as joined, so that [joinRoom] for such a room sends nothing
    on the new socket.  The [leaveRoom] messages that the cleanup sends
    on the old socket carry no user id: the hub changes nothing in its
    registry or its store for them and sends nothing. *)
Theorem reconnect_skips_the_rejoin
    (rooms : list string) (s : WebSocketService.t)
    (roomId userId : string) (password : option string)
    (sid : string) (now : Z) (st : Hub.State) :
  roomId ∈ WebSocketService.joinedRooms s ->
  let s1 := WebSocketService.onConnect (WebSocketService.reconnect rooms s) in
  let leaves := map (fun r => WebSocketService.SentLeaveRoom r EmptyString) rooms in
  WebSocketService.socket s1 = Some true
  /\ WebSocketService.joinedRooms s1 = WebSocketService.joinedRooms s
  /\ WebSocketService.joinRoom roomId userId password s1 = s1
  /\ WebSocketService.sent s1
     = WebSocketService.sent s
       ++ (match WebSocketService.socket s with
           | Some true => leaves
           | _ => []
           end)
  /\ Hub.activeUsers (fst (Wire.deliver sid now leaves st)) = Hub.activeUsers st
  /\ Hub.db (fst (Wire.deliver sid now leaves st)) = Hub.db st
  /\ snd (Wire.deliver sid now leaves st) = [].
Proof.
  intros Hin s1 leaves.
  assert (Hrooms : WebSocketService.joinedRooms s1 = WebSocketService.joinedRooms s).
  { unfold s1, WebSocketService.onConnect, WebSocketService.reconnect,
      WebSocketService.cleanupSocket.
    destruct (WebSocketService.socket s) as [[|]|]; reflexivity. }
  split; [reflexivity|]. split; [exact Hrooms|]. split; [|split].
  - apply ClientFacts.service_join_again. now rewrite Hrooms.
  - unfold s1, WebSocketService.onConnect, WebSocketService.reconnect,
      WebSocketService.cleanupSocket.
    destruct (WebSocketService.socket s) as [[|]|]; cbn;
      [reflexivity|now rewrite app_nil_r|now rewrite app_nil_r].
  - apply ServiceFacts.deliver_cleanup.
Qed.

Lemma reconnect_skips_the_rejoin_witness :
  let s := WebSocketService.joinRoom "r2" "u2" None
             (WebSocketService.mk (Some true) ∅ []) in
  let s1 := WebSocketService.onConnect (WebSocketService.reconnect ["r2"] s) in
  WebSocketService.joinRoom "r2" "u2" None s1 = s1
  /\ WebSocketService.sent s1
     = [WebSocketService.SentJoinRoom "r2" "u2" None;
        WebSocketService.SentLeaveRoom "r2" EmptyString].
Proof.
  intros s s1.
  assert (Hin : "r2" ∈ WebSocketService.joinedRooms s).
  { unfold s. simpl. apply elem_of_union. left. now apply elem_of_singleton. }
  destruct (reconnect_skips_the_rejoin ["r2"] s "r2" "u2" None "s1" 0 Scenario.idle Hin)
    as (_ & _ & Hskip & Hsent & _).
  split; [exact Hskip|exact Hsent].
Defined.

(** X18: while the socket is connected, whatever [joinRoom] and
    [leaveRoom] calls are made on the service, no [joinRoom] message for
    a room is sent while the room is joined (there is a [leaveRoom]
    message for it between any two), and [hasJoinedRoom] tells for every
    room whether the last message about it was a [joinRoom]. *)
Theorem service_never_joins_a_room_twice
    (cs : list WebSocketService.Call) (s : WebSocketService.t) (roomId : string) :
  WebSocketService.socket s = Some true ->
  WebSocketService.joinedRooms s = ∅ ->
  WebSocketService.sent s = [] ->
  let s' := WebSocketService.calls cs s in
  WebSocketService.no_double_join roomId false (WebSocketService.sent s') = true
  /\ WebSocketService.hasJoinedRoom roomId s'
     = WebSocketService.joined_after roomId false (WebSocketService.sent s').
Proof.
  intros Hs Hrooms Hsent s'.
  apply (ServiceFacts.calls_agrees cs s Hs).
  intros r. unfold WebSocketService.hasJoinedRoom. rewrite Hsent, Hrooms. simpl.
  split; [reflexivity|]. apply bool_decide_eq_false_2, not_elem_of_empty.
Qed.

Lemma service_never_joins_a_room_twice_witness :
  let s' := WebSocketService.calls
              [WebSocketService.CallJoin "r2" "u2" None;
               WebSocketService.CallJoin "r2" "u2" None;
               WebSocketService.CallLeave "r2" "u2";
               WebSocketService.CallJoin "r2" "u2" None]
              (WebSocketService.mk (Some true) ∅ []) in
  WebSocketService.no_double_join "r2" false (WebSocketService.sent s') = true
  /\ WebSocketService.hasJoinedRoom "r2" s'
     = WebSocketService.joined_after "r2" false (WebSocketService.sent s').
Proof.
  apply (service_never_joins_a_room_twice
           [WebSocketService.CallJoin "r2" "u2" None;
            WebSocketService.CallJoin "r2" "u2" None;
            WebSocketService.CallLeave "r2" "u2";
            WebSocketService.CallJoin "r2" "u2" None]
           (WebSocketService.mk (Some true) ∅ []) "r2"); reflexivity.
Defined.



Module AdapterFacts.

Lemma members_join sid r t (a : Adapter) :
  members t (socket_join sid r a)
  = if String.eqb r t then {[sid]} ∪ members t a else members t a.
Proof.
  unfold socket_join. destruct (String.eqb_spec r t) as [->|Hne].
  - unfold members at 1.
    assert (E : <[t := {[sid]} ∪ members t a]> a !! t
                = Some ({[sid]} ∪ members t a)) by apply lookup_insert_eq.
    now rewrite E.
  - unfold members at 1 3.
    assert (E : <[r := {[sid]} ∪ members r a]> a !! t = a !! t)
      by now apply lookup_insert_ne.
    now rewrite E.
Qed.

Lemma members_leave sid r t (a : Adapter) :
  members t (socket_leave sid r a)
  = if String.eqb r t then members t a ∖ {[sid]} else members t a.
Proof.
  unfold socket_leave. destruct (String.eqb_spec r t) as [->|Hne].
  - unfold members. destruct (a !! t) as [s|] eqn:E.
    + assert (E' : <[t := s ∖ {[sid]}]> a !! t = Some (s ∖ {[sid]}))
        by apply lookup_insert_eq.
      now rewrite E'.
    + rewrite E. simpl. symmetry. apply leibniz_equiv.
      intros x. rewrite elem_of_difference.
      split; [now intros [Hx _]|intros Hx; exfalso; revert Hx; apply not_elem_of_empty].
  - destruct (a !! r) as [s|] eqn:E; [|reflexivity].
    unfold members.
    assert (E' : <[r := s ∖ {[sid]}]> a !! t = a !! t) by now apply lookup_insert_ne.
    now rewrite E'.
Qed.

Lemma members_drop sid t (a : Adapter) :
  members t (socket_drop sid a) = members t a ∖ {[sid]}.
Proof.
  unfold members.
  assert (E : socket_drop sid a !! t
              = (fun s : gset string => s ∖ {[sid]}) <$> (a !! t))
    by apply lookup_fmap.
  rewrite E. destruct (a !! t); simpl; [reflexivity|].
  symmetry. apply leibniz_equiv. intros x. rewrite elem_of_difference.
  split; [now intros [Hx _]|intros Hx; exfalso; revert Hx; apply not_elem_of_empty].
Qed.

(** What each handler does to the adapter. *)
Lemma handle_sio sid i now st :
  Hub.sio (fst (Hub.handle sid i now st))
  = match i with
    | Hub.InJoinRoom p =>
        if Js.truthy (Hub.jp_roomId p) && Js.truthy (Hub.jp_userId p)
        then socket_join sid (Hub.jp_roomId p) (Hub.sio st) else Hub.sio st
    | Hub.InLeaveRoom roomId _ => socket_leave sid roomId (Hub.sio st)
    | Hub.InDisconnect => socket_drop sid (Hub.sio st)
    | _ => Hub.sio st
    end.
Proof.
  destruct i; cbn [Hub.handle].
  - destruct (Js.truthy (Hub.jp_roomId p)) eqn:Hr;
      destruct (Js.truthy (Hub.jp_userId p)) eqn:Hu; cbn [andb];
      try (unfold Hub.joinRoom; rewrite Hr, Hu; reflexivity).
    now apply LeaveFacts.sio_joinRoom.
  - unfold Hub.codeChange. now destruct (_ && _).
  - unfold Hub.cursorChange. now destruct (_ && _).
  - unfold Hub.leaveRoom. now destruct (_ && _).
  - unfold Hub.offer, Hub.forward. now destruct (_ && _).
  - unfold Hub.answer, Hub.forward. now destruct (_ && _).
  - unfold Hub.iceCandidate, Hub.forward. now destruct (_ && _).
  - unfold Hub.retryConnection. now destruct (_ && _).
  - unfold Hub.disconnect. cbn [Hub.activeUsers Hub.set_sio].
    now destruct (Hub.disconnect_loop _ _ _).
Qed.

End AdapterFacts.

(** X20: a handler changes the socket.io rooms of the socket that sent
    the event and of no other: whoever else was in a room is in it
    afterwards and conversely; and the sending socket enters a room only
    through [joinRoom], and only the room that the request names. *)
Theorem handlers_move_only_the_caller
    (sid : string) (i : Hub.Input) (now : Z) (st : Hub.State) (t : string) :
  let st' := fst (Hub.handle sid i now st) in
  (forall c, c <> sid ->
     (c ∈ members t (Hub.sio st') <-> c ∈ members t (Hub.sio st)))
  /\ (sid ∈ members t (Hub.sio st') ->
      sid ∈ members t (Hub.sio st)
      \/ exists p, i = Hub.InJoinRoom p /\ Hub.jp_roomId p = t).
Proof.
  intros st'. subst st'. rewrite AdapterFacts.handle_sio.
  destruct i; try (split; [tauto|auto]).
  - destruct (Js.truthy (Hub.jp_roomId p) && Js.truthy (Hub.jp_userId p));
      [|split; [tauto|auto]].
    rewrite AdapterFacts.members_join.
    destruct (String.eqb_spec (Hub.jp_roomId p) t) as [E|Hne]; [|split; [tauto|auto]].
    split.
    + intros c Hc. rewrite elem_of_union, elem_of_singleton. tauto.
    + intros _. right. eauto.
  - rewrite AdapterFacts.members_leave.
    destruct (String.eqb roomId t); [|split; [tauto|auto]].
    split.
    + intros c Hc. rewrite elem_of_difference, elem_of_singleton. tauto.
    + rewrite elem_of_difference. tauto.
  - rewrite AdapterFacts.members_drop. split.
    + intros c Hc. rewrite elem_of_difference, elem_of_singleton. tauto.
    + rewrite elem_of_difference. tauto.
Qed.

(** X21: a [joinRoom] whose room id is the id of another socket puts
    the caller in the room that socket.io keeps for that socket, whether
    or not a room or a user with these ids exists; from then on every
    relayed message addressed to that socket is delivered to the caller
    as well. *)
Theorem joinRoom_with_a_socket_id_taps_the_relay
    (eve victim : string) (p : Hub.JoinPayload) (m : Relay.Relayed)
    (sender : string) (now later : Z) (st : Hub.State) :
  Hub.jp_roomId p = victim ->
  Js.truthy victim = true ->
  Js.truthy (Hub.jp_userId p) = true ->
  Js.truthy (Relay.room m) = true ->
  Relay.target m = victim ->
  let st' := fst (Hub.joinRoom eve p now st) in
  let out := Hub.handle sender (Relay.to_input m) later st' in
  exists forwarded,
    snd out = [Emit (IoTo victim) forwarded]
    /\ Relay.sender_of forwarded = Some sender
    /\ Relay.delivered eve sender (Hub.sio st') (snd out) = [forwarded]
    /\ (victim ∈ members victim (Hub.sio st) ->
        Relay.delivered victim sender (Hub.sio st') (snd out) = [forwarded]).
Proof.
  intros Hroom Hv Hu Hmr Hmt st' out.
  assert (Hsio : Hub.sio st' = socket_join eve victim (Hub.sio st)).
  { unfold st'. rewrite LeaveFacts.sio_joinRoom by (rewrite ?Hroom; assumption).
    now rewrite Hroom. }
  assert (Hmem : members victim (Hub.sio st') = {[eve]} ∪ members victim (Hub.sio st)).
  { rewrite Hsio, AdapterFacts.members_join. now rewrite String.eqb_refl. }
  assert (Hout : exists forwarded,
             snd out = [Emit (IoTo victim) forwarded]
             /\ Relay.sender_of forwarded = Some sender).
  { subst out. rewrite <- Hmt in *.
    destruct m as [d|d|d|targetId roomId]; simpl in *;
      unfold Hub.offer, Hub.answer, Hub.iceCandidate, Hub.forward, Hub.retryConnection;
      rewrite Hmr, Hv; simpl; eexists; split; reflexivity. }
  destruct Hout as (forwarded & Hout & Hsender).
  exists forwarded. split; [exact Hout|]. split; [exact Hsender|].
  rewrite Hout. cbn [Relay.delivered flat_map recipients app]. rewrite Hmem. split.
  - rewrite bool_decide_eq_true_2; [reflexivity|].
    apply elem_of_union. left. now apply elem_of_singleton.
  - intros Hin. rewrite bool_decide_eq_true_2; [reflexivity|].
    apply elem_of_union. now right.
Qed.

Lemma joinRoom_with_a_socket_id_taps_the_relay_witness :
  let st := Hub.connect "s3" (Hub.connect "s2" (Hub.connect "s1" Scenario.idle)) in
  let st' := fst (Hub.joinRoom "s3" (Scenario.join "s2" "nobody" None) 0 st) in
  let data := mkSignalData "r2" "s2" None "sdp" in
  let out := Hub.handle "s1" (Relay.to_input (Relay.Offer data)) 1 st' in
  exists forwarded,
    snd out = [Emit (IoTo "s2") forwarded]
    /\ Relay.sender_of forwarded = Some "s1"
    /\ Relay.delivered "s3" "s1" (Hub.sio st') (snd out) = [forwarded]
    /\ ("s2" ∈ members "s2" (Hub.sio st) ->
        Relay.delivered "s2" "s1" (Hub.sio st') (snd out) = [forwarded]).
Proof.
  intros st st' data out.
  apply (joinRoom_with_a_socket_id_taps_the_relay
           "s3" "s2" (Scenario.join "s2" "nobody" None) (Relay.Offer data)
           "s1" 0 1 st); reflexivity.
Defined.

Module PeerFacts.
Import VideoChat.

Section WithOffer.
Variable localOffer : string.

(** After [createPeerConnection] there is a connection. *)
Lemma createPeerConnection_has remote st :
  is_Some (peerConnections (createPeerConnection localOffer remote st) !! remote).
Proof.
  unfold createPeerConnection, sendOffer.
  destruct (peerConnections st !! remote) as [pc|] eqn:E; [now rewrite E|].
  destruct (Js.lt (socketId st) remote).
  - cbn [peerConnections set_pcs]. rewrite lookup_insert_eq.
    cbn [closed newPC peerConnections set_status emit set_pcs].
    rewrite lookup_insert_eq. eauto.
  - cbn [peerConnections set_status set_pcs]. rewrite lookup_insert_eq. eauto.
Qed.

(** A connection made where there was none. *)
Lemma createPeerConnection_fresh remote st :
  peerConnections st !! remote = None ->
  createPeerConnection localOffer remote st
  = if Js.lt (socketId st) remote then
      set_status remote "new"
        (emit (SentOffer remote localOffer)
           (set_pcs (<[remote := mkPC None (Some localOffer) [] false]>
                       (peerConnections st)) st))
    else
      set_status remote "new"
        (set_pcs (<[remote := newPC]> (peerConnections st)) st).
Proof.
  intros Hnone. destruct (Js.lt (socketId st) remote) eqn:Hlt.
  - now apply GlareFacts.createPeerConnection_offers.
  - unfold createPeerConnection. now rewrite Hnone, Hlt.
Qed.

End WithOffer.

End PeerFacts.


(** X23: [userLeft] for a peer that has a connection deletes the
    connection, the peer's status and its buffered candidates, and leaves
    the other peers' entries alone.  When the peer joins again the
    connection is made from scratch: it has no remote description and no
    candidates, its status is [new], nothing is buffered for it, and an
    offer is sent exactly when the local socket id is the smaller one. *)
Theorem userLeft_then_userJoined_starts_afresh
    (localOffer u : string) (st : VideoChat.State) :
  Js.truthy u = true ->
  u <> VideoChat.userId st ->
  u <> VideoChat.socketId st ->
  is_Some (VideoChat.peerConnections st !! u) ->
  let st1 := VideoChat.handleUserLeft (Some u) st in
  let st2 := VideoChat.handleUserJoined localOffer (Some u) st1 in
  (VideoChat.peerConnections st1 !! u = None
   /\ VideoChat.connectionStatus st1 !! u = None
   /\ VideoChat.buffered u st1 = []
   /\ VideoChat.sent st1 = VideoChat.sent st
   /\ forall v, v <> u ->
        VideoChat.peerConnections st1 !! v = VideoChat.peerConnections st !! v
        /\ VideoChat.buffered v st1 = VideoChat.buffered v st)
  /\ (exists pc,
        VideoChat.peerConnections st2 !! u = Some pc
        /\ VideoChat.remoteDescription pc = None
        /\ VideoChat.remoteCandidates pc = []
        /\ VideoChat.closed pc = false)
  /\ VideoChat.connectionStatus st2 !! u = Some "new"
  /\ VideoChat.buffered u st2 = []
  /\ VideoChat.sent st2
     = VideoChat.sent st
       ++ (if Js.lt (VideoChat.socketId st) u
           then [VideoChat.SentOffer u localOffer] else []).
Proof.
  intros Hu Hne1 Hne2 [pc Hpc] st1 st2.
  assert (Hst1 : st1 = VideoChat.mkState (VideoChat.socketId st) (VideoChat.userId st)
                         (delete u (VideoChat.peerConnections st))
                         (delete u (VideoChat.iceCandidatesBuffer st))
                         (delete u (VideoChat.connectionStatus st))
                         (VideoChat.sent st)).
  { unfold st1, VideoChat.handleUserLeft. now rewrite Hu, Hpc. }
  assert (Hnone : VideoChat.peerConnections st1 !! u = None).
  { rewrite Hst1. cbn [VideoChat.peerConnections]. apply lookup_delete_eq. }
  assert (Hst2 : st2 = VideoChat.createPeerConnection localOffer u st1).
  { unfold st2, VideoChat.handleUserJoined.
    replace (VideoChat.userId st1) with (VideoChat.userId st) by now rewrite Hst1.
    replace (VideoChat.socketId st1) with (VideoChat.socketId st) by now rewrite Hst1.
    apply String.eqb_neq in Hne1, Hne2. now rewrite Hne1, Hne2. }
  assert (Hbuf : VideoChat.buffered u st1 = []).
  { unfold VideoChat.buffered. rewrite Hst1. cbn [VideoChat.iceCandidatesBuffer].
    now rewrite lookup_delete_eq. }
  split; [|].
  - split; [exact Hnone|]. split.
    { rewrite Hst1. cbn [VideoChat.connectionStatus]. apply lookup_delete_eq. }
    split; [exact Hbuf|]. split; [now rewrite Hst1|].
    intros v Hv. rewrite Hst1. unfold VideoChat.buffered.
    cbn [VideoChat.peerConnections VideoChat.iceCandidatesBuffer].
    rewrite !lookup_delete_ne by congruence. split; reflexivity.
  - rewrite Hst2, (PeerFacts.createPeerConnection_fresh localOffer u st1 Hnone).
    replace (VideoChat.socketId st1) with (VideoChat.socketId st) by now rewrite Hst1.
    destruct (Js.lt (VideoChat.socketId st) u).
    + cbn [VideoChat.peerConnections VideoChat.connectionStatus VideoChat.sent
           VideoChat.set_status VideoChat.emit VideoChat.set_pcs].
      split; [eexists; split; [apply lookup_insert_eq|repeat split]|].
      split; [apply lookup_insert_eq|]. split; [exact Hbuf|].
      now rewrite Hst1.
    + cbn [VideoChat.peerConnections VideoChat.connectionStatus VideoChat.sent
           VideoChat.set_status VideoChat.set_pcs].
      split; [eexists; split; [apply lookup_insert_eq|repeat split]|].
      split; [apply lookup_insert_eq|]. split; [exact Hbuf|].
      rewrite Hst1. cbn. now rewrite app_nil_r.
Qed.

Lemma userLeft_then_userJoined_starts_afresh_witness :
  let st := VideoChat.mkState "s1" "u1"
              {["s2" := VideoChat.mkPC (Some "offer") (Some "answer") ["c1"] false]}
              {["s2" := ["c2"]]} {["s2" := "connected"]} [] in
  let st2 := VideoChat.handleUserJoined "sdp" (Some "s2")
               (VideoChat.handleUserLeft (Some "s2") st) in
  VideoChat.peerConnections st2 !! "s2"
  = Some (VideoChat.mkPC None (Some "sdp") [] false)
  /\ VideoChat.sent st2 = [VideoChat.SentOffer "s2" "sdp"].
Proof.
  intros st st2.
  assert (Hpc : is_Some (VideoChat.peerConnections st !! "s2")).
  { unfold st. cbn [VideoChat.peerConnections]. rewrite lookup_singleton_eq. eauto. }
  assert (H1 : "s2" <> VideoChat.userId st) by discriminate.
  assert (H2 : "s2" <> VideoChat.socketId st) by discriminate.
  destruct (userLeft_then_userJoined_starts_afresh "sdp" "s2" st eq_refl H1 H2 Hpc)
    as (_ & _ & _ & _ & Hsent).
  split; [vm_compute; reflexivity|exact Hsent].
Defined.

Module HandshakeFacts.

(** What a connected socket receives of a message addressed to it, and
    what the others receive. *)
Lemma relay_to_target roomId me target m forwarded hub now c :
  snd (Hub.handle me (Signal.to_input roomId me m) now hub)
  = [Emit (IoTo target) forwarded] ->
  members target (Hub.sio hub) = {[target]} ->
  Signal.relay roomId me m c now hub
  = if String.eqb c target then [forwarded] else [].
Proof.
  intros Hout Hmem. unfold Signal.relay. rewrite Hout.
  cbn [Relay.delivered flat_map recipients app]. rewrite Hmem.
  destruct (String.eqb_spec c target) as [->|Hne].
  - rewrite bool_decide_eq_true_2; [reflexivity|now apply elem_of_singleton].
  - rewrite bool_decide_eq_false_2; [reflexivity|].
    intros Hin. now apply elem_of_singleton in Hin.
Qed.

End HandshakeFacts.



(** X25: an offer whose description the browser rejects marks the peer
    as failed and sends no answer, and the candidates buffered for the
    peer stay buffered; when a later offer from the peer is accepted they
    are added to the connection, in order, after those it had, and the
    buffer entry is removed. *)
Theorem rejected_offer_keeps_the_buffer
    (sdp_ok candidate_ok : string -> bool) (localOffer : string)
    (createAnswer : string -> string)
    (sender bad good : string) (st : VideoChat.State) :
  VideoChat.awaits_description sender st ->
  sdp_ok bad = false ->
  sdp_ok good = true ->
  let me := VideoChat.socketId st in
  let st1 := VideoChat.handleOffer sdp_ok candidate_ok localOffer createAnswer
               me sender bad st in
  let st2 := VideoChat.handleOffer sdp_ok candidate_ok localOffer createAnswer
               me sender good st1 in
  st1 = VideoChat.set_status sender "failed"
          (VideoChat.createPeerConnection localOffer sender st)
  /\ VideoChat.buffered sender st1 = VideoChat.buffered sender st
  /\ VideoChat.connectionStatus st1 !! sender = Some "failed"
  /\ VideoChat.iceCandidatesBuffer st2 !! sender = None
  /\ exists pc,
       VideoChat.peerConnections st2 !! sender = Some pc
       /\ VideoChat.remoteDescription pc = Some good
       /\ VideoChat.remoteCandidates pc
          = VideoChat.prior sender st
            ++ List.filter candidate_ok (VideoChat.buffered sender st).
Proof.
  intros Hwaits Hbad Hgood me st1 st2.
  destruct (IceFacts.createPeerConnection_awaits localOffer sender st Hwaits)
    as (pc0 & Hpc0 & Hd0 & Hopen0 & Hprior).
  destruct (IceFacts.createPeerConnection_frame localOffer sender st) as [Hid Hbuf].
  assert (Hst1 : st1 = VideoChat.set_status sender "failed"
                         (VideoChat.createPeerConnection localOffer sender st)).
  { unfold st1, me, VideoChat.handleOffer. rewrite String.eqb_refl, Hpc0.
    unfold VideoChat.setRemoteDescription. now rewrite Hbad. }
  assert (Hbuf1 : VideoChat.buffered sender st1 = VideoChat.buffered sender st).
  { unfold VideoChat.buffered. rewrite Hst1.
    cbn [VideoChat.iceCandidatesBuffer VideoChat.set_status]. now rewrite Hbuf. }
  assert (Hme : VideoChat.socketId st1 = me).
  { rewrite Hst1. cbn [VideoChat.socketId VideoChat.set_status]. exact Hid. }
  assert (Hwaits1 : VideoChat.awaits_description sender st1).
  { unfold VideoChat.awaits_description. rewrite Hst1.
    cbn [VideoChat.peerConnections VideoChat.set_status]. rewrite Hpc0. auto. }
  assert (Hprior1 : VideoChat.prior sender st1 = VideoChat.prior sender st).
  { unfold VideoChat.prior at 1. rewrite Hst1.
    cbn [VideoChat.peerConnections VideoChat.set_status]. now rewrite Hpc0. }
  split; [exact Hst1|]. split; [exact Hbuf1|]. split.
  { rewrite Hst1. cbn [VideoChat.connectionStatus VideoChat.set_status].
    apply lookup_insert_eq. }
  pose proof (IceReplay.offer_replays sdp_ok candidate_ok localOffer createAnswer
                sender good [] st1 Hwaits1 Hgood) as Hreplay.
  cbv zeta in Hreplay. cbn [VideoChat.handleIceCandidates fold_left] in Hreplay.
  rewrite Hme, app_nil_r, Hprior1, Hbuf1 in Hreplay. exact Hreplay.
Qed.

Lemma rejected_offer_keeps_the_buffer_witness :
  let sdp_ok := fun sdp : string => negb (String.eqb sdp "garbled") in
  let ok := fun _ : string => true in
  let st := VideoChat.mkState "s2" "u2" ∅ {["s1" := ["c1"; "c2"]]} ∅ [] in
  let st1 := VideoChat.handleOffer sdp_ok ok "mine" (fun _ => "answer")
               "s2" "s1" "garbled" st in
  let st2 := VideoChat.handleOffer sdp_ok ok "mine" (fun _ => "answer")
               "s2" "s1" "offer" st1 in
  VideoChat.buffered "s1" st1 = VideoChat.buffered "s1" st
  /\ exists pc,
       VideoChat.peerConnections st2 !! "s1" = Some pc
       /\ VideoChat.remoteDescription pc = Some "offer"
       /\ VideoChat.remoteCandidates pc
          = VideoChat.prior "s1" st ++ List.filter ok (VideoChat.buffered "s1" st).
Proof.
  intros sdp_ok ok st st1 st2.
  assert (Hwaits : VideoChat.awaits_description "s1" st).
  { unfold VideoChat.awaits_description, st. cbn [VideoChat.peerConnections].
    now rewrite lookup_empty. }
  destruct (rejected_offer_keeps_the_buffer sdp_ok ok "mine" (fun _ => "answer")
              "s1" "garbled" "offer" st Hwaits eq_refl eq_refl)
    as (_ & Hkept & _ & _ & Hpc).
  split; [exact Hkept|exact Hpc].
Defined.
